(** * KubeForge: the kubeadm provisioner, the provisioning orchestrator,
      the cluster views and the event replay, embedded in Rocq

    Sources embedded here:
    - [internal/provision/kubeadm.go]   (KubeadmProvisioner, ClusterSpec, HostSpec)
    - [internal/provision] interface file (IProvisioner, registry, errors)
    - [internal/provision/ssh_client.go] (TestConnection, GetHostInfo)
    - [internal/api] cluster handlers     (ListClusters, GetCluster, CreateCluster,
                                           provisionCluster, DeleteCluster,
                                           GetKubeconfig, GetEvents, logEvent, logError)
    - [internal/api] response helpers     (WriteJSON, WriteSuccess, WriteCreated)
    - [internal/api] websocket hub        (WebSocketHub.Run, HandleWebSocket)
    - [internal/db] models                (Cluster, Node, Event, Job)

    Go strings are byte strings: they are modelled by [string], one [ascii]
    per byte.  Go errors are modelled by their message ([err.Error()]).
    A Go run-time panic is an explicit outcome, never a missing case; so is
    a task that stays blocked on a channel. *)

From Stdlib Require Import ZArith NArith String Ascii List Lia Bool.
From Stdlib Require Import DecimalString DecimalN DecimalPos.
From stdpp Require Import base option list strings gmap sorting.

Import ListNotations.
Local Open Scope string_scope.
Local Open Scope list_scope.

(** ** Outcomes: a Go call returns, panics, or stays blocked *)

Inductive outcome (A : Type) : Type :=
| Done (a : A)
| Panicked (msg : string)
| Blocked.
Arguments Done {A} a.
Arguments Panicked {A} msg.
Arguments Blocked {A}.

(** ** Sequencing: state passing with panics

    [M S A] is a Go call that reads and writes a state [S] and either
    returns an [A], panics, or does not get past a send on a channel; the
    state reached is kept in all cases. *)

Definition M (S A : Type) : Type := S -> outcome A * S.

Definition ret {S A : Type} (a : A) : M S A := fun s => (Done a, s).

Definition bind {S A B : Type} (m : M S A) (k : A -> M S B) : M S B :=
  fun s =>
    match m s with
    | (Done a, s') => k a s'
    | (Panicked msg, s') => (Panicked msg, s')
    | (Blocked, s') => (Blocked, s')
    end.

Definition panic {S A : Type} (msg : string) : M S A := fun s => (Panicked msg, s).

Definition block {S A : Type} : M S A := fun s => (Blocked, s).

Notation "'let*' x ':=' m 'in' k" := (bind m (fun x => k))
  (at level 10, x pattern, m at level 100, k at level 200).
Notation "m ';;' k" := (bind m (fun _ => k))
  (at level 100, k at level 200, right associativity).

(** ** Package [strings] of the Go standard library, as far as the code uses it *)

Module GoStrings.

Definition byte (n : N) : ascii := ascii_of_N n.

Fixpoint bytes (l : list N) : string :=
  match l with
  | [] => EmptyString
  | n :: l' => String (byte n) (bytes l')
  end.

Definition nl : string := bytes [10%N].
Definition tab : string := bytes [9%N].
Definition dq : string := bytes [34%N].
Definition backslash : string := bytes [92%N].

(** [unicode.IsSpace]: the runes of the White_Space table, each given by
    its UTF-8 encoding.  No encoding is a prefix of another one. *)
Definition whiteSpace : list string :=
  map bytes
    [ [0x09]; [0x0A]; [0x0B]; [0x0C]; [0x0D]; [0x20];
      [0xC2; 0x85]; [0xC2; 0xA0];
      [0xE1; 0x9A; 0x80];
      [0xE2; 0x80; 0x80]; [0xE2; 0x80; 0x81]; [0xE2; 0x80; 0x82];
      [0xE2; 0x80; 0x83]; [0xE2; 0x80; 0x84]; [0xE2; 0x80; 0x85];
      [0xE2; 0x80; 0x86]; [0xE2; 0x80; 0x87]; [0xE2; 0x80; 0x88];
      [0xE2; 0x80; 0x89]; [0xE2; 0x80; 0x8A];
      [0xE2; 0x80; 0xA8]; [0xE2; 0x80; 0xA9]; [0xE2; 0x80; 0xAF];
      [0xE2; 0x81; 0x9F];
      [0xE3; 0x80; 0x80] ]%N.

(** Number of bytes of the pattern of [pats] that [s] starts with, 0 when
    it starts with none. *)
Definition runeWidth (pats : list string) (s : string) : nat :=
  match find (fun p => String.prefix p s) pats with
  | Some p => String.length p
  | None => 0
  end.

(** [strings.HasPrefix] *)
Definition HasPrefix (s prefix : string) : bool := String.prefix prefix s.

Fixpoint dropBytes (n : nat) (s : string) : string :=
  match n, s with
  | S k, String _ r => dropBytes k r
  | _, _ => s
  end.

(** [strings.TrimPrefix] *)
Definition TrimPrefix (s prefix : string) : string :=
  if HasPrefix s prefix then dropBytes (String.length prefix) s else s.

(** [strings.Contains] *)
Fixpoint Contains (s substr : string) : bool :=
  String.prefix substr s ||
  match s with
  | EmptyString => false
  | String _ r => Contains r substr
  end.

(** [strings.Split] for a non-empty separator (every call site passes a
    non-empty literal): the leftmost, non-overlapping occurrences of [sep]
    cut [s].  [skip] counts the bytes of a separator still to be passed. *)
Fixpoint splitFrom (sep : string) (skip : nat) (s : string) : string * list string :=
  match s with
  | EmptyString => (EmptyString, [])
  | String c r =>
      match skip with
      | S k => splitFrom sep k r
      | O =>
          if String.prefix sep s
          then let '(f, fs) := splitFrom sep (String.length sep - 1) r in
               (EmptyString, f :: fs)
          else let '(f, fs) := splitFrom sep 0 r in
               (String c f, fs)
      end
  end.

Definition Split (s sep : string) : list string :=
  let '(f, fs) := splitFrom sep 0 s in f :: fs.

(** Leading white space removed, rune by rune. *)
Fixpoint dropRunes (pats : list string) (skip : nat) (s : string) : string :=
  match s with
  | EmptyString => EmptyString
  | String _ r =>
      match skip with
      | S k => dropRunes pats k r
      | O =>
          match runeWidth pats s with
          | O => s
          | S k => dropRunes pats k r
          end
      end
  end.

(** [strings.TrimSpace]: leading, then trailing white space is removed.
    The trailing runes are recognised on the reversed bytes. *)
Definition TrimSpace (s : string) : string :=
  String.rev (dropRunes (map String.rev whiteSpace) 0
                (String.rev (dropRunes whiteSpace 0 s))).

Definition closeField (cur : option string) : list string :=
  match cur with
  | Some f => [String.rev f]
  | None => []
  end.

(** [strings.Fields]: the maximal runs of bytes between white space. *)
Fixpoint fieldsFrom (skip : nat) (cur : option string) (s : string) : list string :=
  match s with
  | EmptyString => closeField cur
  | String c r =>
      match skip with
      | S k => fieldsFrom k cur r
      | O =>
          match runeWidth whiteSpace s with
          | O => fieldsFrom 0 (Some (String c (default EmptyString cur))) r
          | S k => closeField cur ++ fieldsFrom k None r
          end
      end
  end.

Definition Fields (s : string) : list string := fieldsFrom 0 None s.

End GoStrings.
Import GoStrings.

(** ** Package [provision]: specifications, validation, errors *)

Module provision.

(** A Go [error], by its message. *)
Definition error : Type := string.

(** [ErrInvalidSpec] *)
Definition ErrInvalidSpec (msg : string) : error := "invalid spec: " +:+ msg.

Definition ErrNotImplemented : error := "not implemented".
Definition ErrProvisionerNotFound : error := "provisioner not found".

(** [HostSpec] *)
Record HostSpec : Type := mkHostSpec {
  Hostname : string;
  Address : string;
  User : string;
  SSHKey : string;
  SSHKeyPath : string;
  Port : Z;
  Role : string;
  Labels : gmap string string;
  Taints : list string
}.

(** [ClusterSpec] *)
Record ClusterSpec : Type := mkClusterSpec {
  Name : string;
  ControlPlanes : list HostSpec;
  Workers : list HostSpec;
  K8sVersion : string;
  PodNetworkCIDR : string;
  ServiceCIDR : string;
  CNI : string;
  ContainerRuntime : string;
  APIServerEndpoint : string;
  LoadBalancerIP : string;
  CertificateKey : string
}.

Definition withUser (v : string) (hs : HostSpec) : HostSpec :=
  mkHostSpec (Hostname hs) (Address hs) v (SSHKey hs) (SSHKeyPath hs)
             (Port hs) (Role hs) (Labels hs) (Taints hs).
Definition withPort (v : Z) (hs : HostSpec) : HostSpec :=
  mkHostSpec (Hostname hs) (Address hs) (User hs) (SSHKey hs) (SSHKeyPath hs)
             v (Role hs) (Labels hs) (Taints hs).
Definition withHostname (v : string) (hs : HostSpec) : HostSpec :=
  mkHostSpec v (Address hs) (User hs) (SSHKey hs) (SSHKeyPath hs)
             (Port hs) (Role hs) (Labels hs) (Taints hs).

Definition withK8sVersion (v : string) (cs : ClusterSpec) : ClusterSpec :=
  mkClusterSpec (Name cs) (ControlPlanes cs) (Workers cs) v (PodNetworkCIDR cs)
                (ServiceCIDR cs) (CNI cs) (ContainerRuntime cs)
                (APIServerEndpoint cs) (LoadBalancerIP cs) (CertificateKey cs).
Definition withPodNetworkCIDR (v : string) (cs : ClusterSpec) : ClusterSpec :=
  mkClusterSpec (Name cs) (ControlPlanes cs) (Workers cs) (K8sVersion cs) v
                (ServiceCIDR cs) (CNI cs) (ContainerRuntime cs)
                (APIServerEndpoint cs) (LoadBalancerIP cs) (CertificateKey cs).
Definition withServiceCIDR (v : string) (cs : ClusterSpec) : ClusterSpec :=
  mkClusterSpec (Name cs) (ControlPlanes cs) (Workers cs) (K8sVersion cs)
                (PodNetworkCIDR cs) v (CNI cs) (ContainerRuntime cs)
                (APIServerEndpoint cs) (LoadBalancerIP cs) (CertificateKey cs).
Definition withCNI (v : string) (cs : ClusterSpec) : ClusterSpec :=
  mkClusterSpec (Name cs) (ControlPlanes cs) (Workers cs) (K8sVersion cs)
                (PodNetworkCIDR cs) (ServiceCIDR cs) v (ContainerRuntime cs)
                (APIServerEndpoint cs) (LoadBalancerIP cs) (CertificateKey cs).
Definition withContainerRuntime (v : string) (cs : ClusterSpec) : ClusterSpec :=
  mkClusterSpec (Name cs) (ControlPlanes cs) (Workers cs) (K8sVersion cs)
                (PodNetworkCIDR cs) (ServiceCIDR cs) (CNI cs) v
                (APIServerEndpoint cs) (LoadBalancerIP cs) (CertificateKey cs).

(** [if field == "" { field = v }] *)
Definition orDefault {A : Type} (get : A -> string) (set : string -> A -> A)
           (v : string) (x : A) : A :=
  if String.eqb (get x) "" then set v x else x.

(** [HostSpec.Validate] (pointer receiver): the receiver after the call, and the error. *)
Definition HostSpec_Validate (hs : HostSpec) : HostSpec * option error :=
  if String.eqb (Address hs) "" then
    (hs, Some (ErrInvalidSpec "host address is required"))
  else
    let hs := orDefault User withUser "root" hs in
    let hs := if Z.eqb (Port hs) 0 then withPort 22 hs else hs in
    if String.eqb (SSHKey hs) "" && String.eqb (SSHKeyPath hs) "" then
      (hs, Some (ErrInvalidSpec
                   ("SSH key or key path is required for host " +:+ Address hs)))
    else
      (orDefault Hostname withHostname (Address hs) hs, None).

(** The loop [for _, host := range append(cs.ControlPlanes, cs.Workers...)]
    of [ClusterSpec.Validate] (pointer receiver).  The loop variable [host] is a copy of the
    slice element, and [host.Validate()] takes the address of that copy:
    what it writes is dropped at the end of the iteration, only the error
    leaves the loop. *)
Fixpoint validateHosts (hosts : list HostSpec) : option error :=
  match hosts with
  | [] => None
  | host :: rest =>
      match snd (HostSpec_Validate host) with
      | Some err => Some err
      | None => validateHosts rest
      end
  end.

Definition setDefaults (cs : ClusterSpec) : ClusterSpec :=
  let cs := orDefault K8sVersion withK8sVersion "1.28.0" cs in
  let cs := orDefault PodNetworkCIDR withPodNetworkCIDR "10.244.0.0/16" cs in
  let cs := orDefault ServiceCIDR withServiceCIDR "10.96.0.0/12" cs in
  let cs := orDefault CNI withCNI "calico" cs in
  orDefault ContainerRuntime withContainerRuntime "containerd" cs.

(** [ClusterSpec.Validate] (pointer receiver): the receiver after the call, and the error. *)
Definition ClusterSpec_Validate (cs : ClusterSpec) : ClusterSpec * option error :=
  if String.eqb (Name cs) "" then
    (cs, Some (ErrInvalidSpec "cluster name is required"))
  else if Nat.eqb (length (ControlPlanes cs)) 0 then
    (cs, Some (ErrInvalidSpec "at least one control plane is required"))
  else
    let cs := setDefaults cs in
    (cs, validateHosts (ControlPlanes cs ++ Workers cs)).

(** ** Parsing the output of [kubeadm init] *)

(** The inner loop of [extractJoinCommand]: at most [n] further lines are
    appended, while they are non-blank and start with "--" or a backslash. *)
Fixpoint joinContinuation (n : nat) (rest : list string) (joinCmd : string) : string :=
  match n, rest with
  | S k, l :: rest' =>
      let nextLine := TrimSpace l in
      if negb (String.eqb nextLine "") &&
         (HasPrefix nextLine "--" || HasPrefix nextLine backslash)
      then joinContinuation k rest' (joinCmd +:+ " " +:+ TrimPrefix nextLine backslash)
      else joinCmd
  | _, _ => joinCmd
  end.

Fixpoint joinCommandOf (lines : list string) : string :=
  match lines with
  | [] => ""
  | line :: rest =>
      if Contains line "kubeadm join"
      then TrimSpace (joinContinuation 4 rest (TrimSpace line))
      else joinCommandOf rest
  end.

(** [KubeadmProvisioner.extractJoinCommand] *)
Definition extractJoinCommand (output : string) : string :=
  joinCommandOf (Split output nl).

Fixpoint certificateKeyOf (lines : list string) : outcome string :=
  match lines with
  | [] => Done ""
  | line :: rest =>
      if Contains line "--certificate-key" then
        match Split line "--certificate-key" with
        | _ :: part1 :: _ =>
            let key := TrimSpace part1 in
            match Fields key with
            | k :: _ => Done k
            | [] => Panicked "runtime error: index out of range [0] with length 0"
            end
        | _ => certificateKeyOf rest
        end
      else certificateKeyOf rest
  end.

(** [KubeadmProvisioner.extractCertificateKey]; [strings.Fields(key)[0]]
    panics when [key] has no field. *)
Definition extractCertificateKey (output : string) : outcome string :=
  certificateKeyOf (Split output nl).


(** ** Events, nodes and results of the provisioner *)

(** [ProvisionEvent]; a [time.Time] is a number of clock units. *)
Record ProvisionEvent : Type := mkProvisionEvent {
  evTimestamp : Z;
  evLevel : string;
  evHost : string;
  evStep : string;
  evMessage : string;
  evOutput : string
}.

(** [NodeInfo] *)
Record NodeInfo : Type := mkNodeInfo {
  niHostname : string;
  niAddress : string;
  niRole : string;
  niStatus : string;
  niK8sVersion : string;
  niContainerRuntime : string;
  niJoinedAt : Z
}.

(** [ProvisionResult] *)
Record ProvisionResult : Type := mkProvisionResult {
  resKubeconfig : string;
  resJoinCommand : string;
  resJoinToken : string;
  resCertificateKey : string;
  resNodes : list NodeInfo;
  resEvents : list ProvisionEvent;
  resMetadata : gmap string string
}.

(** A returned [(value, error)] pair of which one side is set. *)
Inductive result (A : Type) : Type :=
| Ok (a : A)
| Err (err : error).
Arguments Ok {A} a.
Arguments Err {A} err.

(** ** What lies outside a task

    The clock, the file system, the SSH library and the remote hosts answer
    the program.  Every answer is indexed by the number of questions asked
    before it, so that any sequence of answers can be written down.

    The other tasks of the program are outside a task too.
    [Hub_receives] is the number of messages that the loop of
    [WebSocketHub.Run] takes from the channel [Hub.broadcast] in all:
    [Some 0] when the loop is never started, [Some n] when it stops after [n]
    messages (it does not get past a failed write), [None] when it goes on
    for ever.  [task_ahead] is the choice of the scheduler between a handler
    and the task it has started with a [go] statement: the number of
    statements on the database that the task has executed when the handler
    next looks at the database. *)
Record World : Type := mkWorld {
  time_Now : nat -> Z;
  os_ReadFile : nat -> string -> result string;
  ssh_ParsePrivateKey : nat -> string -> option error;
  ssh_Dial : nat -> string -> string -> string -> option error;
  ssh_NewSession : nat -> HostSpec -> option error;
  session_Run : nat -> HostSpec -> string -> string * string * option error;
  Hub_receives : option nat;
  task_ahead : nat -> nat
}.

(** The part of the state the provisioner works on: the number of questions
    asked so far, and the events handed to the event callback. *)
Record Env : Type := mkEnv {
  steps : nat;
  sink : list ProvisionEvent
}.

(** [EventCallback] *)
Definition EventCallback : Type := ProvisionEvent -> M Env unit.

Definition recordEvent : EventCallback :=
  fun ev e => (Done tt, mkEnv (steps e) (sink e ++ [ev])).

(** [IProvisioner], the methods the orchestrator calls. *)
Record IProvisioner : Type := mkIProvisioner {
  ValidateSpec : ClusterSpec -> M Env (ClusterSpec * option error);
  PrepareHosts : list HostSpec -> string -> string -> M Env (option error);
  BootstrapControlPlane :
    HostSpec -> ClusterSpec -> M Env (option ProvisionResult * option error);
  InstallCNI : string -> string -> HostSpec -> M Env (option error);
  JoinControlPlane : HostSpec -> string -> string -> M Env (option error);
  JoinWorker : HostSpec -> string -> M Env (option error)
}.

(** [ProvisionerFactory]; the configuration map is not read by any factory. *)
Definition ProvisionerFactory : Type := gmap string string -> result IProvisioner.

(** [GetProvisioner] on a given content of [provisionerRegistry]. *)
Definition GetProvisioner (provisionerRegistry : gmap string ProvisionerFactory)
           (name : string) (config : gmap string string) : result IProvisioner :=
  match provisionerRegistry !! name with
  | None => Err (ErrProvisionerNotFound +:+ ": " +:+ name)
  | Some factory => factory config
  end.

(** [RegisterProvisioner] on a given content of [provisionerRegistry]: the
    content after the call. *)
Definition RegisterProvisioner (provisionerRegistry : gmap string ProvisionerFactory)
           (name : string) (factory : ProvisionerFactory)
  : gmap string ProvisionerFactory :=
  <[name := factory]> provisionerRegistry.

(** [ListProvisioners]; Go ranges over the map in an order of its own, the
    model takes the order of the keys. *)
Definition ListProvisioners (provisionerRegistry : gmap string ProvisionerFactory)
  : list string :=
  fst <$> map_to_list provisionerRegistry.

(** [%d] of [fmt.Sprintf] *)
Definition decimal (z : Z) : string := NilZero.string_of_int (Z.to_int z).

Definition loadModulesScript : string :=
  "
cat <<EOF | tee /etc/modules-load.d/k8s.conf
overlay
br_netfilter
EOF
modprobe overlay
modprobe br_netfilter
".

Definition sysctlScript : string :=
  "
cat <<EOF | tee /etc/sysctl.d/k8s.conf
net.bridge.bridge-nf-call-iptables  = 1
net.bridge.bridge-nf-call-ip6tables = 1
net.ipv4.ip_forward                 = 1
EOF
sysctl --system
".

Definition containerdScript : string :=
  "
# Install dependencies
apt-get update
apt-get install -y apt-transport-https ca-certificates curl gnupg lsb-release

# Add Docker's official GPG key
mkdir -p /etc/apt/keyrings
curl -fsSL https://download.docker.com/linux/ubuntu/gpg | gpg --dearmor -o /etc/apt/keyrings/docker.gpg

# Set up the repository
echo " +:+ dq +:+ "deb [arch=$(dpkg --print-architecture) signed-by=/etc/apt/keyrings/docker.gpg] https://download.docker.com/linux/ubuntu $(lsb_release -cs) stable" +:+ dq +:+ " | tee /etc/apt/sources.list.d/docker.list > /dev/null

# Install containerd
apt-get update
apt-get install -y containerd.io

# Configure containerd
mkdir -p /etc/containerd
containerd config default | tee /etc/containerd/config.toml
sed -i 's/SystemdCgroup = false/SystemdCgroup = true/g' /etc/containerd/config.toml

# Restart containerd
systemctl restart containerd
systemctl enable containerd
".

Definition kubernetesToolsScript (majorMinor : string) : string :=
  "
# Add Kubernetes apt repository
apt-get update
apt-get install -y apt-transport-https ca-certificates curl gpg

mkdir -p /etc/apt/keyrings
curl -fsSL https://pkgs.k8s.io/core:/stable:/v" +:+ majorMinor +:+
  "/deb/Release.key | gpg --dearmor -o /etc/apt/keyrings/kubernetes-apt-keyring.gpg

echo " +:+ dq +:+ "deb [signed-by=/etc/apt/keyrings/kubernetes-apt-keyring.gpg] https://pkgs.k8s.io/core:/stable:/v" +:+ majorMinor +:+
  "/deb/ /" +:+ dq +:+ " | tee /etc/apt/sources.list.d/kubernetes.list

# Install kubelet, kubeadm, kubectl
apt-get update
apt-get install -y kubelet kubeadm kubectl
apt-mark hold kubelet kubeadm kubectl

# Enable kubelet
systemctl enable kubelet
".

Section Kubeadm.

Variable W : World.

(** The answer of the world to the next question. *)
Definition ask {A : Type} (f : World -> nat -> A) : M Env A :=
  fun e => (Done (f W (steps e)), mkEnv (S (steps e)) (sink e)).

(** [time.Now()] *)
Definition Now : M Env Z := ask time_Now.

(** [NewProvisionEvent] *)
Definition NewProvisionEvent (level host step message : string) : M Env ProvisionEvent :=
  let* t := Now in
  ret (mkProvisionEvent t level host step message "").

(** [ProvisionResult.AddEvent] *)
Definition AddEvent (pr : ProvisionResult) (level host step message : string)
  : M Env ProvisionResult :=
  let* ev := NewProvisionEvent level host step message in
  ret (mkProvisionResult (resKubeconfig pr) (resJoinCommand pr) (resJoinToken pr)
         (resCertificateKey pr) (resNodes pr) (resEvents pr ++ [ev]) (resMetadata pr)).

(** *** The SSH client of [ssh_client.go] *)

Record SSHClient : Type := mkSSHClient { clientHost : HostSpec }.

(** [NewSSHClient] *)
Definition NewSSHClient (host : HostSpec) : M Env (result SSHClient) :=
  let* key :=
    if negb (String.eqb (SSHKey host) "") then ret (Ok (SSHKey host))
    else if negb (String.eqb (SSHKeyPath host) "") then
      let* r := ask (fun w n => os_ReadFile w n (SSHKeyPath host)) in
      match r with
      | Ok content => ret (Ok content)
      | Err err =>
          ret (Err ("failed to read SSH key from " +:+ SSHKeyPath host +:+ ": " +:+ err))
      end
    else ret (Err ("no SSH key provided for host " +:+ Address host)) in
  match key with
  | Err err => ret (Err err)
  | Ok key =>
      let* perr := ask (fun w n => ssh_ParsePrivateKey w n key) in
      match perr with
      | Some err => ret (Err ("failed to parse SSH key: " +:+ err))
      | None =>
          let addr := Address host +:+ ":" +:+ decimal (Port host) in
          let* derr := ask (fun w n => ssh_Dial w n addr (User host) key) in
          match derr with
          | Some err => ret (Err ("failed to connect to " +:+ addr +:+ ": " +:+ err))
          | None => ret (Ok (mkSSHClient host))
          end
      end
  end.

(** [SSHClient.RunCommand]; the context of every caller is
    [context.Background()], which is never cancelled. *)
Definition RunCommand (c : SSHClient) (command : string)
  : M Env (string * string * option error) :=
  let* serr := ask (fun w n => ssh_NewSession w n (clientHost c)) in
  match serr with
  | Some err => ret ("", "", Some ("failed to create session: " +:+ err))
  | None => ask (fun w n => session_Run w n (clientHost c) command)
  end.

(** [SSHClient.TestConnection] *)
Definition TestConnection (c : SSHClient) : M Env (option error) :=
  let* (_, _, err) := RunCommand c "echo 'test'" in
  ret err.

(** [SSHClient.GetHostInfo] *)
Definition GetHostInfo (c : SSHClient) : M Env (gmap string string) :=
  let info : gmap string string := ∅ in
  let* (stdout, _, err) := RunCommand c "hostname" in
  let info := if err is None then <["hostname" := stdout]> info else info in
  let* (stdout, _, err) :=
    RunCommand c ("cat /etc/os-release | grep PRETTY_NAME | cut -d'=' -f2 | tr -d '"
                  +:+ dq +:+ "'") in
  let info := if err is None then <["os" := stdout]> info else info in
  let* (stdout, _, err) := RunCommand c "uname -r" in
  let info := if err is None then <["kernel" := stdout]> info else info in
  let* (stdout, _, err) := RunCommand c "swapon --show" in
  let info :=
    if err is None then
      if negb (String.eqb stdout "") then <["swap_enabled" := "true"]> info
      else <["swap_enabled" := "false"]> info
    else <["swap_enabled" := "false"]> info in
  ret info.

(** *** [KubeadmProvisioner] *)

Record KubeadmProvisioner : Type := mkKubeadmProvisioner {
  eventCallback : option EventCallback
}.

(** [KubeadmProvisioner.emitEvent] *)
Definition emitEvent (p : KubeadmProvisioner) (level host step message : string)
  : M Env unit :=
  match eventCallback p with
  | Some callback =>
      let* ev := NewProvisionEvent level host step message in
      callback ev
  | None => ret tt
  end.

(** [if err := m; err != nil { return wrap(err) }] followed by [k] *)
Definition orReturn (m : M Env (option error)) (wrap : error -> error)
           (k : M Env (option error)) : M Env (option error) :=
  let* r := m in
  match r with
  | Some err => ret (Some (wrap err))
  | None => k
  end.

(** [KubeadmProvisioner.installContainerd] *)
Definition installContainerd (p : KubeadmProvisioner) (client : SSHClient)
           (host : HostSpec) : M Env (option error) :=
  let* (_, stderr, err) := RunCommand client containerdScript in
  match err with
  | Some err =>
      ret (Some ("containerd installation failed: " +:+ stderr +:+ ": " +:+ err))
  | None =>
      emitEvent p "info" (Address host) "install-runtime"
                "Containerd installed successfully" ;;
      ret None
  end.

(** [KubeadmProvisioner.installCRIO] *)
Definition installCRIO (p : KubeadmProvisioner) (client : SSHClient)
           (host : HostSpec) : M Env (option error) :=
  ret (Some "CRI-O installation not yet implemented").

(** [KubeadmProvisioner.installContainerRuntime] *)
Definition installContainerRuntime (p : KubeadmProvisioner) (client : SSHClient)
           (host : HostSpec) (runtime : string) : M Env (option error) :=
  emitEvent p "info" (Address host) "install-runtime" ("Installing " +:+ runtime) ;;
  if String.eqb runtime "containerd" then installContainerd p client host
  else if String.eqb runtime "cri-o" then installCRIO p client host
  else ret (Some ("unsupported runtime: " +:+ runtime)).

(** [KubeadmProvisioner.installKubernetesTools] *)
Definition installKubernetesTools (p : KubeadmProvisioner) (client : SSHClient)
           (host : HostSpec) (k8sVersion : string) : M Env (option error) :=
  emitEvent p "info" (Address host) "install-k8s"
            ("Installing Kubernetes " +:+ k8sVersion +:+ " tools") ;;
  match Split k8sVersion "." with
  | major :: minor :: _ =>
      let majorMinor := major +:+ "." +:+ minor in
      let* (_, stderr, err) := RunCommand client (kubernetesToolsScript majorMinor) in
      match err with
      | Some err =>
          ret (Some ("kubernetes tools installation failed: " +:+ stderr +:+ ": " +:+ err))
      | None =>
          emitEvent p "info" (Address host) "install-k8s"
                    "Kubernetes tools installed successfully" ;;
          ret None
      end
  | _ => ret (Some ("invalid k8s version format: " +:+ k8sVersion))
  end.

(** [KubeadmProvisioner.prepareHost] *)
Definition prepareHost (p : KubeadmProvisioner) (host : HostSpec)
           (runtime k8sVersion : string) : M Env (option error) :=
  let* c := NewSSHClient host in
  match c with
  | Err err => ret (Some ("failed to connect: " +:+ err))
  | Ok client =>
      emitEvent p "info" (Address host) "prepare" "Connected to host" ;;
      orReturn (TestConnection client) (fun err => "connection test failed: " +:+ err) (
      let* info := GetHostInfo client in
      orReturn
        (if String.eqb (default "" (info !! "swap_enabled")) "true" then
           emitEvent p "info" (Address host) "prepare" "Disabling swap" ;;
           let* (_, _, err) :=
             RunCommand client "swapoff -a && sed -i '/ swap / s/^/#/' /etc/fstab" in
           ret err
         else ret None)
        (fun err => "failed to disable swap: " +:+ err) (
      emitEvent p "info" (Address host) "prepare" "Loading kernel modules" ;;
      orReturn
        (let* (_, _, err) := RunCommand client loadModulesScript in ret err)
        (fun err => "failed to load kernel modules: " +:+ err) (
      emitEvent p "info" (Address host) "prepare" "Configuring sysctl parameters" ;;
      orReturn
        (let* (_, _, err) := RunCommand client sysctlScript in ret err)
        (fun err => "failed to configure sysctl: " +:+ err) (
      orReturn (installContainerRuntime p client host runtime)
               (fun err => "failed to install container runtime: " +:+ err) (
      orReturn (installKubernetesTools p client host k8sVersion)
               (fun err => "failed to install kubernetes tools: " +:+ err) (
      emitEvent p "info" (Address host) "prepare" "Host prepared successfully" ;;
      ret None))))))
  end.

(** [KubeadmProvisioner.PrepareHosts] *)
Fixpoint Kubeadm_PrepareHosts (p : KubeadmProvisioner) (hosts : list HostSpec)
         (runtime k8sVersion : string) : M Env (option error) :=
  match hosts with
  | [] => ret None
  | host :: rest =>
      orReturn (prepareHost p host runtime k8sVersion)
               (fun err => "failed to prepare host " +:+ Address host +:+ ": " +:+ err)
               (Kubeadm_PrepareHosts p rest runtime k8sVersion)
  end.

Definition emptyResult : ProvisionResult :=
  mkProvisionResult "" "" "" "" [] [] ∅.

Definition withJoinArtifacts (joinCommand certificateKey : string)
           (pr : ProvisionResult) : ProvisionResult :=
  mkProvisionResult (resKubeconfig pr) joinCommand (resJoinToken pr)
                    certificateKey (resNodes pr) (resEvents pr) (resMetadata pr).

Definition withKubeconfig (kubeconfig : string) (pr : ProvisionResult) : ProvisionResult :=
  mkProvisionResult kubeconfig (resJoinCommand pr) (resJoinToken pr)
                    (resCertificateKey pr) (resNodes pr) (resEvents pr) (resMetadata pr).

Definition appendNode (node : NodeInfo) (pr : ProvisionResult) : ProvisionResult :=
  mkProvisionResult (resKubeconfig pr) (resJoinCommand pr) (resJoinToken pr)
                    (resCertificateKey pr) (resNodes pr ++ [node]) (resEvents pr)
                    (resMetadata pr).

(** A pure call that may panic, run inside [M]. *)
Definition liftOutcome {S A : Type} (o : outcome A) : M S A :=
  match o with
  | Done a => ret a
  | Panicked msg => panic msg
  | Blocked => block
  end.

(** The [kubeadm init] command line of [BootstrapControlPlane]. *)
Definition initCommand (spec : ClusterSpec) : string :=
  let initCmd := "kubeadm init --pod-network-cidr=" +:+ PodNetworkCIDR spec +:+
                 " --kubernetes-version=" +:+ K8sVersion spec in
  let initCmd :=
    if negb (String.eqb (APIServerEndpoint spec) "")
    then initCmd +:+ " --control-plane-endpoint=" +:+ APIServerEndpoint spec
    else initCmd in
  initCmd +:+ " --upload-certs".

(** [KubeadmProvisioner.BootstrapControlPlane] *)
Definition Kubeadm_BootstrapControlPlane (p : KubeadmProvisioner) (host : HostSpec)
           (spec : ClusterSpec) : M Env (option ProvisionResult * option error) :=
  let* c := NewSSHClient host in
  match c with
  | Err err => ret (None, Some ("failed to connect: " +:+ err))
  | Ok client =>
      emitEvent p "info" (Address host) "bootstrap" "Initializing control plane" ;;
      let result := emptyResult in
      let initCmd := initCommand spec in
      emitEvent p "info" (Address host) "bootstrap"
                "Running kubeadm init (this may take a few minutes)" ;;
      let* (stdout, stderr, err) := RunCommand client initCmd in
      match err with
      | Some err =>
          let* result := AddEvent result "error" (Address host) "bootstrap"
                                  ("kubeadm init failed: " +:+ stderr) in
          ret (Some result, Some ("kubeadm init failed: " +:+ err))
      | None =>
          let* result := AddEvent result "info" (Address host) "bootstrap"
                                  "kubeadm init completed" in
          let joinCommand := extractJoinCommand stdout in
          let* certificateKey := liftOutcome (extractCertificateKey stdout) in
          let result := withJoinArtifacts joinCommand certificateKey result in
          emitEvent p "info" (Address host) "bootstrap" "Retrieving kubeconfig" ;;
          let* (_, _, err) :=
            RunCommand client
              "mkdir -p $HOME/.kube && cp -i /etc/kubernetes/admin.conf $HOME/.kube/config && chown $(id -u):$(id -g) $HOME/.kube/config" in
          match err with
          | Some err => ret (Some result, Some ("failed to setup kubeconfig: " +:+ err))
          | None =>
              let* (kubeconfigContent, _, err) :=
                RunCommand client "cat /etc/kubernetes/admin.conf" in
              match err with
              | Some err =>
                  ret (Some result, Some ("failed to retrieve kubeconfig: " +:+ err))
              | None =>
                  let result := withKubeconfig kubeconfigContent result in
                  emitEvent p "info" (Address host) "bootstrap"
                            "Control plane bootstrapped successfully" ;;
                  let* joinedAt := Now in
                  let result :=
                    appendNode (mkNodeInfo (Hostname host) (Address host) "control-plane"
                                           "ready" (K8sVersion spec) "" joinedAt)
                               result in
                  ret (Some result, None)
              end
          end
      end
  end.

(** The manifest chosen by the [switch cni] of [InstallCNI]. *)
Definition cniManifestOf (cni : string) : result string :=
  if String.eqb cni "calico" then
    Ok "https://raw.githubusercontent.com/projectcalico/calico/v3.26.1/manifests/calico.yaml"
  else if String.eqb cni "flannel" then
    Ok "https://github.com/flannel-io/flannel/releases/latest/download/kube-flannel.yml"
  else if String.eqb cni "weave" then
    Ok "https://github.com/weaveworks/weave/releases/download/v2.8.1/weave-daemonset-k8s.yaml"
  else if String.eqb cni "cilium" then
    Err "cilium installation requires Helm or CLI, not yet implemented"
  else Err ("unsupported CNI: " +:+ cni).

Definition waitCmd : string :=
  "kubectl wait --for=condition=Ready pods --all -n kube-system --timeout=300s".

(** [KubeadmProvisioner.InstallCNI] *)
Definition Kubeadm_InstallCNI (p : KubeadmProvisioner) (kubeconfig cni : string)
           (controlPlane : HostSpec) : M Env (option error) :=
  emitEvent p "info" (Address controlPlane) "install-cni"
            ("Installing " +:+ cni +:+ " CNI") ;;
  match cniManifestOf cni with
  | Err err => ret (Some err)
  | Ok cniManifest =>
      let* c := NewSSHClient controlPlane in
      match c with
      | Err err => ret (Some ("failed to connect to control plane: " +:+ err))
      | Ok client =>
          let applyCmd := "kubectl apply -f " +:+ cniManifest in
          let* (stdout, stderr, err) := RunCommand client applyCmd in
          match err with
          | Some err =>
              emitEvent p "error" (Address controlPlane) "install-cni"
                        ("Failed to apply CNI: " +:+ stderr) ;;
              ret (Some ("failed to apply CNI manifest: " +:+ stderr +:+ ": " +:+ err))
          | None =>
              emitEvent p "info" (Address controlPlane) "install-cni"
                        ("CNI applied successfully: " +:+ stdout) ;;
              let* (_, _, err) := RunCommand client waitCmd in
              (if err is Some _ then
                 emitEvent p "warn" (Address controlPlane) "install-cni"
                           "CNI pods may not be fully ready yet"
               else
                 emitEvent p "info" (Address controlPlane) "install-cni"
                           "CNI pods are ready") ;;
              ret None
          end
      end
  end.

(** [KubeadmProvisioner.JoinControlPlane] *)
Definition Kubeadm_JoinControlPlane (p : KubeadmProvisioner) (host : HostSpec)
           (joinCommand certificateKey : string) : M Env (option error) :=
  let* c := NewSSHClient host in
  match c with
  | Err err => ret (Some ("failed to connect: " +:+ err))
  | Ok client =>
      emitEvent p "info" (Address host) "join-cp" "Joining control plane" ;;
      let fullJoinCmd :=
        joinCommand +:+ " --control-plane --certificate-key " +:+ certificateKey in
      let* (_, stderr, err) := RunCommand client fullJoinCmd in
      match err with
      | Some err =>
          ret (Some ("failed to join control plane: " +:+ stderr +:+ ": " +:+ err))
      | None =>
          emitEvent p "info" (Address host) "join-cp"
                    "Control plane joined successfully" ;;
          ret None
      end
  end.

(** [KubeadmProvisioner.JoinWorker] *)
Definition Kubeadm_JoinWorker (p : KubeadmProvisioner) (host : HostSpec)
           (joinCommand : string) : M Env (option error) :=
  let* c := NewSSHClient host in
  match c with
  | Err err => ret (Some ("failed to connect: " +:+ err))
  | Ok client =>
      emitEvent p "info" (Address host) "join-worker" "Joining worker node" ;;
      let* (_, stderr, err) := RunCommand client joinCommand in
      match err with
      | Some err => ret (Some ("failed to join worker: " +:+ stderr +:+ ": " +:+ err))
      | None =>
          emitEvent p "info" (Address host) "join-worker"
                    "Worker node joined successfully" ;;
          ret None
      end
  end.

(** [KubeadmProvisioner.ValidateSpec] *)
Definition Kubeadm_ValidateSpec (p : KubeadmProvisioner) (spec : ClusterSpec)
  : M Env (ClusterSpec * option error) :=
  ret (ClusterSpec_Validate spec).

(** [KubeadmProvisioner] implements [IProvisioner]. *)
Definition Kubeadm (p : KubeadmProvisioner) : IProvisioner :=
  mkIProvisioner (Kubeadm_ValidateSpec p) (Kubeadm_PrepareHosts p)
                 (Kubeadm_BootstrapControlPlane p) (Kubeadm_InstallCNI p)
                 (Kubeadm_JoinControlPlane p) (Kubeadm_JoinWorker p).

(** [KubeadmProvisioner.resetNode]; the result of the clean-up command is
    dropped ([_, _, _ = client.RunCommand(...)]). *)
Definition resetNode (p : KubeadmProvisioner) (host : HostSpec) : M Env (option error) :=
  let* c := NewSSHClient host in
  match c with
  | Err err => ret (Some err)
  | Ok client =>
      emitEvent p "info" (Address host) "reset" "Running kubeadm reset" ;;
      let* (_, _, err) := RunCommand client "kubeadm reset -f" in
      match err with
      | Some err => ret (Some err)
      | None =>
          let* _ := RunCommand client
                      "rm -rf /etc/cni/net.d && rm -rf $HOME/.kube/config" in
          ret None
      end
  end.

(** The loop of [DestroyCluster] over the control planes, then the workers. *)
Fixpoint resetNodes (p : KubeadmProvisioner) (hosts : list HostSpec) : M Env unit :=
  match hosts with
  | [] => ret tt
  | host :: rest =>
      let* err := resetNode p host in
      (if err is Some err
       then emitEvent p "warn" (Address host) "destroy"
                      ("Failed to reset node: " +:+ err)
       else ret tt) ;;
      resetNodes p rest
  end.

(** [KubeadmProvisioner.DestroyCluster] *)
Definition Kubeadm_DestroyCluster (p : KubeadmProvisioner) (spec : ClusterSpec)
  : M Env (option error) :=
  resetNodes p (ControlPlanes spec ++ Workers spec) ;;
  ret None.

(** [KubeadmProvisioner.RemoveNode]; the kubeconfig is not read. *)
Definition Kubeadm_RemoveNode (p : KubeadmProvisioner) (host : HostSpec)
           (kubeconfig : string) : M Env (option error) :=
  resetNode p host.

(** [NewKubeadmProvisioner]: the event callback is left unset. *)
Definition NewKubeadmProvisioner (config : gmap string string) : result IProvisioner :=
  Ok (Kubeadm (mkKubeadmProvisioner None)).

(** [provisionerRegistry] once the [init] function of [kubeadm.go] has run. *)
Definition provisionerRegistry : gmap string ProvisionerFactory :=
  <["kubeadm" := NewKubeadmProvisioner]> ∅.

End Kubeadm.

End provision.

(** ** Package [db]: the persisted records *)

Module db.

(** [Event] *)
Record Event : Type := mkEvent {
  Event_ID : N;
  Event_ClusterID : N;
  Event_Timestamp : Z;
  Event_Level : string;
  Event_Host : string;
  Event_Step : string;
  Event_Message : string;
  Event_Output : string;
  Event_CreatedAt : Z
}.

(** [Node] *)
Record Node : Type := mkNode {
  Node_ID : N;
  Node_ClusterID : N;
  Node_Hostname : string;
  Node_Address : string;
  Node_User : string;
  Node_SSHKeyPath : string;
  Node_Port : Z;
  Node_Role : string;
  Node_Status : string;
  Node_K8sVersion : string;
  Node_ContainerRuntime : string;
  Node_Labels : string;
  Node_Taints : string;
  Node_JoinedAt : option Z;
  Node_CreatedAt : Z;
  Node_UpdatedAt : Z;
  Node_DeletedAt : option Z
}.

(** [Cluster]; [Kubeconfig] is [None] for a nil byte slice. *)
Record Cluster : Type := mkCluster {
  Cluster_ID : N;
  Cluster_Name : string;
  Cluster_K8sVersion : string;
  Cluster_PodNetworkCIDR : string;
  Cluster_ServiceCIDR : string;
  Cluster_CNI : string;
  Cluster_ContainerRuntime : string;
  Cluster_APIServerEndpoint : string;
  Cluster_LoadBalancerIP : string;
  Cluster_Provider : string;
  Cluster_Status : string;
  Cluster_Kubeconfig : option string;
  Cluster_JoinCommand : string;
  Cluster_CertificateKey : string;
  Cluster_CreatedAt : Z;
  Cluster_UpdatedAt : Z;
  Cluster_DeletedAt : option Z;
  Cluster_Nodes : list Node;
  Cluster_Events : list Event
}.

(** [Job] *)
Record Job : Type := mkJob {
  Job_ID : N;
  Job_ClusterID : N;
  Job_Type : string;
  Job_Status : string;
  Job_Progress : Z;
  Job_Error : string;
  Job_Metadata : string;
  Job_StartedAt : option Z;
  Job_FinishedAt : option Z;
  Job_CreatedAt : Z;
  Job_UpdatedAt : Z
}.

Definition withStatus (status : string) (updatedAt : Z) (c : Cluster) : Cluster :=
  mkCluster (Cluster_ID c) (Cluster_Name c) (Cluster_K8sVersion c)
            (Cluster_PodNetworkCIDR c) (Cluster_ServiceCIDR c) (Cluster_CNI c)
            (Cluster_ContainerRuntime c) (Cluster_APIServerEndpoint c)
            (Cluster_LoadBalancerIP c) (Cluster_Provider c) status
            (Cluster_Kubeconfig c) (Cluster_JoinCommand c) (Cluster_CertificateKey c)
            (Cluster_CreatedAt c) updatedAt (Cluster_DeletedAt c)
            (Cluster_Nodes c) (Cluster_Events c).

Definition withSecrets (kubeconfig : option string) (joinCommand certificateKey : string)
           (c : Cluster) : Cluster :=
  mkCluster (Cluster_ID c) (Cluster_Name c) (Cluster_K8sVersion c)
            (Cluster_PodNetworkCIDR c) (Cluster_ServiceCIDR c) (Cluster_CNI c)
            (Cluster_ContainerRuntime c) (Cluster_APIServerEndpoint c)
            (Cluster_LoadBalancerIP c) (Cluster_Provider c) (Cluster_Status c)
            kubeconfig joinCommand certificateKey
            (Cluster_CreatedAt c) (Cluster_UpdatedAt c) (Cluster_DeletedAt c)
            (Cluster_Nodes c) (Cluster_Events c).

Definition withUpdatedAt (updatedAt : Z) (c : Cluster) : Cluster :=
  withStatus (Cluster_Status c) updatedAt c.

Definition withID (id : N) (c : Cluster) : Cluster :=
  mkCluster id (Cluster_Name c) (Cluster_K8sVersion c)
            (Cluster_PodNetworkCIDR c) (Cluster_ServiceCIDR c) (Cluster_CNI c)
            (Cluster_ContainerRuntime c) (Cluster_APIServerEndpoint c)
            (Cluster_LoadBalancerIP c) (Cluster_Provider c) (Cluster_Status c)
            (Cluster_Kubeconfig c) (Cluster_JoinCommand c) (Cluster_CertificateKey c)
            (Cluster_CreatedAt c) (Cluster_UpdatedAt c) (Cluster_DeletedAt c)
            (Cluster_Nodes c) (Cluster_Events c).

Definition withNodes (nodes : list Node) (c : Cluster) : Cluster :=
  mkCluster (Cluster_ID c) (Cluster_Name c) (Cluster_K8sVersion c)
            (Cluster_PodNetworkCIDR c) (Cluster_ServiceCIDR c) (Cluster_CNI c)
            (Cluster_ContainerRuntime c) (Cluster_APIServerEndpoint c)
            (Cluster_LoadBalancerIP c) (Cluster_Provider c) (Cluster_Status c)
            (Cluster_Kubeconfig c) (Cluster_JoinCommand c) (Cluster_CertificateKey c)
            (Cluster_CreatedAt c) (Cluster_UpdatedAt c) (Cluster_DeletedAt c)
            nodes (Cluster_Events c).

Definition withEvents (events : list Event) (c : Cluster) : Cluster :=
  mkCluster (Cluster_ID c) (Cluster_Name c) (Cluster_K8sVersion c)
            (Cluster_PodNetworkCIDR c) (Cluster_ServiceCIDR c) (Cluster_CNI c)
            (Cluster_ContainerRuntime c) (Cluster_APIServerEndpoint c)
            (Cluster_LoadBalancerIP c) (Cluster_Provider c) (Cluster_Status c)
            (Cluster_Kubeconfig c) (Cluster_JoinCommand c) (Cluster_CertificateKey c)
            (Cluster_CreatedAt c) (Cluster_UpdatedAt c) (Cluster_DeletedAt c)
            (Cluster_Nodes c) events.

Definition withDeletedAt (deletedAt : option Z) (c : Cluster) : Cluster :=
  mkCluster (Cluster_ID c) (Cluster_Name c) (Cluster_K8sVersion c)
            (Cluster_PodNetworkCIDR c) (Cluster_ServiceCIDR c) (Cluster_CNI c)
            (Cluster_ContainerRuntime c) (Cluster_APIServerEndpoint c)
            (Cluster_LoadBalancerIP c) (Cluster_Provider c) (Cluster_Status c)
            (Cluster_Kubeconfig c) (Cluster_JoinCommand c) (Cluster_CertificateKey c)
            (Cluster_CreatedAt c) (Cluster_UpdatedAt c) deletedAt
            (Cluster_Nodes c) (Cluster_Events c).

(** The tables behind [db.DB].  Cluster rows are kept by primary key; the
    other tables are kept in insertion order, which is the order of their
    primary keys.  The store is reliable: a statement fails only on the
    unique index of [clusters.name]. *)
Record Store : Type := mkStore {
  clusters : gmap N Cluster;
  nodes : list Node;
  events : list Event;
  jobs : list Job
}.

Definition emptyStore : Store := mkStore ∅ [] [] [].

(** The primary key given to the next row of a table of [n] rows; no row
    is ever removed (clusters and nodes are only marked deleted). *)
Definition nextID (n : nat) : N := N.of_nat n + 1.

End db.

(** ** Package [api]: responses, cluster handlers, orchestration, event stream *)

Module api.

Import provision db.

(** *** [encoding/json] on the structures of the program *)

#[local] Set Warnings "-register-all".
Inductive json : Type :=
| JNull
| JBool (b : bool)
| JNumber (z : Z)
| JString (s : string)
| JTime (t : Z)
| JBase64 (data : string)
| JArray (items : list json)
| JObject (members : list (string * json)).

(** A struct field as the encoder sees it: the text of its [json] tag, its
    encoded value, and whether the value is empty for [omitempty]. *)
Record field : Type := mkField {
  tag : string;
  value : json;
  isEmptyValue : bool
}.

Definition fString (tag s : string) : field := mkField tag (JString s) (String.eqb s "").
Definition fUint (tag : string) (n : N) : field := mkField tag (JNumber (Z.of_N n)) (N.eqb n 0).
Definition fInt (tag : string) (z : Z) : field := mkField tag (JNumber z) (Z.eqb z 0).
Definition fBool (tag : string) (b : bool) : field := mkField tag (JBool b) (negb b).
Definition fTime (tag : string) (t : Z) : field := mkField tag (JTime t) false.
Definition fTimePtr (tag : string) (t : option Z) : field :=
  match t with
  | Some t => mkField tag (JTime t) false
  | None => mkField tag JNull true
  end.
Definition fBytes (tag : string) (b : option string) : field :=
  match b with
  | Some b => mkField tag (JBase64 b) (String.eqb b "")
  | None => mkField tag JNull true
  end.
Definition fSlice (tag : string) (items : list json) : field :=
  mkField tag (JArray items) (Nat.eqb (length items) 0).
Definition fInterface (tag : string) (v : option json) : field :=
  match v with
  | Some v => mkField tag v false
  | None => mkField tag JNull true
  end.

(** The name and the options of a tag: the text before and after the first comma. *)
Definition tagName (tag : string) : string := hd "" (Split tag ",").
Definition tagOmitEmpty (tag : string) : bool :=
  existsb (String.eqb "omitempty") (tl (Split tag ",")).

(** Encoding of a struct: a field tagged ["-"] is skipped, a field tagged
    [omitempty] is skipped when empty. *)
Definition encodeField (f : field) : list (string * json) :=
  if String.eqb (tag f) "-" then []
  else if tagOmitEmpty (tag f) && isEmptyValue f then []
  else [(tagName (tag f), value f)].

Definition marshalStruct (fields : list field) : json :=
  JObject (flat_map encodeField fields).

Definition Event_fields (e : Event) : list field :=
  [ fUint "id" (Event_ID e);
    fUint "cluster_id" (Event_ClusterID e);
    fTime "timestamp" (Event_Timestamp e);
    fString "level" (Event_Level e);
    fString "host" (Event_Host e);
    fString "step" (Event_Step e);
    fString "message" (Event_Message e);
    fString "output,omitempty" (Event_Output e);
    fTime "created_at" (Event_CreatedAt e) ].

Definition marshalEvent (e : Event) : json := marshalStruct (Event_fields e).

Definition Node_fields (n : Node) : list field :=
  [ fUint "id" (Node_ID n);
    fUint "cluster_id" (Node_ClusterID n);
    fString "hostname" (Node_Hostname n);
    fString "address" (Node_Address n);
    fString "user" (Node_User n);
    fString "ssh_key_path,omitempty" (Node_SSHKeyPath n);
    fInt "port" (Node_Port n);
    fString "role" (Node_Role n);
    fString "status" (Node_Status n);
    fString "k8s_version" (Node_K8sVersion n);
    fString "container_runtime" (Node_ContainerRuntime n);
    fString "labels,omitempty" (Node_Labels n);
    fString "taints,omitempty" (Node_Taints n);
    fTimePtr "joined_at,omitempty" (Node_JoinedAt n);
    fTime "created_at" (Node_CreatedAt n);
    fTime "updated_at" (Node_UpdatedAt n);
    fTimePtr "-" (Node_DeletedAt n) ].

Definition marshalNode (n : Node) : json := marshalStruct (Node_fields n).

(** The fields of [db.Cluster] with their tags, in declaration order. *)
Definition Cluster_fields (c : Cluster) : list field :=
  [ fUint "id" (Cluster_ID c);
    fString "name" (Cluster_Name c);
    fString "k8s_version" (Cluster_K8sVersion c);
    fString "pod_network_cidr" (Cluster_PodNetworkCIDR c);
    fString "service_cidr" (Cluster_ServiceCIDR c);
    fString "cni" (Cluster_CNI c);
    fString "container_runtime" (Cluster_ContainerRuntime c);
    fString "api_server_endpoint" (Cluster_APIServerEndpoint c);
    fString "load_balancer_ip,omitempty" (Cluster_LoadBalancerIP c);
    fString "provider" (Cluster_Provider c);
    fString "status" (Cluster_Status c);
    fBytes "-" (Cluster_Kubeconfig c);
    fString "-" (Cluster_JoinCommand c);
    fString "-" (Cluster_CertificateKey c);
    fTime "created_at" (Cluster_CreatedAt c);
    fTime "updated_at" (Cluster_UpdatedAt c);
    fTimePtr "-" (Cluster_DeletedAt c);
    fSlice "nodes,omitempty" (map marshalNode (Cluster_Nodes c));
    fSlice "events,omitempty" (map marshalEvent (Cluster_Events c)) ].

Definition marshalCluster (c : Cluster) : json := marshalStruct (Cluster_fields c).

(** *** The response helpers *)

(** [ErrorInfo] *)
Record ErrorInfo : Type := mkErrorInfo {
  Code : string;
  Message : string
}.

(** [Response]; [Data] holds the encoding of the value behind the interface. *)
Record Response : Type := mkResponse {
  Success : bool;
  Data : option json;
  Error : option ErrorInfo
}.

Definition marshalErrorInfo (e : ErrorInfo) : json :=
  marshalStruct [ fString "code" (Code e); fString "message" (Message e) ].

Definition marshalResponse (r : Response) : json :=
  marshalStruct
    [ fBool "success" (Success r);
      fInterface "data,omitempty" (Data r);
      fInterface "error,omitempty" (marshalErrorInfo <$> Error r) ].

(** What a handler has written to its [http.ResponseWriter]. *)
Record HTTPResponse : Type := mkHTTPResponse {
  statusCode : Z;
  contentType : string;
  body : json
}.

(** [WriteJSON] *)
Definition WriteJSON (statusCode : Z) (data : json) : HTTPResponse :=
  mkHTTPResponse statusCode "application/json" data.

(** [WriteSuccess] *)
Definition WriteSuccess (data : json) : HTTPResponse :=
  WriteJSON 200 (marshalResponse (mkResponse true (Some data) None)).

(** [WriteCreated] *)
Definition WriteCreated (data : json) : HTTPResponse :=
  WriteJSON 201 (marshalResponse (mkResponse true (Some data) None)).

(** [WriteError] *)
Definition WriteError (statusCode : Z) (code message : string) : HTTPResponse :=
  WriteJSON statusCode
            (marshalResponse (mkResponse false None (Some (mkErrorInfo code message)))).

Definition WriteBadRequest (message : string) : HTTPResponse :=
  WriteError 400 "BAD_REQUEST" message.
Definition WriteNotFound (message : string) : HTTPResponse :=
  WriteError 404 "NOT_FOUND" message.
Definition WriteInternalError (message : string) : HTTPResponse :=
  WriteError 500 "INTERNAL_ERROR" message.

(** What a handler has written: a document through [WriteJSON], or bytes
    under headers of its own, where the status is the default 200. *)
Inductive Written : Type :=
| WroteJSON (response : HTTPResponse)
| WroteBytes (contentType contentDisposition content : string).

(** The encoding of [map[string]string{"message": message}]. *)
Definition marshalMessage (message : string) : json :=
  JObject [("message", JString message)].

(** *** The state the handlers work on *)

(** [BroadcastMessage] *)
Record BroadcastMessage : Type := mkBroadcastMessage {
  clusterID : N;
  data : Event
}.

(** The database, the messages handed to [Hub.broadcast] (oldest first: those
    that the channel took and those of the sends that stay blocked), the
    trace of the values written to column [status] of table [clusters]
    (oldest first, with the id of the [WHERE] clause), the outside world, and
    the database as each statement that wrote to it has left it (oldest
    first). *)
Record State : Type := mkState {
  store : Store;
  hub : list BroadcastMessage;
  statusWrites : list (N * string);
  env : Env;
  history : list Store
}.

(** [CreateClusterRequest] *)
Record CreateClusterRequest : Type := mkCreateClusterRequest {
  Req_Name : string;
  Req_K8sVersion : string;
  Req_PodNetworkCIDR : string;
  Req_ServiceCIDR : string;
  Req_CNI : string;
  Req_ContainerRuntime : string;
  Req_APIServerEndpoint : string;
  Req_ControlPlanes : list HostSpec;
  Req_Workers : list HostSpec
}.

(** The [provision.ClusterSpec] that [provisionCluster] builds from the request. *)
Definition specOfRequest (req : CreateClusterRequest) : ClusterSpec :=
  mkClusterSpec (Req_Name req) (Req_ControlPlanes req) (Req_Workers req)
                (Req_K8sVersion req) (Req_PodNetworkCIDR req) (Req_ServiceCIDR req)
                (Req_CNI req) (Req_ContainerRuntime req) (Req_APIServerEndpoint req)
                "" "".

(** [strconv.ParseUint(s, 10, 32)]: a non-empty string of decimal digits
    whose value fits 32 bits.  [None] is a returned error; the handlers only
    test its presence. *)
Definition ParseUint32 (s : string) : option N :=
  match NilZero.uint_of_string s with
  | Some d => let n := N.of_uint d in if (n <=? 4294967295)%N then Some n else None
  | None => None
  end.

Section Handlers.

Variable W : World.

(** The content of [provision.provisionerRegistry] when the handlers run. *)
Variable registry : gmap string ProvisionerFactory.

(** A call of the provisioner, or of the clock, from a handler. *)
Definition liftEnv {A : Type} (m : M Env A) : M State A :=
  fun st =>
    let '(r, e) := m (env st) in
    (r, mkState (store st) (hub st) (statusWrites st) e (history st)).

Definition getStore : M State Store := fun st => (Done (store st), st).

Definition putStore (s : Store) : M State unit :=
  fun st => (Done tt, mkState s (hub st) (statusWrites st) (env st) (history st ++ [s])).

Definition now : M State Z := liftEnv (Now W).

(** [db.DB.Create(&cluster)]: the row gets the next primary key; the unique
    index on [name] rejects a second row of the same name. *)
Definition CreateClusterRow (c : Cluster) : M State (result Cluster) :=
  let* s := getStore in
  if existsb (fun kv => String.eqb (Cluster_Name (snd kv)) (Cluster_Name c))
             (map_to_list (clusters s))
  then ret (Err "UNIQUE constraint failed: clusters.name")
  else
    let c := withID (nextID (size (clusters s))) c in
    putStore (mkStore (<[Cluster_ID c := c]> (clusters s)) (nodes s) (events s) (jobs s)) ;;
    ret (Ok c).

(** [db.DB.Create(&node)] *)
Definition CreateNodeRow (n : Node) : M State unit :=
  let* s := getStore in
  let n := mkNode (nextID (length (nodes s))) (Node_ClusterID n) (Node_Hostname n) (Node_Address n) (Node_User n)
                  (Node_SSHKeyPath n) (Node_Port n) (Node_Role n) (Node_Status n)
                  (Node_K8sVersion n) (Node_ContainerRuntime n) (Node_Labels n)
                  (Node_Taints n) (Node_JoinedAt n) (Node_CreatedAt n)
                  (Node_UpdatedAt n) (Node_DeletedAt n) in
  putStore (mkStore (clusters s) (nodes s ++ [n]) (events s) (jobs s)).

(** [db.DB.Create(&job)] *)
Definition CreateJobRow (j : Job) : M State unit :=
  let* s := getStore in
  let j := mkJob (nextID (length (jobs s))) (Job_ClusterID j) (Job_Type j) (Job_Status j) (Job_Progress j)
                 (Job_Error j) (Job_Metadata j) (Job_StartedAt j) (Job_FinishedAt j)
                 (Job_CreatedAt j) (Job_UpdatedAt j) in
  putStore (mkStore (clusters s) (nodes s) (events s) (jobs s ++ [j])).

(** [db.DB.Create(&event)]: the event comes back with its primary key. *)
Definition CreateEventRow (e : Event) : M State Event :=
  let* s := getStore in
  let e := mkEvent (nextID (length (events s))) (Event_ClusterID e)
                   (Event_Timestamp e) (Event_Level e) (Event_Host e) (Event_Step e)
                   (Event_Message e) (Event_Output e) (Event_CreatedAt e) in
  putStore (mkStore (clusters s) (nodes s) (events s ++ [e]) (jobs s)) ;;
  ret e.

(** An [UPDATE] of table [clusters]: it reaches the row of the given id
    unless the row is marked deleted, and stamps [updated_at]. *)
Definition updateCluster (id : N) (f : Cluster -> Cluster) : M State unit :=
  let* t := now in
  let* s := getStore in
  let upd c := if Cluster_DeletedAt c is None then withUpdatedAt t (f c) else c in
  putStore (mkStore (alter upd id (clusters s)) (nodes s) (events s) (jobs s)).

(** [db.DB.Model(&db.Cluster{}).Where("id = ?", id).Update("status", status)] *)
Definition UpdateStatus (id : N) (status : string) : M State unit :=
  (fun st => (Done tt, mkState (store st) (hub st)
                               (statusWrites st ++ [(id, status)]) (env st)
                               (history st))) ;;
  updateCluster id (fun c => withStatus status (Cluster_UpdatedAt c) c).

(** A byte slice as it is read back from a [blob] column: an empty blob
    comes back as a nil slice. *)
Definition readBlob (content : string) : option string :=
  if String.eqb content "" then None else Some content.

(** [db.DB.Model(&db.Cluster{}).Where("id = ?", id).Updates(...)] of
    [kubeconfig], [join_command] and [certificate_key]; the row holds the
    kubeconfig as a later query reads it. *)
Definition UpdateSecrets (id : N) (kubeconfig joinCommand certificateKey : string)
  : M State unit :=
  updateCluster id (withSecrets (readBlob kubeconfig) joinCommand certificateKey).

Definition nodesOf (id : N) (s : Store) : list Node :=
  filter (fun n => Node_ClusterID n = id ∧ Node_DeletedAt n = None) (nodes s).

(** [db.DB.Preload("Nodes").First(&cluster, id)], on the database as the
    query finds it. *)
Definition firstWithNodes (id : N) (s : Store) : option Cluster :=
  match clusters s !! id with
  | Some c =>
      if Cluster_DeletedAt c is None then Some (withNodes (nodesOf id s) c) else None
  | None => None
  end.

(** The database while [task] runs from [st]: before the first statement of
    the task, and after each of its statements that writes to the database. *)
Definition moments {A : Type} (task : M State A) (st : State) : list Store :=
  store st :: drop (length (history st)) (history (snd (task st))).

(** The database after [k] of the writes that leave it as in [later], one
    after the other, from [s]; after the last of them when they are fewer. *)
Fixpoint after (k : nat) (s : Store) (later : list Store) : Store :=
  match k with
  | O => s
  | S k =>
      match later with
      | [] => s
      | s' :: later => after k s' later
      end
  end.

(** A look at the database by a handler that has started [task] with a [go]
    statement and goes on beside it.  The handler finds the database as the
    task has left it after some of its statements; how many is the choice of
    the scheduler, and a number beyond the last statement is a task that has
    come to its end.  The task itself is run by [serveCreateCluster]: the
    state is the one before its first statement. *)
Definition behind {A : Type} (task : M State A) : M State Store :=
  fun st =>
    (Done (after (task_ahead W (steps (env st))) (store st)
                 (drop (length (history st)) (history (snd (task st))))), st).

(** The capacity of [Hub.broadcast]: [make(chan *BroadcastMessage, 256)]. *)
Definition broadcastCapacity : nat := 256.

(** Whether a send on [Hub.broadcast] gets through, when [sent] messages
    were sent on it before: the channel holds [broadcastCapacity] messages
    beyond those that the loop of the hub takes from it. *)
Definition broadcastHasRoom (sent : nat) : bool :=
  match Hub_receives W with
  | Some received => Nat.ltb sent (received + broadcastCapacity)
  | None => true
  end.

(** [Hub.BroadcastEvent]: the send [h.broadcast <- &BroadcastMessage{...}].
    The message is handed over in any case; the call returns when the
    channel takes it, and the task stays blocked in the send when it never
    does. *)
Definition BroadcastEvent (clusterID : N) (event : Event) : M State unit :=
  fun st => (if broadcastHasRoom (length (hub st)) then Done tt else Blocked,
             mkState (store st) (hub st ++ [mkBroadcastMessage clusterID event])
                     (statusWrites st) (env st) (history st)).

(** [ClusterHandler.logEvent] *)
Definition logEvent (clusterID : N) (level host step message : string) : M State unit :=
  let* timestamp := now in
  let* createdAt := now in
  let* event :=
    CreateEventRow (mkEvent 0 clusterID timestamp level host step message "" createdAt) in
  BroadcastEvent clusterID event.

(** [ClusterHandler.logError] *)
Definition logError (clusterID : N) (message : string) (err : error) : M State unit :=
  logEvent clusterID "error" "localhost" "error" (message +:+ ": " +:+ err) ;;
  UpdateStatus clusterID "failed".

(** The loop over [spec.ControlPlanes[1:]] of [provisionCluster]. *)
Fixpoint joinControlPlanes (provisioner : IProvisioner) (clusterID : N)
         (cps : list HostSpec) (result : ProvisionResult) : M State unit :=
  match cps with
  | [] => ret tt
  | cp :: rest =>
      logEvent clusterID "info" (Address cp) "join" "Joining control plane" ;;
      let* err := liftEnv (JoinControlPlane provisioner cp (resJoinCommand result)
                                            (resCertificateKey result)) in
      (if err is Some err then logError clusterID "Failed to join control plane" err
       else ret tt) ;;
      joinControlPlanes provisioner clusterID rest result
  end.

(** The loop over [spec.Workers] of [provisionCluster]. *)
Fixpoint joinWorkers (provisioner : IProvisioner) (clusterID : N)
         (workers : list HostSpec) (result : ProvisionResult) : M State unit :=
  match workers with
  | [] => ret tt
  | worker :: rest =>
      logEvent clusterID "info" (Address worker) "join" "Joining worker" ;;
      let* err := liftEnv (JoinWorker provisioner worker (resJoinCommand result)) in
      (if err is Some err then logError clusterID "Failed to join worker" err
       else ret tt) ;;
      joinWorkers provisioner clusterID rest result
  end.

(** [ClusterHandler.provisionCluster] *)
Definition provisionCluster (clusterID : N) (req : CreateClusterRequest) : M State unit :=
  UpdateStatus clusterID "provisioning" ;;
  match GetProvisioner registry "kubeadm" ∅ with
  | Err err => logError clusterID "Failed to get provisioner" err
  | Ok provisioner =>
      let spec := specOfRequest req in
      let* (spec, err) := liftEnv (ValidateSpec provisioner spec) in
      match err with
      | Some err => logError clusterID "Invalid cluster spec" err
      | None =>
          let allHosts := ControlPlanes spec ++ Workers spec in
          logEvent clusterID "info" "localhost" "prepare" "Preparing hosts" ;;
          let* err := liftEnv (PrepareHosts provisioner allHosts (ContainerRuntime spec)
                                            (K8sVersion spec)) in
          match err with
          | Some err => logError clusterID "Failed to prepare hosts" err
          | None =>
              match ControlPlanes spec with
              | [] => panic "runtime error: index out of range [0] with length 0"
              | cp0 :: otherControlPlanes =>
                  logEvent clusterID "info" (Address cp0) "bootstrap"
                           "Bootstrapping control plane" ;;
                  let* (result, err) :=
                    liftEnv (BootstrapControlPlane provisioner cp0 spec) in
                  match err with
                  | Some err => logError clusterID "Failed to bootstrap control plane" err
                  | None =>
                      match result with
                      | None =>
                          panic "runtime error: invalid memory address or nil pointer dereference"
                      | Some result =>
                          UpdateSecrets clusterID (resKubeconfig result)
                                        (resJoinCommand result) (resCertificateKey result) ;;
                          logEvent clusterID "info" (Address cp0) "cni" "Installing CNI" ;;
                          let* err := liftEnv (InstallCNI provisioner (resKubeconfig result)
                                                          (CNI spec) cp0) in
                          (if err is Some err
                           then logError clusterID "Failed to install CNI" err
                           else ret tt) ;;
                          joinControlPlanes provisioner clusterID otherControlPlanes result ;;
                          joinWorkers provisioner clusterID (Workers spec) result ;;
                          UpdateStatus clusterID "ready" ;;
                          logEvent clusterID "info" "localhost" "complete"
                                   "Cluster provisioned successfully"
                      end
                  end
              end
          end
      end
  end.

(** The node rows created for the control planes, then for the workers. *)
Fixpoint createNodes (clusterID : N) (role : string) (hosts : list HostSpec) : M State unit :=
  match hosts with
  | [] => ret tt
  | h :: rest =>
      let* createdAt := now in
      let* updatedAt := now in
      let port := if Z.eqb (Port h) 0 then 22%Z else Port h in
      CreateNodeRow (mkNode 0 clusterID (Hostname h) (Address h) (User h) (SSHKeyPath h)
                            port role "provisioning" "" "" "" "" None
                            createdAt updatedAt None) ;;
      createNodes clusterID role rest
  end.

Definition orElse (v s : string) : string := if String.eqb s "" then v else s.

(** [ClusterHandler.CreateCluster] on a decoded body ([None] when decoding
    failed).  Besides the response it gives the arguments of the task started
    by [go h.provisionCluster(cluster.ID, req)].  The handler reads the
    cluster back after the [go] statement, so the response shows the row as
    the task has left it by then. *)
Definition CreateCluster (decoded : option CreateClusterRequest)
  : M State (HTTPResponse * option (N * CreateClusterRequest)) :=
  match decoded with
  | None => ret (WriteBadRequest "Invalid request body", None)
  | Some req =>
      if String.eqb (Req_Name req) "" then
        ret (WriteBadRequest "Cluster name is required", None)
      else if Nat.eqb (length (Req_ControlPlanes req)) 0 then
        ret (WriteBadRequest "At least one control plane is required", None)
      else
        let* createdAt := now in
        let* updatedAt := now in
        let cluster :=
          mkCluster 0 (Req_Name req)
                    (orElse "1.28.0" (Req_K8sVersion req))
                    (orElse "10.244.0.0/16" (Req_PodNetworkCIDR req))
                    (orElse "10.96.0.0/12" (Req_ServiceCIDR req))
                    (orElse "calico" (Req_CNI req))
                    (orElse "containerd" (Req_ContainerRuntime req))
                    (Req_APIServerEndpoint req) "" "kubeadm" "pending"
                    None "" "" createdAt updatedAt None [] [] in
        let* created := CreateClusterRow cluster in
        match created with
        | Err _ => ret (WriteInternalError "Failed to create cluster", None)
        | Ok cluster =>
            createNodes (Cluster_ID cluster) "control-plane" (Req_ControlPlanes req) ;;
            createNodes (Cluster_ID cluster) "worker" (Req_Workers req) ;;
            let* createdAt := now in
            let* updatedAt := now in
            CreateJobRow (mkJob 0 (Cluster_ID cluster) "provision" "pending" 0 "" ""
                                None None createdAt updatedAt) ;;
            let* seen := behind (provisionCluster (Cluster_ID cluster) req) in
            let view := default cluster (firstWithNodes (Cluster_ID cluster) seen) in
            ret (WriteCreated (marshalCluster view), Some (Cluster_ID cluster, req))
        end
  end.

(** A create request served to the end: the handler, then the task it started. *)
Definition serveCreateCluster (decoded : option CreateClusterRequest)
  : M State HTTPResponse :=
  let* (response, task) := CreateCluster decoded in
  match task with
  | Some (clusterID, req) => provisionCluster clusterID req ;; ret response
  | None => ret response
  end.

(** The rows a query on table [clusters] sees: those not marked deleted.
    Their order is the one the database picks; the model takes that of the
    keys. *)
Definition liveRows (s : Store) : list (N * Cluster) :=
  filter (fun kv => Cluster_DeletedAt kv.2 = None) (map_to_list (clusters s)).

(** [db.DB.Preload("Nodes").Find(&clusters)] *)
Definition FindWithNodes : M State (list Cluster) :=
  let* s := getStore in
  ret ((fun kv => withNodes (nodesOf kv.1 s) kv.2) <$> liveRows s).

(** [ClusterHandler.ListClusters] *)
Definition ListClusters : M State HTTPResponse :=
  let* clusters := FindWithNodes in
  ret (WriteSuccess (JArray (marshalCluster <$> clusters))).

(** The events preloaded for a cluster, in the order of their primary keys. *)
Definition eventsOf (id : N) (s : Store) : list Event :=
  filter (fun e => Event_ClusterID e = id) (events s).

(** [db.DB.First(&cluster, id)] *)
Definition First (id : N) : M State (option Cluster) :=
  let* s := getStore in
  match clusters s !! id with
  | Some c => if Cluster_DeletedAt c is None then ret (Some c) else ret None
  | None => ret None
  end.

(** [db.DB.Preload("Nodes").Preload("Events").First(&cluster, id)] *)
Definition FirstWithNodesAndEvents (id : N) : M State (option Cluster) :=
  let* found := First id in
  let* s := getStore in
  ret ((fun c => withEvents (eventsOf id s) (withNodes (nodesOf id s) c)) <$> found).

(** [ClusterHandler.GetCluster], on the text of the path variable [id]. *)
Definition GetCluster (id : string) : M State HTTPResponse :=
  match ParseUint32 id with
  | None => ret (WriteBadRequest "Invalid cluster ID")
  | Some id =>
      let* found := FirstWithNodesAndEvents id in
      match found with
      | None => ret (WriteNotFound "Cluster not found")
      | Some cluster => ret (WriteSuccess (marshalCluster cluster))
      end
  end.

(** [db.DB.Delete(&db.Cluster{}, id)]: [Cluster] has a [DeletedAt] field, so
    the row is marked deleted and stays in the table; no row to mark is no
    error. *)
Definition DeleteClusterRow (id : N) : M State unit :=
  let* t := now in
  let* s := getStore in
  let del c := if Cluster_DeletedAt c is None then withDeletedAt (Some t) c else c in
  putStore (mkStore (alter del id (clusters s)) (nodes s) (events s) (jobs s)).

(** [ClusterHandler.DeleteCluster] *)
Definition DeleteCluster (id : string) : M State HTTPResponse :=
  match ParseUint32 id with
  | None => ret (WriteBadRequest "Invalid cluster ID")
  | Some id =>
      DeleteClusterRow id ;;
      ret (WriteSuccess (marshalMessage "Cluster deleted"))
  end.

(** [ClusterHandler.GetKubeconfig] *)
Definition GetKubeconfig (id : string) : M State Written :=
  match ParseUint32 id with
  | None => ret (WroteJSON (WriteBadRequest "Invalid cluster ID"))
  | Some id =>
      let* found := First id in
      match found with
      | None => ret (WroteJSON (WriteNotFound "Cluster not found"))
      | Some cluster =>
          match Cluster_Kubeconfig cluster with
          | None =>
              ret (WroteJSON (WriteError 404 "NOT_FOUND" "Kubeconfig not available"))
          | Some kubeconfig =>
              ret (WroteBytes "application/x-yaml"
                              "attachment; filename=kubeconfig.yaml" kubeconfig)
          end
      end
  end.

End Handlers.

(** *** The event stream of [HandleWebSocket] *)

(** [Order("timestamp desc")]: newer rows first.  Rows of equal timestamp
    come in the order the database picks; the model takes the order of a
    merge sort. *)
Definition newerFirst (a b : Event) : Prop := (Event_Timestamp b <= Event_Timestamp a)%Z.

#[global] Instance newerFirst_dec a b : Decision (newerFirst a b).
Proof. unfold newerFirst. apply _. Defined.

Definition orderByTimestampDesc (l : list Event) : list Event := merge_sort newerFirst l.

(** The query [Where("cluster_id = ?", id).Order("timestamp desc").Limit(50)]. *)
Definition recentEventsQuery (s : Store) (clusterID : N) : list Event :=
  take 50 (orderByTimestampDesc
             (filter (fun e => Event_ClusterID e = clusterID) (events s))).

(** The events the replay task writes to the connection, first to last:
    [for i := len(events) - 1; i >= 0; i-- { conn.WriteJSON(events[i]) }]. *)
Definition replayedEvents (s : Store) (clusterID : N) : list Event :=
  reverse (recentEventsQuery s clusterID).

(** The query [Where("cluster_id = ?", id).Order("timestamp desc").Limit(100)]
    of [GetEvents]. *)
Definition eventsPage (s : Store) (clusterID : N) : list Event :=
  take 100 (orderByTimestampDesc
              (filter (fun e => Event_ClusterID e = clusterID) (events s))).

(** [ClusterHandler.GetEvents], on the text of the path variable [id]. *)
Definition GetEvents (id : string) : M State HTTPResponse :=
  match ParseUint32 id with
  | None => ret (WriteBadRequest "Invalid cluster ID")
  | Some id =>
      let* s := getStore in
      ret (WriteSuccess (JArray (marshalEvent <$> eventsPage s id)))
  end.

(** *** The loop of [WebSocketHub.Run] *)

(** [Client]; a [*websocket.Conn] is given by its identity, a number. *)
Record Client : Type := mkClient {
  conn : N;
  Client_clusterID : N
}.

(** What the loop receives from its channels [register], [unregister] and
    [broadcast]. *)
Inductive HubMessage : Type :=
| FromRegister (client : Client)
| FromUnregister (client : Client)
| FromBroadcast (message : BroadcastMessage).

(** [WebSocketHub.clients] (the inner maps only ever hold [true]), the
    connections closed so far, and what was written: each broadcast with the
    connections it was written to (Go ranges over them in an order of its
    own). *)
Record HubState : Type := mkHubState {
  hubClients : gmap N (gset N);
  hubClosed : list N;
  hubWritten : list (gset N * Event)
}.

(** [h.clients[clusterID]], a nil map read as empty. *)
Definition subscribers (clusterID : N) (clients : gmap N (gset N)) : gset N :=
  match clients !! clusterID with
  | Some conns => conns
  | None => ∅
  end.

(** The case [client := <-h.register] *)
Definition hubRegister (client : Client) (h : HubState) : HubState :=
  mkHubState
    (<[Client_clusterID client :=
         {[conn client]} ∪ subscribers (Client_clusterID client) (hubClients h)]>
       (hubClients h))
    (hubClosed h) (hubWritten h).

(** The case [client := <-h.unregister] *)
Definition hubUnregister (client : Client) (h : HubState) : HubState :=
  match hubClients h !! Client_clusterID client with
  | Some conns =>
      if decide (conn client ∈ conns) then
        let conns := conns ∖ {[conn client]} in
        mkHubState
          (if decide (size conns = 0)%nat
           then delete (Client_clusterID client) (hubClients h)
           else <[Client_clusterID client := conns]> (hubClients h))
          (hubClosed h ++ [conn client]) (hubWritten h)
      else h
  | None => h
  end.

(** The case [message := <-h.broadcast], given the connections on which
    [WriteJSON] fails.  After a failed write the loop sends on the
    unbuffered channel [unregister], from which only the loop itself
    receives: it does not get past that send ([None]). *)
Definition hubBroadcast (writeFails : N -> bool) (message : BroadcastMessage)
           (h : HubState) : option HubState :=
  let conns := subscribers (clusterID message) (hubClients h) in
  if decide (set_Exists (fun c => writeFails c = true) conns) then None
  else Some (mkHubState (hubClients h) (hubClosed h)
                        (hubWritten h ++ [(conns, data message)])).

Definition hubStep (writeFails : N -> bool) (msg : HubMessage) (h : HubState)
  : option HubState :=
  match msg with
  | FromRegister client => Some (hubRegister client h)
  | FromUnregister client => Some (hubUnregister client h)
  | FromBroadcast message => hubBroadcast writeFails message h
  end.

(** [WebSocketHub.Run] on the messages it receives, in order. *)
Fixpoint hubRun (writeFails : N -> bool) (msgs : list HubMessage) (h : HubState)
  : option HubState :=
  match msgs with
  | [] => Some h
  | msg :: rest =>
      match hubStep writeFails msg h with
      | Some h' => hubRun writeFails rest h'
      | None => None
      end
  end.

(** [Hub] as declared: no client. *)
Definition Hub : HubState := mkHubState ∅ [] [].

(** *** [HandleWebSocket] among the tasks it runs with

    A connection is written to by two tasks: the replay task that
    [HandleWebSocket] starts, and the loop of the hub.  Which of them runs
    next is up to the scheduler; a run of the tasks is given by the turns
    they take. *)

(** What reaches a subscriber, and from which task. *)
Inductive Delivery : Type :=
| Replayed (e : Event)
| Live (e : Event).

(** The task [go func() { ... }] that replays the history: started, or past
    its query with events left to write, first to write first. *)
Inductive Replay : Type :=
| ReplayStarted (clusterID : N)
| ReplayWriting (events : list Event).

(** The database and the messages handed to [Hub.broadcast]; how many of
    these messages the loop of the hub has taken; the loop, when it is at its
    [select] ([None]: it was not started, or it does not get past a send);
    the replay task of each connection; what was written to each connection,
    in order; and the answers written to requests. *)
Record System : Type := mkSystem {
  sysState : State;
  sysTaken : nat;
  sysLoop : option HubState;
  sysReplays : gmap N Replay;
  sysReceived : gmap N (list Delivery);
  sysAnswers : list HTTPResponse
}.

Inductive Turn : Type :=
| Connects (id : string) (conn : N) (upgraded : bool)
| ReplayQueries (conn : N)
| ReplayWrites (conn : N)
| Logs (clusterID : N) (level host step message : string)
| LoopTakes
| Leaves (client : Client).

(** What was written to a connection so far. *)
Definition receivedBy (conn : N) (s : System) : list Delivery :=
  default [] (sysReceived s !! conn).

(** One [conn.WriteJSON]: nothing arrives when the write fails. *)
Definition writeTo (writeFails : N -> bool) (conn : N) (d : Delivery)
           (received : gmap N (list Delivery)) : gmap N (list Delivery) :=
  if writeFails conn then received
  else <[conn := default [] (received !! conn) ++ [d]]> received.

Section Tasks.

Variable W : World.

(** The connections on which [WriteJSON] fails. *)
Variable writeFails : N -> bool.

(** [HandleWebSocket] from its start to the two [go] statements, on the
    text of the path variable [id], with the connection that [Upgrade]
    gives when it succeeds.  The send [Hub.register <- client] is taken by
    the loop of the hub; the replay task is started after it.  Without a
    loop at its [select] the handler stays in that send. *)
Definition HandleWebSocket (id : string) (conn : N) (upgraded : bool) (s : System)
  : System :=
  match ParseUint32 id with
  | None =>
      mkSystem (sysState s) (sysTaken s) (sysLoop s) (sysReplays s) (sysReceived s)
               (sysAnswers s ++ [WriteError 400 "BAD_REQUEST" "Invalid cluster ID"])
  | Some clusterID =>
      if upgraded then
        match sysLoop s with
        | Some h =>
            let client := mkClient conn clusterID in
            mkSystem (sysState s) (sysTaken s) (Some (hubRegister client h))
                     (<[conn := ReplayStarted clusterID]> (sysReplays s))
                     (sysReceived s) (sysAnswers s)
        | None => s
        end
      else s
  end.

(** The query of the replay task. *)
Definition replayQuery (conn : N) (s : System) : System :=
  match sysReplays s !! conn with
  | Some (ReplayStarted clusterID) =>
      mkSystem (sysState s) (sysTaken s) (sysLoop s)
               (<[conn := ReplayWriting (replayedEvents (store (sysState s)) clusterID)]>
                  (sysReplays s))
               (sysReceived s) (sysAnswers s)
  | _ => s
  end.

(** One round of the loop of the replay task: [conn.WriteJSON(events[i])],
    whose error is not looked at. *)
Definition replayWrite (conn : N) (s : System) : System :=
  match sysReplays s !! conn with
  | Some (ReplayWriting (e :: rest)) =>
      mkSystem (sysState s) (sysTaken s) (sysLoop s)
               (<[conn := ReplayWriting rest]> (sysReplays s))
               (writeTo writeFails conn (Replayed e) (sysReceived s)) (sysAnswers s)
  | _ => s
  end.

(** A provisioning task calls [logEvent]: the event is persisted and handed
    to [Hub.broadcast], where it is in line whether or not the sender has to
    wait. *)
Definition taskLogs (clusterID : N) (level host step message : string) (s : System)
  : System :=
  mkSystem (snd (logEvent W clusterID level host step message (sysState s)))
           (sysTaken s) (sysLoop s) (sysReplays s) (sysReceived s) (sysAnswers s).

(** The loop of the hub takes the next message from [Hub.broadcast] and
    writes it to the connections registered for its cluster. *)
Definition loopTakes (s : System) : System :=
  match sysLoop s, hub (sysState s) !! sysTaken s with
  | Some h, Some message =>
      match hubBroadcast writeFails message h with
      | Some h' =>
          mkSystem (sysState s) (S (sysTaken s)) (Some h') (sysReplays s)
                   (foldr (fun c => writeTo writeFails c (Live (data message)))
                          (sysReceived s)
                          (elements (subscribers (clusterID message) (hubClients h))))
                   (sysAnswers s)
      | None =>
          mkSystem (sysState s) (S (sysTaken s)) None (sysReplays s) (sysReceived s)
                   (sysAnswers s)
      end
  | _, _ => s
  end.

(** [ReadMessage] or the ping returns an error: [Hub.unregister <- client],
    taken by the loop of the hub. *)
Definition clientLeaves (client : Client) (s : System) : System :=
  match sysLoop s with
  | Some h =>
      mkSystem (sysState s) (sysTaken s) (Some (hubUnregister client h)) (sysReplays s)
               (sysReceived s) (sysAnswers s)
  | None => s
  end.

Definition takeTurn (turn : Turn) (s : System) : System :=
  match turn with
  | Connects id conn upgraded => HandleWebSocket id conn upgraded s
  | ReplayQueries conn => replayQuery conn s
  | ReplayWrites conn => replayWrite conn s
  | Logs clusterID level host step message => taskLogs clusterID level host step message s
  | LoopTakes => loopTakes s
  | Leaves client => clientLeaves client s
  end.

(** The tasks run from [s], taking the given turns in order. *)
Definition runTasks (turns : list Turn) (s : System) : System :=
  foldl (fun s turn => takeTurn turn s) s turns.

End Tasks.

End api.

(** * Properties of the embedded program *)

Import provision db api.

(** ** Vocabulary of the statements *)

(** [wp m Q s]: running [m] from [s] gives an outcome and a state that satisfy [Q]. *)
Definition wp {S A : Type} (m : M S A) (Q : outcome A -> S -> Prop) (s : S) : Prop :=
  Q (fst (m s)) (snd (m s)).

(** Level, host, step and message of a persisted event. *)
Definition summary (e : Event) : string * string * string * string :=
  (Event_Level e, Event_Host e, Event_Step e, Event_Message e).

(** The cluster row exists and is not marked deleted. *)
Definition live (id : N) (st : State) : Prop :=
  ∃ c, clusters (store st) !! id = Some c ∧ Cluster_DeletedAt c = None.

(** The cluster row exists, is not marked deleted, and has the given status. *)
Definition statusIs (id : N) (status : string) (st : State) : Prop :=
  ∃ c, clusters (store st) !! id = Some c ∧ Cluster_DeletedAt c = None ∧
       Cluster_Status c = status.

(** From [st] to [st'] the events table grew by events of the given
    summaries, as many messages were handed to the hub, and a live cluster
    row stayed live. *)
Definition evolves (cid : N) (added : list (string * string * string * string))
           (st st' : State) : Prop :=
  (∃ new, events (store st') = events (store st) ++ new ∧ summary <$> new = added) ∧
  length (hub st') = (length (hub st) + length added)%nat ∧
  (live cid st -> live cid st').

(** The channel [Hub.broadcast] takes [n] more messages: the sends of the
    next [n] events get through. *)
Definition room (W : World) (n : nat) (st : State) : Prop :=
  match Hub_receives W with
  | Some received => (length (hub st) + n <= received + broadcastCapacity)%nat
  | None => True
  end.

(** A call that leaves the jobs table as it found it, however it ends. *)
Definition keepsJobs {A : Type} (m : M State A) : Prop :=
  forall st, jobs (store (snd (m st))) = jobs (store st).

(** From [e] to [e'] the event callback received events of the given levels. *)
Definition emits (levels : list string) (e e' : Env) : Prop :=
  ∃ new, sink e' = sink e ++ new ∧ evLevel <$> new = levels.

(** What reaches the callback of [p] when events of the given levels are emitted. *)
Definition emittedBy (p : KubeadmProvisioner) (levels : list string) : list string :=
  if eventCallback p is Some _ then levels else [].

(** The callback of [p] is unset, or it records the events it receives. *)
Definition recording (p : KubeadmProvisioner) : Prop :=
  eventCallback p = None ∨ eventCallback p = Some recordEvent.

(** The events [provisionCluster] logs before each join. *)
Definition joinControlPlaneEvent (cp : HostSpec) : string * string * string * string :=
  ("info", Address cp, "join", "Joining control plane").
Definition joinWorkerEvent (w : HostSpec) : string * string * string * string :=
  ("info", Address w, "join", "Joining worker").

Definition isJoin (x : string * string * string * string) : Prop := x.1.2 = "join".

(** The event that [logError] persists for an error. *)
Definition errorEvent (message : string) (err : error)
  : string * string * string * string :=
  ("error", "localhost", "error", message +:+ ": " +:+ err).

(** What is logged for the answer of a call that is allowed to fail:
    nothing, or the error. *)
Definition failureEvents (message : string) (answer : option error)
  : list (string * string * string * string) :=
  match answer with
  | Some err => [errorEvent message err]
  | None => []
  end.

(** The events of a loop of joins over [hosts]: for each host the event
    logged before the call and then, when the call returns an error, the
    event of that error. *)
Definition joinEvents (before : HostSpec -> string * string * string * string)
           (message : string) (answer : HostSpec -> option error)
           (hosts : list HostSpec) : list (string * string * string * string) :=
  flat_map (fun h => before h :: failureEvents message (answer h)) hosts.

(** The events of a run that gets past the bootstrap, given the answers of
    [InstallCNI] and of the joins. *)
Definition completeRun (cp0 : HostSpec) (cps workers : list HostSpec)
           (cniAnswer : option error) (cpAnswer wAnswer : HostSpec -> option error)
  : list (string * string * string * string) :=
  [ ("info", "localhost", "prepare", "Preparing hosts");
    ("info", Address cp0, "bootstrap", "Bootstrapping control plane");
    ("info", Address cp0, "cni", "Installing CNI") ]
  ++ failureEvents "Failed to install CNI" cniAnswer
  ++ joinEvents joinControlPlaneEvent "Failed to join control plane" cpAnswer cps
  ++ joinEvents joinWorkerEvent "Failed to join worker" wAnswer workers
  ++ [ ("info", "localhost", "complete", "Cluster provisioned successfully") ].

(** [BootstrapControlPlane] of [P] on [cp0] returns a result with the given
    kubeconfig, join command and certificate key, and no error, whatever the
    clock shows. *)
Definition bootstraps (P : IProvisioner) (cp0 : HostSpec) (spec : ClusterSpec)
           (kubeconfig joinCommand certificateKey : string) : Prop :=
  forall e, ∃ result,
    fst (BootstrapControlPlane P cp0 spec e) = Done (Some result, None) ∧
    resKubeconfig result = kubeconfig ∧ resJoinCommand result = joinCommand ∧
    resCertificateKey result = certificateKey.

#[global] Instance isJoin_dec x : Decision (isJoin x).
Proof. unfold isJoin. apply _. Defined.

(** From which task a subscriber got an event, and the step of the event. *)
Definition origin (d : Delivery) : string * string :=
  match d with
  | Replayed e => ("replayed", Event_Step e)
  | Live e => ("live", Event_Step e)
  end.

(** An empty field takes the default, any other value is kept. *)
Definition defaultsTo (d before after : string) : Prop :=
  (before = "" -> after = d) ∧ (before ≠ "" -> after = before).

(** Oldest first. *)
Definition olderFirst (a b : Event) : Prop := (Event_Timestamp a <= Event_Timestamp b)%Z.

(** A host that [HostSpec.Validate] accepts: it has an address and a key
    or the path of a key. *)
Definition connectable (hs : HostSpec) : Prop :=
  Address hs ≠ "" ∧ (SSHKey hs ≠ "" ∨ SSHKeyPath hs ≠ "").

(** Every byte of [s] satisfies [P]. *)
Fixpoint allBytes (P : ascii -> bool) (s : string) : bool :=
  match s with
  | EmptyString => true
  | String c r => P c && allBytes P r
  end.

(** The white space of ASCII: tab, line feed, vertical tab, form feed,
    carriage return, space. *)
Definition isBlank (c : ascii) : bool :=
  let n := N_of_ascii c in ((9 <=? n) && (n <=? 13) || (n =? 32))%N.

(** A call of the provisioner that returns, whatever the world answers. *)
Definition returns {A : Type} (m : M Env A) : Prop :=
  forall e, ∃ a, fst (m e) = Done a.

(** A call of the provisioner that returns an error, whatever the world answers. *)
Definition fails (m : M Env (option error)) : Prop :=
  forall e, ∃ err, fst (m e) = Done (Some err).

(** A call of the provisioner that hands no event to a callback. *)
Definition silent {A : Type} (m : M Env A) : Prop :=
  forall e, sink (snd (m e)) = sink e.

(** The secret columns of a cluster row. *)
Definition secretsOf (c : Cluster) : option string * string * string :=
  (Cluster_Kubeconfig c, Cluster_JoinCommand c, Cluster_CertificateKey c).

(** From [st] to [st'] the events table grew by events of the given
    summaries, the given values were written to column [status], a live
    cluster row stayed live, and no secret column changed. *)
Definition trace (cid : N) (added : list (string * string * string * string))
           (writes : list (N * string)) (st st' : State) : Prop :=
  evolves cid added st st' ∧
  statusWrites st' = statusWrites st ++ writes ∧
  (forall id, secretsOf <$> clusters (store st') !! id
              = secretsOf <$> clusters (store st) !! id).

(** A call after which [R] relates the state before and the state after,
    however the call ends. *)
Definition always {A : Type} (R : State -> State -> Prop) (m : M State A) : Prop :=
  forall st, R st (snd (m st)).

(** What a run of the task for cluster [cid] leaves as it was: the nodes
    table, every other cluster row, and the row of [cid] when it is absent
    or marked deleted. *)
Definition frame (cid : N) (st st' : State) : Prop :=
  nodes (store st') = nodes (store st) ∧
  (forall id, id ≠ cid -> clusters (store st') !! id = clusters (store st) !! id) ∧
  (forall c, clusters (store st) !! cid = Some c -> Cluster_DeletedAt c ≠ None ->
             clusters (store st') !! cid = Some c) ∧
  (clusters (store st) !! cid = None -> clusters (store st') !! cid = None).

(** Every event persisted between [st] and [st'] is of cluster [cid] and
    was handed to the hub as it was persisted, in the same order. *)
Definition mirrored (cid : N) (st st' : State) : Prop :=
  ∃ new, events (store st') = events (store st) ++ new ∧
         hub st' = hub st ++ (mkBroadcastMessage cid <$> new) ∧
         Forall (fun e => Event_ClusterID e = cid) new.

(** Nothing reaches an event callback between [st] and [st']. *)
Definition quiet (st st' : State) : Prop := sink (env st') = sink (env st).

(** [OK] holds of every call of the provisioner that the task makes. *)
Definition provisionerCalls (OK : forall A : Type, M Env A -> Prop) (P : IProvisioner)
  : Prop :=
  (forall spec, OK _ (ValidateSpec P spec)) ∧
  (forall hosts rt v, OK _ (PrepareHosts P hosts rt v)) ∧
  (forall h spec, OK _ (BootstrapControlPlane P h spec)) ∧
  (forall kc cni h, OK _ (InstallCNI P kc cni h)) ∧
  (forall h cmd key, OK _ (JoinControlPlane P h cmd key)) ∧
  (forall h cmd, OK _ (JoinWorker P h cmd)).

(** No condition on the calls of the provisioner. *)
Definition anyCall : forall A : Type, M Env A -> Prop := fun _ _ => True.

(** Between [st] and [st'] the only value written to column [status] is
    [failed], to the row of [cid], any number of times. *)
Definition wroteFailed (cid : N) (st st' : State) : Prop :=
  ∃ k, statusWrites st' = statusWrites st ++ replicate k (cid, "failed").

(** The same, with [ready] possibly written once more, as the last value. *)
Definition wroteFailedThenReady (cid : N) (st st' : State) : Prop :=
  ∃ k (ready : bool),
    statusWrites st' = statusWrites st ++ replicate k (cid, "failed")
                       ++ (if ready then [(cid, "ready")] else []).

(** The row of [cid] is live and holds the given secrets. *)
Definition holds (cid : N) (secrets : option string * string * string) (st : State)
  : Prop :=
  ∃ c, clusters (store st) !! cid = Some c ∧ Cluster_DeletedAt c = None ∧
       secretsOf c = secrets.

(** A live row of [cid] stays live and no secret column changes. *)
Definition keeps (cid : N) (st st' : State) : Prop :=
  (live cid st -> live cid st') ∧
  (forall id, secretsOf <$> clusters (store st') !! id
              = secretsOf <$> clusters (store st) !! id).

(** A cluster row without what the provisioning task writes to it: status,
    time of the last update and secrets; and without its events. *)
Definition fixedPart (c : Cluster) : Cluster :=
  withEvents [] (withSecrets None "" "" (withStatus "" 0 c)).

(** The database [s'] as a run of the task for cluster [cid] can make it
    from [s]: the same nodes, and the row of [cid], when there is one, the
    same but for status, time of the last update and secrets, with the old
    status or one that the task writes. *)
Definition like (cid : N) (s s' : Store) : Prop :=
  nodes s' = nodes s ∧
  (forall c, clusters s !! cid = Some c ->
     ∃ c', clusters s' !! cid = Some c' ∧ fixedPart c' = fixedPart c ∧
           Cluster_Status c' ∈ [Cluster_Status c; "provisioning"; "failed"; "ready"]).

(** Between [st] and [st'] every statement on the database has left it
    [like] it was in [st]. *)
Definition steady (cid : N) (st st' : State) : Prop :=
  like cid (store st) (store st') ∧
  ∃ added, history st' = history st ++ added ∧ Forall (like cid (store st)) added.

(** The member of a JSON object under a name. *)
Definition member (name : string) (j : json) : option json :=
  match j with
  | JObject members => snd <$> List.find (fun m => String.eqb (fst m) name) members
  | _ => None
  end.

(** The status of the cluster in the body of an answer. *)
Definition statusShown (r : outcome (HTTPResponse * option (N * CreateClusterRequest)))
  : option json :=
  match r with
  | Done (response, _) => member "data" (body response) ≫= member "status"
  | _ => None
  end.

(** The text of an id in the path of a request. *)
Definition idText (id : N) : string := decimal (Z.of_N id).

(** A body that the create handler answers with 400. *)
Definition malformed (decoded : option CreateClusterRequest) : Prop :=
  match decoded with
  | None => True
  | Some req => Req_Name req = "" ∨ Req_ControlPlanes req = []
  end.

(** Cluster, role, address, port and status of a node row. *)
Definition nodeSummary (n : Node) : N * string * string * Z * string :=
  (Node_ClusterID n, Node_Role n, Node_Address n, Node_Port n, Node_Status n).

(** The summary of the node row that the create handler writes for a host. *)
Definition nodeRowOf (clusterID : N) (role : string) (h : HostSpec)
  : N * string * string * Z * string :=
  (clusterID, role, Address h, if Z.eqb (Port h) 0 then 22%Z else Port h, "provisioning").

(** The cluster row that the create handler writes for a request. *)
Definition requestedRow (req : CreateClusterRequest) (id : N) (createdAt updatedAt : Z)
  : Cluster :=
  mkCluster id (Req_Name req)
            (orElse "1.28.0" (Req_K8sVersion req))
            (orElse "10.244.0.0/16" (Req_PodNetworkCIDR req))
            (orElse "10.96.0.0/12" (Req_ServiceCIDR req))
            (orElse "calico" (Req_CNI req))
            (orElse "containerd" (Req_ContainerRuntime req))
            (Req_APIServerEndpoint req) "" "kubeadm" "pending"
            None "" "" createdAt updatedAt None [] [].

(** The events written to a connection, in order. *)
Definition deliveredTo (c : N) (h : HubState) : list Event :=
  omap (fun w => if decide (c ∈ w.1) then Some w.2 else None) (hubWritten h).

(** The events broadcast for a cluster among the messages, in order. *)
Definition broadcastsOf (cid : N) (msgs : list HubMessage) : list Event :=
  omap (fun m => match m with
                 | FromBroadcast b =>
                     if decide (clusterID b = cid) then Some (data b) else None
                 | _ => None
                 end) msgs.

(** A message that neither registers nor unregisters the connection [c]. *)
Definition leaves (c : N) (msg : HubMessage) : Prop :=
  match msg with
  | FromRegister client | FromUnregister client => conn client ≠ c
  | FromBroadcast _ => True
  end.

(** No cluster is left with an empty set of connections. *)
Definition noEmptySet (clients : gmap N (gset N)) : Prop :=
  forall cid conns, clients !! cid = Some conns -> conns ≠ ∅.

(** ** Scenarios: a scripted shell, as in the end-to-end tests of the specification *)

Module Scenario.

Definition cp1 : HostSpec := mkHostSpec "cp1" "10.0.0.1" "u" "" "/k" 22 "" ∅ [].
Definition w1 : HostSpec := mkHostSpec "w1" "10.0.0.2" "u" "" "/k" 22 "" ∅ [].

(** The output of [kubeadm init] in the scenarios. *)
Definition transcript : string :=
  "Your Kubernetes control-plane has initialized successfully!" +:+ nl +:+
  "kubeadm join 10.0.0.1:6443 --token abc --discovery-token-ca-cert-hash sha256:xyz"
  +:+ nl +:+ nl +:+
  "Additional control planes join with --control-plane --certificate-key KEY" +:+ nl.

(** A world in which keys are readable, hosts are reachable, a command
    fails exactly when [failing] says so, and [kubeadm init] prints [output].
    The loop of the hub is not running, as under the [main] of the
    repository, which does not start it, and a handler looks at the
    database before the task it has started has written to it. *)
Definition scriptedShellWith (output : string) (failing : HostSpec -> string -> bool)
  : World :=
  mkWorld (fun n => Z.of_nat n)
          (fun _ _ => Ok "PRIVATE KEY")
          (fun _ _ => None)
          (fun _ _ _ _ => None)
          (fun _ _ => None)
          (fun _ h cmd =>
             if failing h cmd
             then ("", "scripted failure", Some "Process exited with status 1")
             else if HasPrefix cmd "kubeadm init" then (output, "", None)
             else ("", "", None))
          (Some 0%nat) (fun _ => 0%nat).

Definition scriptedShell : (HostSpec -> string -> bool) -> World :=
  scriptedShellWith transcript.

Definition allSucceed : World := scriptedShell (fun _ _ => false).

Definition workerJoinFails : World :=
  scriptedShell (fun h cmd => String.eqb (Address h) "10.0.0.2" && HasPrefix cmd "kubeadm join").

Definition initFails : World := scriptedShell (fun _ cmd => HasPrefix cmd "kubeadm init").

Definition applyFails : World := scriptedShell (fun _ cmd => HasPrefix cmd "kubectl apply").

Definition waitFails : World := scriptedShell (fun _ cmd => HasPrefix cmd "kubectl wait").

Definition oneNode : CreateClusterRequest :=
  mkCreateClusterRequest "c1" "" "" "" "" "" "" [cp1] [].

Definition oneWorker : CreateClusterRequest :=
  mkCreateClusterRequest "c1" "" "" "" "" "" "" [cp1] [w1].

(** An empty database, no broadcast, no status write, a fresh world. *)
Definition start : State := mkState emptyStore [] [] (mkEnv 0 []) [].

(** The state in which the create handler leaves the task it has started. *)
Definition accepted (W : World) (req : CreateClusterRequest) : State :=
  snd (CreateCluster W (provisionerRegistry W) (Some req) start).

(** Specifications for the validation statements. *)
Definition unnamed : ClusterSpec :=
  mkClusterSpec "" [cp1] [] "" "" "" "" "" "" "" "".

Definition bareHost : HostSpec := mkHostSpec "" "10.0.0.1" "" "" "/k" 0 "" ∅ [].

Definition bareSpec : ClusterSpec :=
  mkClusterSpec "c1" [bareHost] [] "" "" "" "" "" "" "" "".

(** The output of [kubeadm init] as the tool prints it: the join command is
    cut by a backslash at the end of its first line. *)
Definition twoLineJoin : string :=
  "kubeadm join 10.0.0.1:6443 --token abc " +:+ backslash +:+ nl +:+
  "    --discovery-token-ca-cert-hash sha256:xyz" +:+ nl.

(** Every command succeeds and [kubeadm init] prints the two-line form. *)
Definition printsTwoLines : World := scriptedShellWith twoLineJoin (fun _ _ => false).

(** Every command succeeds and the output of [kubeadm init] ends with the
    flag [--certificate-key] and no value. *)
Definition printsNoKey : World :=
  scriptedShellWith
    ("kubeadm join 10.0.0.1:6443 --token abc --control-plane --certificate-key" +:+ nl)
    (fun _ _ => false).

(** Two persisted events of cluster 1 and one broadcast after a subscription. *)
Definition ev (id : N) (t : Z) (step : string) : Event :=
  mkEvent id 1 t "info" "localhost" step "" "" t.

Definition history : Store :=
  mkStore ∅ [] [ev 1 10 "prepare"; ev 2 20 "bootstrap"] [].

(** A worker without key material, and one without an address. *)
Definition keylessWorker : HostSpec := mkHostSpec "w2" "10.0.0.3" "u" "" "" 22 "" ∅ [].
Definition addresslessWorker : HostSpec := mkHostSpec "w3" "" "u" "" "/k" 22 "" ∅ [].

Definition twoBadWorkers : ClusterSpec :=
  mkClusterSpec "c1" [cp1] [keylessWorker; addresslessWorker] "" "" "" "" "" "" "" "".

(** A world in which no host answers the dial. *)
Definition unreachable : World :=
  mkWorld (fun n => Z.of_nat n) (fun _ _ => Ok "PRIVATE KEY") (fun _ _ => None)
          (fun _ _ _ _ => Some "dial tcp: i/o timeout") (fun _ _ => None)
          (fun _ _ _ => ("", "", None)) (Some 0%nat) (fun _ => 0%nat).

(** Every command succeeds, [kubeadm init] prints the transcript, the
    kubeconfig on the control plane reads [apiVersion: v1], and the join
    command fails on the worker 10.0.0.2. *)
Definition printsKubeconfig : World :=
  mkWorld (fun n => Z.of_nat n)
          (fun _ _ => Ok "PRIVATE KEY")
          (fun _ _ => None)
          (fun _ _ _ _ => None)
          (fun _ _ => None)
          (fun _ h cmd =>
             if String.eqb (Address h) "10.0.0.2" && HasPrefix cmd "kubeadm join"
             then ("", "scripted failure", Some "Process exited with status 1")
             else if HasPrefix cmd "kubeadm init" then (transcript, "", None)
             else if String.eqb cmd "cat /etc/kubernetes/admin.conf"
                  then ("apiVersion: v1", "", None)
             else ("", "", None))
          (Some 0%nat) (fun _ => 0%nat).

(** Every command succeeds but the clean-up after [kubeadm reset]. *)
Definition cleanupFails : World := scriptedShell (fun _ cmd => HasPrefix cmd "rm -rf").

(** Requests: one for the runtime cri-o, one whose control plane has no
    key material, one that takes the name of [oneWorker]. *)
Definition crio : CreateClusterRequest :=
  mkCreateClusterRequest "c1" "" "" "" "" "cri-o" "" [cp1] [].

Definition keyless : CreateClusterRequest :=
  mkCreateClusterRequest "c1" "" "" "" "" "" ""
    [mkHostSpec "cp1" "10.0.0.1" "u" "" "" 22 "" ∅ []] [].

Definition sameName : CreateClusterRequest :=
  mkCreateClusterRequest "c1" "1.29.0" "" "" "flannel" "" "" [w1] [].

(** The state after cluster 1 was created and then deleted. *)
Definition createdThenDeleted : State :=
  snd (DeleteCluster allSucceed "1" (accepted allSucceed oneWorker)).

(** Events of two clusters. *)
Definition busy : Store :=
  mkStore ∅ []
          [ ev 1 10 "prepare";
            mkEvent 2 2 15 "info" "localhost" "prepare" "" "" 15;
            ev 3 20 "bootstrap" ] [].

(** Every command succeeds and the loop of the hub keeps taking messages. *)
Definition hubRuns : World :=
  mkWorld (time_Now allSucceed) (os_ReadFile allSucceed) (ssh_ParsePrivateKey allSucceed)
          (ssh_Dial allSucceed) (ssh_NewSession allSucceed) (session_Run allSucceed) None
          (task_ahead allSucceed).

(** [kubeadm init] fails, and the task that a handler has started has
    executed [n] statements on the database when the handler looks at it. *)
Definition initFailsAhead (n : nat) : World :=
  mkWorld (time_Now initFails) (os_ReadFile initFails) (ssh_ParsePrivateKey initFails)
          (ssh_Dial initFails) (ssh_NewSession initFails) (session_Run initFails)
          (Hub_receives initFails) (fun _ => n).

(** Every command succeeds, and the task that a handler has started has
    executed [n] statements on the database when the handler looks at it. *)
Definition taskAhead (n : nat) : World :=
  mkWorld (time_Now allSucceed) (os_ReadFile allSucceed) (ssh_ParsePrivateKey allSucceed)
          (ssh_Dial allSucceed) (ssh_NewSession allSucceed) (session_Run allSucceed)
          (Hub_receives allSucceed) (fun _ => n).

(** An empty database, and the loop of the hub at its [select] with no
    client. *)
Definition serving : System := mkSystem start 0 (Some Hub) ∅ ∅ [].

(** Two events of cluster 1 are logged and taken by the loop; then a client
    connects for cluster 1 on connection 7; before its replay task runs, a
    third event is logged and the loop writes it; then the replay task runs
    to its end. *)
Definition lateReplay : list Turn :=
  [ Logs 1 "info" "localhost" "prepare" "Preparing hosts"; LoopTakes;
    Logs 1 "info" "10.0.0.1" "bootstrap" "Bootstrapping control plane"; LoopTakes;
    Connects "1" 7 true;
    Logs 1 "info" "10.0.0.1" "cni" "Installing CNI"; LoopTakes;
    ReplayQueries 7; ReplayWrites 7; ReplayWrites 7; ReplayWrites 7 ].

(** Two websocket clients, of clusters 1 and 2. *)
Definition alice : Client := mkClient 1 1.
Definition bob : Client := mkClient 2 2.

End Scenario.

(** ** The string functions on small inputs *)

Example Split_lines :
  Split ("a" +:+ nl +:+ "" +:+ nl +:+ "bc") nl = ["a"; ""; "bc"].
Proof. reflexivity. Qed.

Example Split_flag :
  Split "x --certificate-key" "--certificate-key" = ["x "; ""].
Proof. reflexivity. Qed.

Example TrimSpace_both :
  TrimSpace (tab +:+ "  kubeadm join  " +:+ nl) = "kubeadm join".
Proof. reflexivity. Qed.

Example TrimSpace_nbsp :
  TrimSpace (bytes [0xC2; 0xA0; 0x61; 0xE2; 0x80; 0xA8]%N) = "a".
Proof. reflexivity. Qed.

Example Fields_words :
  Fields ("  KEY " +:+ tab +:+ "next" +:+ nl) = ["KEY"; "next"].
Proof. reflexivity. Qed.

Example Fields_blank : Fields "   " = [].
Proof. reflexivity. Qed.

(** ** Parsing the output of [kubeadm init] *)

Example extractJoinCommand_one_line :
  extractJoinCommand Scenario.transcript
  = "kubeadm join 10.0.0.1:6443 --token abc --discovery-token-ca-cert-hash sha256:xyz".
Proof. reflexivity. Qed.

Example extractCertificateKey_KEY :
  extractCertificateKey Scenario.transcript = Done "KEY".
Proof. reflexivity. Qed.

Example extractJoinCommand_leading_backslash :
  extractJoinCommand
    ("kubeadm join 10.0.0.1:6443 --token abc" +:+ nl +:+
     "  " +:+ backslash +:+ "--discovery-token-ca-cert-hash sha256:xyz" +:+ nl)
  = "kubeadm join 10.0.0.1:6443 --token abc --discovery-token-ca-cert-hash sha256:xyz".
Proof. reflexivity. Qed.

(** C2.  On the two-line form of the join command (first line ending in a
    backslash, second line carrying the hash flag) [extractJoinCommand]
    returns a line that still holds the backslash between the two flags: it
    is not the single-line command [kubeadm join ADDR:PORT --token T
    --discovery-token-ca-cert-hash sha256:H]. *)
Theorem extractJoinCommand_keeps_trailing_backslash :
  extractJoinCommand Scenario.twoLineJoin
  = "kubeadm join 10.0.0.1:6443 --token abc " +:+ backslash +:+
    " --discovery-token-ca-cert-hash sha256:xyz"
  ∧ extractJoinCommand Scenario.twoLineJoin
    ≠ "kubeadm join 10.0.0.1:6443 --token abc --discovery-token-ca-cert-hash sha256:xyz".
Proof. split; [reflexivity|]. vm_compute. discriminate. Qed.

(** C10.  On a line whose last token is [--certificate-key],
    [extractCertificateKey] does not return: [strings.Fields(key)[0]] indexes
    an empty slice and the call panics. *)
Theorem extractCertificateKey_panics_without_value :
  extractCertificateKey "--certificate-key"
  = Panicked "runtime error: index out of range [0] with length 0"
  ∧ extractCertificateKey
      ("kubeadm join 10.0.0.1:6443 --token abc --control-plane --certificate-key" +:+ nl)
    = Panicked "runtime error: index out of range [0] with length 0".
Proof. split; reflexivity. Qed.

(** The join command of the two-line form reaches the cluster record with
    its backslash, and it is the command run on the worker. *)
Example two_line_join_is_stored :
  Cluster_JoinCommand
    <$> clusters (store (serveCreateCluster Scenario.printsTwoLines
                           (provisionerRegistry Scenario.printsTwoLines)
                           (Some Scenario.oneWorker) Scenario.start).2) !! 1%N
  = Some ("kubeadm join 10.0.0.1:6443 --token abc " +:+ backslash +:+
          " --discovery-token-ca-cert-hash sha256:xyz").
Proof. vm_compute. reflexivity. Qed.

(** The panic of [extractCertificateKey] ends the provisioning task: the
    cluster stays in status provisioning. *)
Example missing_key_panics_the_provisioning :
  let run := serveCreateCluster Scenario.printsNoKey
               (provisionerRegistry Scenario.printsNoKey)
               (Some Scenario.oneNode) Scenario.start in
  run.1 = Panicked "runtime error: index out of range [0] with length 0"
  ∧ Cluster_Status <$> clusters (store run.2) !! 1%N = Some "provisioning".
Proof. vm_compute. split; reflexivity. Qed.

(** ** Validation of specifications *)

Lemma eqb_empty_false s : s ≠ "" -> String.eqb s "" = false.
Proof. intros H. by apply String.eqb_neq. Qed.

Lemma orDefault_value {A : Type} (get : A -> string) (set : string -> A -> A) d x :
  (forall v y, get (set v y) = v) ->
  get (orDefault get set d x) = if String.eqb (get x) "" then d else get x.
Proof. intros Hgs. unfold orDefault. destruct (String.eqb (get x) ""); [apply Hgs|done]. Qed.

Lemma orDefault_frame {A B : Type} (get : A -> string) (set : string -> A -> A) d
      (proj : A -> B) x :
  (forall v y, proj (set v y) = proj y) -> proj (orDefault get set d x) = proj x.
Proof. intros Hf. unfold orDefault. destruct (String.eqb (get x) ""); [apply Hf|done]. Qed.

Lemma orDefault_id {A : Type} (get : A -> string) (set : string -> A -> A) d x :
  get x ≠ "" -> orDefault get set d x = x.
Proof. intros H. unfold orDefault. by rewrite eqb_empty_false. Qed.

Lemma defaultsTo_value d before after :
  after = (if String.eqb before "" then d else before) -> defaultsTo d before after.
Proof. intros ->. unfold defaultsTo. destruct (String.eqb_spec before ""); split; done. Qed.

Lemma defaultsTo_nonempty d before after :
  d ≠ "" -> defaultsTo d before after -> after ≠ "".
Proof.
  intros Hd [He Hn]. destruct (String.eqb_spec before "") as [E|E].
  - by rewrite (He E).
  - by rewrite (Hn E).
Qed.

(** Rewriting a projection through the chain of defaults of [setDefaults]. *)
Ltac through_defaults proj :=
  unfold setDefaults;
  repeat first
    [ rewrite (orDefault_value proj) by reflexivity
    | rewrite (orDefault_frame _ _ _ proj) by reflexivity ].

Lemma setDefaults_fields cs :
  defaultsTo "1.28.0" (K8sVersion cs) (K8sVersion (setDefaults cs)) ∧
  defaultsTo "10.244.0.0/16" (PodNetworkCIDR cs) (PodNetworkCIDR (setDefaults cs)) ∧
  defaultsTo "10.96.0.0/12" (ServiceCIDR cs) (ServiceCIDR (setDefaults cs)) ∧
  defaultsTo "calico" (CNI cs) (CNI (setDefaults cs)) ∧
  defaultsTo "containerd" (ContainerRuntime cs) (ContainerRuntime (setDefaults cs)).
Proof.
  split; [|split; [|split; [|split]]]; apply defaultsTo_value.
  - by through_defaults K8sVersion.
  - by through_defaults PodNetworkCIDR.
  - by through_defaults ServiceCIDR.
  - by through_defaults CNI.
  - by through_defaults ContainerRuntime.
Qed.

Lemma setDefaults_hosts cs :
  Name (setDefaults cs) = Name cs ∧
  ControlPlanes (setDefaults cs) = ControlPlanes cs ∧
  Workers (setDefaults cs) = Workers cs.
Proof.
  repeat apply conj.
  - by through_defaults Name.
  - by through_defaults ControlPlanes.
  - by through_defaults Workers.
Qed.

Lemma setDefaults_idempotent cs : setDefaults (setDefaults cs) = setDefaults cs.
Proof.
  destruct (setDefaults_fields cs) as (Hk & Hp & Hs & Hc & Hr).
  apply defaultsTo_nonempty in Hk, Hp, Hs, Hc, Hr; try done.
  generalize dependent (setDefaults cs). intros y Hk Hp Hs Hc Hr.
  unfold setDefaults.
  rewrite (orDefault_id K8sVersion) by done.
  rewrite (orDefault_id PodNetworkCIDR) by done.
  rewrite (orDefault_id ServiceCIDR) by done.
  rewrite (orDefault_id CNI) by done.
  by rewrite (orDefault_id ContainerRuntime).
Qed.

Lemma validateHosts_None hosts hs :
  validateHosts hosts = None -> hs ∈ hosts -> (HostSpec_Validate hs).2 = None.
Proof.
  induction hosts as [|h rest IH]; intros Hv Hin; [by apply elem_of_nil in Hin|].
  simpl in Hv. destruct (HostSpec_Validate h).2 eqn:Hh; [done|].
  apply elem_of_cons in Hin as [->|Hin]; auto.
Qed.

Lemma HostSpec_Validate_keyless hs :
  SSHKey hs = "" -> SSHKeyPath hs = "" -> ∃ err, (HostSpec_Validate hs).2 = Some err.
Proof.
  intros Hk Hp. unfold HostSpec_Validate.
  destruct (String.eqb (Address hs) ""); [by eexists|].
  destruct hs as [hn ad us k kp po ro la ta]. simpl in *. subst.
  unfold orDefault. cbn. destruct (String.eqb us ""); cbn;
    destruct (Z.eqb po 0); cbn; by eexists.
Qed.

(** C6, on [Scenario.unnamed] and [Scenario.bareSpec].  A specification with
    an empty name keeps its empty [k8s_version]; and after a successful
    validation the host of the specification still has an empty user, port 0
    and an empty hostname. *)
Lemma Validate_counterexample :
  K8sVersion (ClusterSpec_Validate Scenario.unnamed).1 = ""
  ∧ ClusterSpec_Validate Scenario.bareSpec
    = (setDefaults Scenario.bareSpec, None)
  ∧ ControlPlanes (ClusterSpec_Validate Scenario.bareSpec).1 = [Scenario.bareHost]
  ∧ User Scenario.bareHost = "" ∧ Port Scenario.bareHost = 0%Z
  ∧ Hostname Scenario.bareHost = "".
Proof. repeat split. Qed.

(** C6, as the code has it.  The guards on the name and on the control
    planes come before the defaults; past them every empty field takes its
    default.  [HostSpec.Validate] normalizes its receiver: user and port
    first, then the key check, then the hostname.  A keyless host is
    rejected, and so is a specification that holds one. *)
Theorem Validate_defaults_and_normalization (cs : ClusterSpec) (hs : HostSpec) :
  (Name cs = "" ∨ ControlPlanes cs = [] ->
     ∃ err, ClusterSpec_Validate cs = (cs, Some err))
  ∧ (Name cs ≠ "" -> ControlPlanes cs ≠ [] ->
     let cs' := (ClusterSpec_Validate cs).1 in
     defaultsTo "1.28.0" (K8sVersion cs) (K8sVersion cs') ∧
     defaultsTo "10.244.0.0/16" (PodNetworkCIDR cs) (PodNetworkCIDR cs') ∧
     defaultsTo "10.96.0.0/12" (ServiceCIDR cs) (ServiceCIDR cs') ∧
     defaultsTo "calico" (CNI cs) (CNI cs') ∧
     defaultsTo "containerd" (ContainerRuntime cs) (ContainerRuntime cs'))
  ∧ (Address hs = "" -> ∃ err, HostSpec_Validate hs = (hs, Some err))
  ∧ (Address hs ≠ "" ->
     let hs' := (HostSpec_Validate hs).1 in
     defaultsTo "root" (User hs) (User hs') ∧
     (Port hs = 0%Z -> Port hs' = 22%Z) ∧ (Port hs ≠ 0%Z -> Port hs' = Port hs) ∧
     (SSHKey hs = "" ∧ SSHKeyPath hs = "" ->
        ∃ err, (HostSpec_Validate hs).2 = Some err) ∧
     (¬ (SSHKey hs = "" ∧ SSHKeyPath hs = "") ->
        (HostSpec_Validate hs).2 = None ∧
        defaultsTo (Address hs) (Hostname hs) (Hostname hs')))
  ∧ (hs ∈ ControlPlanes cs ++ Workers cs -> SSHKey hs = "" -> SSHKeyPath hs = "" ->
     ∃ err, (ClusterSpec_Validate cs).2 = Some err).
Proof.
  repeat apply conj.
  - unfold ClusterSpec_Validate. intros [Hn|Hc].
    + rewrite Hn. by eexists.
    + destruct (String.eqb (Name cs) ""); [by eexists|]. rewrite Hc. by eexists.
  - intros Hn Hc. unfold ClusterSpec_Validate. rewrite eqb_empty_false by done.
    destruct (ControlPlanes cs); [done|]. cbn. apply setDefaults_fields.
  - intros Ha. unfold HostSpec_Validate. rewrite Ha. by eexists.
  - intros Ha. unfold HostSpec_Validate. rewrite eqb_empty_false by done.
    destruct hs as [hn ad us k kp po ro la ta]. unfold orDefault, defaultsTo. cbn.
    destruct (String.eqb_spec us ""); cbn; destruct (Z.eqb_spec po 0); cbn;
      destruct (String.eqb_spec k ""); cbn; destruct (String.eqb_spec kp ""); cbn;
      destruct (String.eqb_spec hn ""); cbn;
      repeat split; intros; subst; try done; try (by eexists); intuition congruence.
  - intros Hin Hk Hp. unfold ClusterSpec_Validate.
    destruct (String.eqb (Name cs) ""); [by eexists|].
    destruct (Nat.eqb (length (ControlPlanes cs)) 0); [by eexists|]. cbn.
    destruct (setDefaults_hosts cs) as (_ & -> & ->).
    destruct (validateHosts (ControlPlanes cs ++ Workers cs)) eqn:Hv; [by eexists|].
    destruct (HostSpec_Validate_keyless hs Hk Hp) as [err Herr].
    rewrite (validateHosts_None _ _ Hv Hin) in Herr. done.
Qed.

Lemma Validate_defaults_and_normalization_witness :
  ClusterSpec_Validate Scenario.unnamed
    = (Scenario.unnamed, Some (ErrInvalidSpec "cluster name is required"))
  ∧ K8sVersion (ClusterSpec_Validate Scenario.bareSpec).1 = "1.28.0"
  ∧ User (HostSpec_Validate Scenario.bareHost).1 = "root"
  ∧ Port (HostSpec_Validate Scenario.bareHost).1 = 22%Z
  ∧ Hostname (HostSpec_Validate Scenario.bareHost).1 = "10.0.0.1".
Proof.
  destruct (Validate_defaults_and_normalization Scenario.bareSpec Scenario.bareHost)
    as (_ & Hd & _ & Hh & _).
  destruct Hd as ([Hv _] & _); [done|done|].
  destruct Hh as ([Hu _] & Hp & _ & _ & Hn); [done|].
  destruct Hn as (_ & [Hn _]); [by intros [_ ?]|].
  split; [reflexivity|]. split; [by apply Hv|]. split; [by apply Hu|].
  split; [by apply Hp|by apply Hn].
Defined.

(** Validating twice is validating once, whatever the first validation said. *)
Lemma Validate_twice cs :
  ClusterSpec_Validate (ClusterSpec_Validate cs).1 = ClusterSpec_Validate cs.
Proof.
  unfold ClusterSpec_Validate.
  destruct (String.eqb (Name cs) "") eqn:Hn; cbn [fst]; [by rewrite Hn|].
  destruct (Nat.eqb (length (ControlPlanes cs)) 0) eqn:Hc; cbn [fst].
  { by rewrite Hn, Hc. }
  destruct (setDefaults_hosts cs) as (En & Ec & Ew).
  cbv zeta. rewrite setDefaults_idempotent, En, Hn, !Ec, Hc. done.
Qed.

(** C7.  When validation succeeds on [x] and leaves [x'], validation of [x']
    succeeds and leaves [x']. *)
Theorem Validate_idempotent (x x' : ClusterSpec) :
  ClusterSpec_Validate x = (x', None) -> ClusterSpec_Validate x' = (x', None).
Proof.
  intros H. pose proof (Validate_twice x) as Ht. rewrite H in Ht. exact Ht.
Qed.

Lemma Validate_idempotent_witness :
  ClusterSpec_Validate Scenario.bareSpec = (setDefaults Scenario.bareSpec, None)
  ∧ ClusterSpec_Validate (setDefaults Scenario.bareSpec)
    = (setDefaults Scenario.bareSpec, None).
Proof.
  split; [reflexivity|].
  apply (Validate_idempotent Scenario.bareSpec). reflexivity.
Defined.

(** ** Cluster views *)

(** C8.  The three secret fields are tagged ["-"]: the body of a response
    that carries a cluster, or a list of clusters, is the same whatever
    [Kubeconfig], [JoinCommand] and [CertificateKey] hold. *)
Theorem cluster_views_hide_secrets (c : Cluster) (others : list Cluster)
        (kubeconfig : option string) (joinCommand certificateKey : string) :
  let c' := withSecrets kubeconfig joinCommand certificateKey c in
  marshalCluster c' = marshalCluster c
  ∧ WriteSuccess (marshalCluster c') = WriteSuccess (marshalCluster c)
  ∧ WriteCreated (marshalCluster c') = WriteCreated (marshalCluster c)
  ∧ WriteSuccess (JArray (marshalCluster <$> c' :: others))
    = WriteSuccess (JArray (marshalCluster <$> c :: others)).
Proof.
  assert (marshalCluster (withSecrets kubeconfig joinCommand certificateKey c)
          = marshalCluster c) as H.
  { unfold marshalCluster, marshalStruct, Cluster_fields.
    destruct kubeconfig, (Cluster_Kubeconfig c); reflexivity. }
  cbn zeta. rewrite !fmap_cons, H. done.
Qed.

(** ** Reasoning about sequenced calls *)

Lemma wp_ret {S A : Type} (a : A) (Q : outcome A -> S -> Prop) s :
  Q (Done a) s -> wp (ret a) Q s.
Proof. done. Qed.

Lemma wp_bind {S A B : Type} (m : M S A) (k : A -> M S B)
      (R : outcome A -> S -> Prop) (Q : outcome B -> S -> Prop) s :
  wp m R s ->
  (forall r s1, R r s1 ->
     match r with
     | Done a => wp (k a) Q s1
     | Panicked msg => Q (Panicked msg) s1
     | Blocked => Q Blocked s1
     end) ->
  wp (bind m k) Q s.
Proof.
  unfold wp, bind. intros HR Hk. specialize (Hk _ _ HR).
  destruct (m s) as [[a|msg|] s1]; simpl in *; done.
Qed.

Lemma wp_bind_ret {S A B : Type} (a : A) (k : A -> M S B) Q s :
  wp (k a) Q s -> wp (bind (ret a) k) Q s.
Proof. done. Qed.

Lemma wp_mono {S A : Type} (m : M S A) (R Q : outcome A -> S -> Prop) s :
  wp m R s -> (forall r s1, R r s1 -> Q r s1) -> wp m Q s.
Proof. unfold wp. auto. Qed.

Lemma wp_run {S A : Type} (m : M S A) (a : A) (Q : S -> Prop) s :
  wp m (fun r s' => r = Done a ∧ Q s') s -> ∃ s', m s = (Done a, s') ∧ Q s'.
Proof.
  unfold wp. destruct (m s) as [r s']. simpl. intros [-> HQ]. by exists s'.
Qed.

Lemma evolves_refl cid st : evolves cid [] st st.
Proof. split; [exists []; by rewrite app_nil_r|]. split; [cbn; lia|done]. Qed.

Lemma evolves_trans cid a b st st1 st2 :
  evolves cid a st st1 -> evolves cid b st1 st2 -> evolves cid (a ++ b) st st2.
Proof.
  intros [(n1 & E1 & S1) [H1 L1]] [(n2 & E2 & S2) [H2 L2]].
  split; [|split; [|auto]].
  - exists (n1 ++ n2). rewrite E2, E1, <- app_assoc, fmap_app, S1, S2. done.
  - rewrite H2, H1, length_app. lia.
Qed.

Lemma evolves_live cid added st st' : evolves cid added st st' -> live cid st -> live cid st'.
Proof. intros (_ & _ & H). exact H. Qed.

Lemma statusIs_same_clusters cid s st st' :
  clusters (store st') = clusters (store st) -> statusIs cid s st -> statusIs cid s st'.
Proof. unfold statusIs. by intros ->. Qed.

(** ** Room in the channel of the hub *)

Lemma room_le W m n st : (m <= n)%nat -> room W n st -> room W m st.
Proof. unfold room. destruct (Hub_receives W); [lia|done]. Qed.

Lemma room_hasRoom W st :
  room W 1 st <-> broadcastHasRoom W (length (hub st)) = true.
Proof.
  unfold room, broadcastHasRoom. destruct (Hub_receives W) as [received|]; [|done].
  rewrite Nat.ltb_lt. lia.
Qed.

Lemma room_dec W n st : room W n st ∨ ¬ room W n st.
Proof.
  unfold room. destruct (Hub_receives W) as [received|]; [|by left].
  destruct (le_lt_dec (length (hub st) + n) (received + broadcastCapacity)); [by left|].
  right. lia.
Qed.

Lemma evolves_room W cid added n st st' :
  evolves cid added st st' -> room W (length added + n) st -> room W n st'.
Proof.
  intros (_ & H & _). unfold room. destruct (Hub_receives W); [|done].
  rewrite H. lia.
Qed.

(** ** The steps of the orchestrator *)

Section Steps.

Context (W : World) (registry : gmap string ProvisionerFactory) (cid : N).

Lemma liftEnv_step {A : Type} (m : M Env A) st :
  wp (liftEnv m)
     (fun r st' => r = fst (m (env st)) ∧ evolves cid [] st st' ∧
                   store st' = store st) st.
Proof.
  unfold wp, liftEnv. destruct (m (env st)) as [r e]. simpl.
  split; [done|]. split; [|done].
  split; [exists []; by rewrite app_nil_r|]. split; [cbn; lia|done].
Qed.

(** [logEvent] persists the event and hands it to the hub; it returns when
    the channel takes the message. *)
Lemma logEvent_step lvl h s msg st :
  room W 1 st ->
  wp (logEvent W cid lvl h s msg)
     (fun r st' => r = Done tt ∧ evolves cid [(lvl, h, s, msg)] st st' ∧
                   clusters (store st') = clusters (store st)) st.
Proof.
  intros Hroom%room_hasRoom. unfold wp. cbn. rewrite Hroom.
  split; [done|]. split; [|done].
  split; [by eexists [_]|]. split; [|done]. cbn. rewrite length_app. cbn. lia.
Qed.

(** And it stays blocked in the send when the channel is full: the event is
    persisted, and nothing else has changed. *)
Lemma logEvent_blocks lvl h s msg st :
  ¬ room W 1 st ->
  wp (logEvent W cid lvl h s msg)
     (fun r st' => r = Blocked ∧ evolves cid [(lvl, h, s, msg)] st st' ∧
                   clusters (store st') = clusters (store st) ∧
                   statusWrites st' = statusWrites st) st.
Proof.
  intros Hroom. unfold wp. cbn.
  destruct (broadcastHasRoom W (length (hub st))) eqn:Hb;
    [by apply room_hasRoom in Hb|].
  split; [done|]. split; [|done].
  split; [by eexists [_]|]. split; [|done]. cbn. rewrite length_app. cbn. lia.
Qed.

Lemma UpdateStatus_step status st :
  wp (UpdateStatus W cid status)
     (fun r st' => r = Done tt ∧ evolves cid [] st st' ∧
                   (live cid st -> statusIs cid status st')) st.
Proof.
  unfold wp. simpl.
  assert (live cid st -> statusIs cid status (snd (UpdateStatus W cid status st))) as H.
  { intros (c & Hc & Hd). unfold statusIs. simpl.
    rewrite lookup_alter_eq, Hc. simpl. rewrite Hd. eexists. done. }
  split; [done|]. split; [|done].
  split; [exists []; by rewrite app_nil_r|]. split; [cbn; lia|].
  intros Hl. destruct (H Hl) as (c & ? & ? & ?). by exists c.
Qed.

Lemma UpdateSecrets_step kc jc ck st :
  wp (UpdateSecrets W cid kc jc ck)
     (fun r st' => r = Done tt ∧ evolves cid [] st st') st.
Proof.
  unfold wp. simpl. split; [done|].
  split; [exists []; by rewrite app_nil_r|]. split; [cbn; lia|].
  intros (c & Hc & Hd). unfold live. simpl.
  rewrite lookup_alter_eq, Hc. simpl. rewrite Hd. eexists. done.
Qed.

Lemma logError_step msg err st :
  room W 1 st ->
  wp (logError W cid msg err)
     (fun r st' => r = Done tt ∧
        evolves cid [("error", "localhost", "error", msg +:+ ": " +:+ err)] st st' ∧
        (live cid st -> statusIs cid "failed" st')) st.
Proof.
  intros Hroom. unfold logError. eapply wp_bind; [by apply logEvent_step|].
  intros r s1 (-> & Hev & _). eapply wp_mono; [apply UpdateStatus_step|].
  intros r s2 (-> & Hev2 & Hst). split; [done|]. split.
  - eapply (evolves_trans _ [_] []); eauto.
  - intros Hl. eapply Hst, evolves_live; eauto.
Qed.

Lemma room_first n st : room W (S n) st -> room W 1 st.
Proof. apply room_le. lia. Qed.

Lemma room_after n x st st' : evolves cid [x] st st' -> room W (S n) st -> room W n st'.
Proof. intros E. by apply (evolves_room W cid [x] n). Qed.

Lemma room_kept n st st' : evolves cid [] st st' -> room W n st -> room W n st'.
Proof. intros E. by apply (evolves_room W cid [] n). Qed.

(** What [logError] is called for after a call that is allowed to fail. *)
Lemma failure_step msg answer st :
  room W (length (failureEvents msg answer)) st ->
  wp (if answer is Some err then logError W cid msg err else ret tt)
     (fun r st' => r = Done tt ∧ evolves cid (failureEvents msg answer) st st') st.
Proof.
  intros Hroom. destruct answer as [err|]; cbn [failureEvents].
  - eapply wp_mono; [by apply logError_step|]. intros r s1 (-> & E & _). done.
  - apply wp_ret. split; [done|apply evolves_refl].
Qed.

(** The loop over the further control planes, given the answer of each join:
    each join is called, with the join command and the certificate key of
    the bootstrap. *)
Lemma joinControlPlanes_run P cps result answer st :
  Forall (fun cp => forall e,
            fst (JoinControlPlane P cp (resJoinCommand result)
                                  (resCertificateKey result) e) = Done (answer cp)) cps ->
  room W (length (joinEvents joinControlPlaneEvent "Failed to join control plane"
                             answer cps)) st ->
  wp (joinControlPlanes W P cid cps result)
     (fun r st' => r = Done tt ∧
        evolves cid (joinEvents joinControlPlaneEvent "Failed to join control plane"
                                answer cps) st st') st.
Proof.
  intros Hjoin. revert st. induction Hjoin as [|cp rest Hcp _ IH]; intros st Hroom.
  - apply wp_ret. split; [done|apply evolves_refl].
  - cbn [joinControlPlanes]. cbn [joinEvents flat_map app length] in Hroom |- *.
    fold (joinEvents joinControlPlaneEvent "Failed to join control plane" answer rest)
      in Hroom |- *.
    rewrite length_app in Hroom.
    eapply wp_bind; [eapply logEvent_step, room_first, Hroom|].
    intros r s1 (-> & E1 & _). apply (room_after _ _ _ _ E1) in Hroom.
    eapply wp_bind; [apply liftEnv_step|]. intros r s2 (Hr & E2 & _).
    apply (room_kept _ _ _ E2) in Hroom. rewrite Hcp in Hr. subst r.
    eapply wp_bind;
      [eapply failure_step, room_le, Hroom; lia|].
    intros r s3 (-> & E3).
    apply (evolves_room _ _ _ _ _ _ E3) in Hroom.
    eapply wp_mono; [by apply IH|]. intros r s4 (-> & E4). split; [done|].
    change (?x :: ?l ++ ?k) with ([x] ++ [] ++ l ++ k).
    eauto using evolves_trans.
Qed.

(** The loop over the workers, given the answer of each join. *)
Lemma joinWorkers_run P ws result answer st :
  Forall (fun w => forall e,
            fst (JoinWorker P w (resJoinCommand result) e) = Done (answer w)) ws ->
  room W (length (joinEvents joinWorkerEvent "Failed to join worker" answer ws)) st ->
  wp (joinWorkers W P cid ws result)
     (fun r st' => r = Done tt ∧
        evolves cid (joinEvents joinWorkerEvent "Failed to join worker" answer ws)
                st st') st.
Proof.
  intros Hjoin. revert st. induction Hjoin as [|w rest Hw _ IH]; intros st Hroom.
  - apply wp_ret. split; [done|apply evolves_refl].
  - cbn [joinWorkers]. cbn [joinEvents flat_map app length] in Hroom |- *.
    fold (joinEvents joinWorkerEvent "Failed to join worker" answer rest) in Hroom |- *.
    rewrite length_app in Hroom.
    eapply wp_bind; [eapply logEvent_step, room_first, Hroom|].
    intros r s1 (-> & E1 & _). apply (room_after _ _ _ _ E1) in Hroom.
    eapply wp_bind; [apply liftEnv_step|]. intros r s2 (Hr & E2 & _).
    apply (room_kept _ _ _ E2) in Hroom. rewrite Hw in Hr. subst r.
    eapply wp_bind;
      [eapply failure_step, room_le, Hroom; lia|].
    intros r s3 (-> & E3).
    apply (evolves_room _ _ _ _ _ _ E3) in Hroom.
    eapply wp_mono; [by apply IH|]. intros r s4 (-> & E4). split; [done|].
    change (?x :: ?l ++ ?k) with ([x] ++ [] ++ l ++ k).
    eauto using evolves_trans.
Qed.

End Steps.

(** ** The jobs table *)

Create HintDb jobs.

Section Jobs.

Context (W : World) (registry : gmap string ProvisionerFactory).

Lemma keepsJobs_ret {A : Type} (a : A) : keepsJobs (ret a).
Proof. done. Qed.

Lemma keepsJobs_panic {A : Type} msg : keepsJobs (@panic State A msg).
Proof. done. Qed.

Lemma keepsJobs_bind {A B : Type} (m : M State A) (k : A -> M State B) :
  keepsJobs m -> (forall a, keepsJobs (k a)) -> keepsJobs (bind m k).
Proof.
  intros Hm Hk st. unfold bind. specialize (Hm st).
  destruct (m st) as [[a|msg|] st1]; simpl in *; [|done|done].
  rewrite Hk. done.
Qed.

Lemma keepsJobs_liftEnv {A : Type} (m : M Env A) : keepsJobs (liftEnv m).
Proof. intros st. unfold liftEnv. destruct (m (env st)); done. Qed.

Lemma keepsJobs_logEvent cid lvl h s msg : keepsJobs (logEvent W cid lvl h s msg).
Proof. done. Qed.

Lemma keepsJobs_UpdateStatus cid status : keepsJobs (UpdateStatus W cid status).
Proof. done. Qed.

Lemma keepsJobs_UpdateSecrets cid kc jc ck : keepsJobs (UpdateSecrets W cid kc jc ck).
Proof. done. Qed.

Lemma keepsJobs_logError cid msg err : keepsJobs (logError W cid msg err).
Proof.
  apply keepsJobs_bind; [apply keepsJobs_logEvent|]. intros _.
  apply keepsJobs_UpdateStatus.
Qed.

End Jobs.

#[global] Hint Resolve keepsJobs_ret keepsJobs_panic keepsJobs_liftEnv keepsJobs_logEvent
  keepsJobs_UpdateStatus keepsJobs_UpdateSecrets keepsJobs_logError : jobs.

Ltac keeps_jobs :=
  repeat first
    [ progress auto with jobs
    | apply keepsJobs_bind; [|intros ?]
    | match goal with
      | |- keepsJobs (match ?x with _ => _ end) => destruct x
      end ].

Lemma keepsJobs_joinControlPlanes W P cid cps result :
  keepsJobs (joinControlPlanes W P cid cps result).
Proof. induction cps as [|cp rest IH]; simpl; keeps_jobs. Qed.

Lemma keepsJobs_joinWorkers W P cid ws result :
  keepsJobs (joinWorkers W P cid ws result).
Proof. induction ws as [|w rest IH]; simpl; keeps_jobs. Qed.

#[global] Hint Resolve keepsJobs_joinControlPlanes keepsJobs_joinWorkers : jobs.

(** The provisioning task never writes to the jobs table, whatever the
    provisioner and the hosts do, and also when it panics. *)
Lemma keepsJobs_provisionCluster W registry cid req :
  keepsJobs (provisionCluster W registry cid req).
Proof. unfold provisionCluster. keeps_jobs. Qed.

Lemma createNodes_step W cid role hosts st :
  wp (createNodes W cid role hosts)
     (fun r st' => r = Done tt ∧ jobs (store st') = jobs (store st) ∧
                   clusters (store st') = clusters (store st)) st.
Proof.
  revert st. induction hosts as [|h rest IH]; intros st; [done|].
  cbn [createNodes].
  eapply wp_bind; [apply (liftEnv_step 0%N)|]. intros r s1 (-> & _ & E1).
  eapply wp_bind; [apply (liftEnv_step 0%N)|]. intros r s2 (-> & _ & E2).
  eapply wp_bind with (R := fun r st' => r = Done tt ∧ jobs (store st') = jobs (store s2)
                                         ∧ clusters (store st') = clusters (store s2)).
  { done. }
  intros r s3 (-> & J3 & C3). eapply wp_mono; [apply IH|].
  intros r s4 (-> & J4 & C4). rewrite J4, J3, C4, C3, E2, E1. done.
Qed.

Lemma name_is_free (m : gmap N Cluster) name :
  (forall id c, m !! id = Some c -> Cluster_Name c ≠ name) ->
  existsb (fun kv => String.eqb (Cluster_Name (snd kv)) name) (map_to_list m) = false.
Proof.
  intros Hfree. apply not_true_is_false. intros H.
  apply existsb_exists in H as ([id c] & Hin & Heq).
  apply list_elem_of_In, elem_of_map_to_list in Hin.
  apply String.eqb_eq in Heq. by eapply Hfree.
Qed.

(** The create handler leaves one new job: of type provision, pending, at
    progress 0, for the cluster it has created. *)
Lemma CreateCluster_job W registry req st :
  Req_Name req ≠ "" -> Req_ControlPlanes req ≠ [] ->
  (forall id c, clusters (store st) !! id = Some c -> Cluster_Name c ≠ Req_Name req) ->
  wp (CreateCluster W registry (Some req))
     (fun r st' =>
        (∃ response, r = Done (response, Some (nextID (size (clusters (store st))), req))) ∧
        ∃ j, jobs (store st') = jobs (store st) ++ [j] ∧
             Job_ClusterID j = nextID (size (clusters (store st))) ∧
             Job_Type j = "provision" ∧ Job_Status j = "pending" ∧
             Job_Progress j = 0%Z ∧ Job_Error j = "" ∧
             Job_StartedAt j = None ∧ Job_FinishedAt j = None) st.
Proof.
  intros Hname Hcps Hfree. unfold CreateCluster.
  rewrite eqb_empty_false by done.
  destruct (Req_ControlPlanes req) as [|cp0 cps] eqn:Ecps; [done|]. cbn [length Nat.eqb].
  eapply wp_bind; [apply (liftEnv_step 0%N)|]. intros r s1 (-> & _ & E1).
  eapply wp_bind; [apply (liftEnv_step 0%N)|]. intros r s2 (-> & _ & E2).
  set (id := nextID (size (clusters (store st)))).
  eapply wp_bind with
    (R := fun r st' => (∃ c, r = Done (Ok c) ∧ Cluster_ID c = id) ∧
                       jobs (store st') = jobs (store st)).
  { unfold wp, CreateClusterRow, bind, getStore. cbn [fst snd].
    rewrite E2, E1. cbn [Cluster_Name]. rewrite name_is_free by done.
    cbn. split; [by eexists|done]. }
  intros r s3 ((c & -> & Hid) & J3). rewrite Hid.
  eapply wp_bind; [apply createNodes_step|]. intros r s4 (-> & J4 & _).
  eapply wp_bind; [apply createNodes_step|]. intros r s5 (-> & J5 & _).
  eapply wp_bind; [apply (liftEnv_step 0%N)|]. intros r s6 (-> & _ & E6).
  eapply wp_bind; [apply (liftEnv_step 0%N)|]. intros r s7 (-> & _ & E7).
  unfold wp. cbn.
  assert (jobs (store s7) = jobs (store st)) as J7 by (by rewrite E7, E6, J5, J4, J3).
  unfold bind, behind, getStore, putStore, ret. cbn [fst snd store jobs].
  rewrite J7. split; [by eexists|]. eexists. split; [done|]. done.
Qed.

(** C3, on two scripted runs.  With every command succeeding the cluster
    ends ready while its job is still pending at progress 0, never started;
    with a failing [kubeadm init] the cluster ends failed while its job is
    still pending, with no error text. *)
Lemma job_lifecycle_counterexample :
  let done_ := (serveCreateCluster Scenario.allSucceed
                  (provisionerRegistry Scenario.allSucceed)
                  (Some Scenario.oneNode) Scenario.start).2 in
  let failed := (serveCreateCluster Scenario.initFails
                   (provisionerRegistry Scenario.initFails)
                   (Some Scenario.oneNode) Scenario.start).2 in
  (Cluster_Status <$> clusters (store done_) !! 1%N = Some "ready"
   ∧ (fun j => (Job_Status j, Job_Progress j, Job_StartedAt j)) <$> jobs (store done_)
     = [("pending", 0%Z, None)])
  ∧ (Cluster_Status <$> clusters (store failed) !! 1%N = Some "failed"
     ∧ (fun j => (Job_Status j, Job_Error j, Job_FinishedAt j)) <$> jobs (store failed)
       = [("pending", "", None)]).
Proof. vm_compute. done. Qed.

(** C3, as the code has it.  The provisioning task leaves the jobs table
    untouched; so a create request that is accepted ends, however the
    provisioning goes, with exactly one new job, which is of type provision,
    pending, at progress 0, without error text, start or finish time. *)
Theorem job_is_created_pending_and_never_updated
        (W : World) (registry : gmap string ProvisionerFactory)
        (req : CreateClusterRequest) (st : State) :
  Req_Name req ≠ "" -> Req_ControlPlanes req ≠ [] ->
  (forall id c, clusters (store st) !! id = Some c -> Cluster_Name c ≠ Req_Name req) ->
  (forall cid req0 st0,
     jobs (store (provisionCluster W registry cid req0 st0).2) = jobs (store st0))
  ∧ ∃ j, jobs (store (serveCreateCluster W registry (Some req) st).2)
         = jobs (store st) ++ [j] ∧
         Job_ClusterID j = nextID (size (clusters (store st))) ∧
         Job_Type j = "provision" ∧ Job_Status j = "pending" ∧
         Job_Progress j = 0%Z ∧ Job_Error j = "" ∧
         Job_StartedAt j = None ∧ Job_FinishedAt j = None.
Proof.
  intros Hname Hcps Hfree. split; [intros; apply keepsJobs_provisionCluster|].
  unfold serveCreateCluster.
  pose proof (CreateCluster_job W registry req st Hname Hcps Hfree) as H.
  unfold wp in H. unfold bind.
  destruct (CreateCluster W registry (Some req) st) as [r s1]. cbn [fst snd] in H.
  destruct H as ((response & ->) & j & Hj & Hrest).
  exists j. split; [|exact Hrest]. rewrite <- Hj.
  pose proof (keepsJobs_provisionCluster W registry
                (nextID (size (clusters (store st)))) req s1) as Hk.
  unfold bind.
  destruct (provisionCluster W registry _ req s1) as [[[]|msg|] s2]; exact Hk.
Qed.

Lemma job_is_created_pending_and_never_updated_witness :
  (fun j => (Job_ClusterID j, Job_Status j, Job_Progress j))
    <$> jobs (store (serveCreateCluster Scenario.workerJoinFails
                       (provisionerRegistry Scenario.workerJoinFails)
                       (Some Scenario.oneWorker) Scenario.start).2)
  = [(1%N, "pending", 0%Z)].
Proof.
  destruct (job_is_created_pending_and_never_updated Scenario.workerJoinFails
              (provisionerRegistry Scenario.workerJoinFails)
              Scenario.oneWorker Scenario.start)
    as (_ & j & -> & Hc & _ & Hs & Hp & _); [done|done|by intros id c ?|].
  cbn. rewrite Hc, Hs, Hp. reflexivity.
Defined.

(** ** Runs of the provisioning task *)

(** The end-to-end scenario of a single node with a scripted shell that
    always succeeds: the cluster ends ready with the join command and the
    certificate key of the transcript, and one event per step. *)
Example single_node_run :
  let final := (serveCreateCluster Scenario.allSucceed
                  (provisionerRegistry Scenario.allSucceed)
                  (Some Scenario.oneNode) Scenario.start).2 in
  (fun c => (Cluster_Status c, Cluster_JoinCommand c, Cluster_CertificateKey c))
    <$> clusters (store final) !! 1%N
  = Some ("ready",
          "kubeadm join 10.0.0.1:6443 --token abc --discovery-token-ca-cert-hash sha256:xyz",
          "KEY")
  ∧ Event_Step <$> events (store final) = ["prepare"; "bootstrap"; "cni"; "complete"]
  ∧ statusWrites final = [(1%N, "provisioning"); (1%N, "ready")].
Proof. vm_compute. done. Qed.

(** C1.  Two scripted runs of the provisioning task.  When the join of the
    worker fails, and likewise when applying the CNI manifest fails, the
    task writes [failed] to the status of the cluster and later writes
    [ready] to it. *)
Theorem status_written_failed_then_ready :
  statusWrites (serveCreateCluster Scenario.workerJoinFails
                  (provisionerRegistry Scenario.workerJoinFails)
                  (Some Scenario.oneWorker) Scenario.start).2
  = [(1%N, "provisioning"); (1%N, "failed"); (1%N, "ready")]
  ∧ statusWrites (serveCreateCluster Scenario.applyFails
                    (provisionerRegistry Scenario.applyFails)
                    (Some Scenario.oneNode) Scenario.start).2
    = [(1%N, "provisioning"); (1%N, "failed"); (1%N, "ready")].
Proof. vm_compute. done. Qed.

(** C4, on the scripted run in which the join command fails on the worker
    10.0.0.2.  The cluster ends ready; no event of level error has step
    [join]; the error of the join is recorded with step [error] and host
    [localhost], and the only event of step [join] for the address of the
    worker is of level info. *)
Lemma worker_join_failure_counterexample :
  let final := (serveCreateCluster Scenario.workerJoinFails
                  (provisionerRegistry Scenario.workerJoinFails)
                  (Some Scenario.oneWorker) Scenario.start).2 in
  Cluster_Status <$> clusters (store final) !! 1%N = Some "ready"
  ∧ filter (fun e => Event_Level e = "error" ∧ Event_Step e = "join")
           (events (store final)) = []
  ∧ summary <$> filter (fun e => Event_Level e = "error") (events (store final))
    = [("error", "localhost", "error",
        "Failed to join worker: failed to join worker: scripted failure: Process exited with status 1")]
  ∧ summary <$> filter (fun e => Event_Host e = "10.0.0.2") (events (store final))
    = [("info", "10.0.0.2", "join", "Joining worker")].
Proof. vm_compute. done. Qed.

Lemma joinEvents_none before message hosts :
  joinEvents before message (fun _ => None) hosts = before <$> hosts.
Proof. induction hosts as [|h rest IH]; [done|]. cbn. by rewrite <- IH. Qed.

Lemma provisionerRegistry_kubeadm W :
  GetProvisioner (provisionerRegistry W) "kubeadm" ∅
  = Ok (Kubeadm W (mkKubeadmProvisioner None)).
Proof. unfold GetProvisioner, provisionerRegistry. by rewrite lookup_insert_eq. Qed.

Section Runs.

Context (W : World) (registry : gmap string ProvisionerFactory) (cid : N).

(** A run that gets past the bootstrap goes through to the end, whatever
    [InstallCNI] and the joins answer, as long as the channel of the hub
    takes its events: the cluster is ready and the events are those of
    [completeRun]. *)
Lemma run_completes P req spec cp0 cps kc jc ck cniAnswer cpAnswer wAnswer st :
  GetProvisioner registry "kubeadm" ∅ = Ok P ->
  live cid st ->
  ControlPlanes spec = cp0 :: cps ->
  (forall e, fst (ValidateSpec P (specOfRequest req) e) = Done (spec, None)) ->
  (forall e, fst (PrepareHosts P (ControlPlanes spec ++ Workers spec)
                    (ContainerRuntime spec) (K8sVersion spec) e) = Done None) ->
  bootstraps P cp0 spec kc jc ck ->
  (forall e, fst (InstallCNI P kc (CNI spec) cp0 e) = Done cniAnswer) ->
  Forall (fun cp => forall e, fst (JoinControlPlane P cp jc ck e) = Done (cpAnswer cp)) cps ->
  Forall (fun w => forall e, fst (JoinWorker P w jc e) = Done (wAnswer w)) (Workers spec) ->
  room W (length (completeRun cp0 cps (Workers spec) cniAnswer cpAnswer wAnswer)) st ->
  ∃ st', provisionCluster W registry cid req st = (Done tt, st') ∧
    statusIs cid "ready" st' ∧
    evolves cid (completeRun cp0 cps (Workers spec) cniAnswer cpAnswer wAnswer) st st'.
Proof.
  intros Hreg Hlive Hcps Hval Hprep Hboot Hcni Hjcp Hjw Hroom.
  apply wp_run. unfold provisionCluster, completeRun in *.
  rewrite !length_app in Hroom. cbn [length Nat.add] in Hroom.
  eapply wp_bind; [apply UpdateStatus_step|]. intros r s1 (-> & E1 & _).
  apply (room_kept _ _ _ _ _ E1) in Hroom.
  rewrite Hreg.
  eapply wp_bind; [apply (liftEnv_step cid)|]. intros r s2 (Hr & E2 & _).
  apply (room_kept _ _ _ _ _ E2) in Hroom.
  rewrite Hval in Hr. subst r. cbv beta iota.
  eapply wp_bind; [eapply logEvent_step, room_first, Hroom|]. intros r s3 (-> & E3 & _).
  apply (room_after _ _ _ _ _ _ E3) in Hroom.
  eapply wp_bind; [apply (liftEnv_step cid)|]. intros r s4 (Hr & E4 & _).
  apply (room_kept _ _ _ _ _ E4) in Hroom.
  rewrite Hprep in Hr. subst r. rewrite Hcps.
  eapply wp_bind; [eapply logEvent_step, room_first, Hroom|]. intros r s5 (-> & E5 & _).
  apply (room_after _ _ _ _ _ _ E5) in Hroom.
  eapply wp_bind; [apply (liftEnv_step cid)|]. intros r s6 (Hr & E6 & _).
  apply (room_kept _ _ _ _ _ E6) in Hroom.
  destruct (Hboot (env s5)) as (result & Hres & <- & <- & <-).
  rewrite Hres in Hr. subst r. cbv beta iota.
  eapply wp_bind; [apply UpdateSecrets_step|]. intros r s7 (-> & E7).
  apply (room_kept _ _ _ _ _ E7) in Hroom.
  eapply wp_bind; [eapply logEvent_step, room_first, Hroom|]. intros r s8 (-> & E8 & _).
  apply (room_after _ _ _ _ _ _ E8) in Hroom.
  eapply wp_bind; [apply (liftEnv_step cid)|]. intros r s9 (Hr & E9 & _).
  apply (room_kept _ _ _ _ _ E9) in Hroom.
  rewrite Hcni in Hr. subst r.
  eapply wp_bind; [eapply failure_step, room_le, Hroom; lia|]. intros r s10 (-> & E10).
  apply (evolves_room _ _ _ _ _ _ E10) in Hroom.
  eapply wp_bind; [eapply joinControlPlanes_run, room_le, Hroom; [done|lia]|].
  intros r s11 (-> & E11).
  apply (evolves_room _ _ _ _ _ _ E11) in Hroom.
  eapply wp_bind; [eapply joinWorkers_run, room_le, Hroom; [done|lia]|].
  intros r s12 (-> & E12).
  apply (evolves_room _ _ _ _ _ _ E12) in Hroom.
  eapply wp_bind; [apply UpdateStatus_step|]. intros r s13 (-> & E13 & Hready).
  apply (room_kept _ _ _ _ _ E13) in Hroom.
  eapply wp_mono; [by eapply logEvent_step|]. intros r s14 (-> & E14 & Hsame).
  split; [done|].
  assert (evolves cid
            ([] ++ [] ++ [("info", "localhost", "prepare", "Preparing hosts")] ++ [] ++
             [("info", Address cp0, "bootstrap", "Bootstrapping control plane")] ++ [] ++
             [] ++ [("info", Address cp0, "cni", "Installing CNI")] ++ [] ++
             failureEvents "Failed to install CNI" cniAnswer ++
             joinEvents joinControlPlaneEvent "Failed to join control plane" cpAnswer cps ++
             joinEvents joinWorkerEvent "Failed to join worker" wAnswer (Workers spec))
            st s12) as E.
  { repeat (eapply evolves_trans; [eassumption|]). eassumption. }
  split.
  - eapply statusIs_same_clusters; [exact Hsame|]. apply Hready.
    by eapply evolves_live.
  - cbn [app] in E |- *.
    pose proof (evolves_trans _ _ _ _ _ _ E
                  (evolves_trans _ _ _ _ _ _ E13 E14)) as E'.
    cbn [app] in E'. by rewrite <- !app_assoc in E'.
Qed.

End Runs.

(** C4, as the code has it.  For any provisioner: when validation, host
    preparation, bootstrap, CNI installation and the joins of the further
    control planes succeed, the join of the single worker fails with
    [joinErr], and the channel of the hub takes the events of the run, the
    task returns, the cluster is ready, and the events of the run are
    exactly: prepare, bootstrap, cni, one join per further control plane, the
    info event of step [join] for the address of the worker, the error event
    of step [error] on [localhost] with the text of [joinErr], and complete.
    No event of level error has another step or host. *)
Theorem worker_join_failure_is_logged_and_not_fatal
        (W : World) (registry : gmap string ProvisionerFactory) (cid : N)
        (P : IProvisioner) (req : CreateClusterRequest) (spec : ClusterSpec)
        (cp0 : HostSpec) (cps : list HostSpec) (worker : HostSpec)
        (kubeconfig joinCommand certificateKey : string)
        (joinErr : error) (st : State) :
  GetProvisioner registry "kubeadm" ∅ = Ok P ->
  live cid st ->
  room W (6 + length cps) st ->
  ControlPlanes spec = cp0 :: cps ->
  Workers spec = [worker] ->
  (forall e, fst (ValidateSpec P (specOfRequest req) e) = Done (spec, None)) ->
  (forall e, fst (PrepareHosts P (ControlPlanes spec ++ Workers spec)
                    (ContainerRuntime spec) (K8sVersion spec) e) = Done None) ->
  bootstraps P cp0 spec kubeconfig joinCommand certificateKey ->
  (forall e, fst (InstallCNI P kubeconfig (CNI spec) cp0 e) = Done None) ->
  Forall (fun cp => forall e,
            fst (JoinControlPlane P cp joinCommand certificateKey e) = Done None) cps ->
  (forall e, fst (JoinWorker P worker joinCommand e) = Done (Some joinErr)) ->
  ∃ st', provisionCluster W registry cid req st = (Done tt, st') ∧
    statusIs cid "ready" st' ∧
    ∃ new, events (store st') = events (store st) ++ new ∧
      summary <$> new =
        [ ("info", "localhost", "prepare", "Preparing hosts");
          ("info", Address cp0, "bootstrap", "Bootstrapping control plane");
          ("info", Address cp0, "cni", "Installing CNI") ]
        ++ (joinControlPlaneEvent <$> cps)
        ++ [ ("info", Address worker, "join", "Joining worker");
             ("error", "localhost", "error", "Failed to join worker: " +:+ joinErr);
             ("info", "localhost", "complete", "Cluster provisioned successfully") ] ∧
      (forall e, e ∈ new -> Event_Level e = "error" ->
         Event_Step e = "error" ∧ Event_Host e = "localhost").
Proof.
  intros Hreg Hlive Hroom Hcps Hws Hval Hprep Hboot Hcni Hjcp Hjw.
  destruct (run_completes W registry cid P req spec cp0 cps kubeconfig joinCommand
              certificateKey None (fun _ => None) (fun _ => Some joinErr) st)
    as (st' & Hrun & Hready & (new & Hnew & Hsum) & _); try done.
  { rewrite Hws. by repeat constructor. }
  { eapply room_le; [|exact Hroom]. unfold completeRun. rewrite Hws.
    rewrite joinEvents_none, !length_app, length_fmap. cbn. lia. }
  exists st'. split; [exact Hrun|]. split; [exact Hready|].
  unfold completeRun in Hsum. rewrite Hws, joinEvents_none in Hsum.
  cbn [failureEvents joinEvents flat_map app] in Hsum.
  exists new. split; [exact Hnew|]. split; [rewrite Hsum; reflexivity|].
  intros e He Hlvl. apply (list_elem_of_fmap_2 summary) in He.
  rewrite Hsum in He.
  rewrite !elem_of_cons, !elem_of_app, !elem_of_cons, elem_of_nil,
    list_elem_of_fmap in He.
  unfold summary, joinControlPlaneEvent, joinWorkerEvent, errorEvent in He.
  destruct He as [He|[He|[He|[(cp & He & _)|[He|[He|[He|[]]]]]]]];
    injection He as H1 H2 H3 H4; split; congruence.
Qed.

(** The scripted run with the registered kubeadm provisioner: the join
    command fails on the worker 10.0.0.2. *)
Lemma worker_join_failure_is_logged_and_not_fatal_witness :
  live 1%N (Scenario.accepted Scenario.workerJoinFails Scenario.oneWorker)
  ∧ ∃ st', provisionCluster Scenario.workerJoinFails
             (provisionerRegistry Scenario.workerJoinFails) 1%N
             Scenario.oneWorker
             (Scenario.accepted Scenario.workerJoinFails Scenario.oneWorker)
           = (Done tt, st')
    ∧ statusIs 1%N "ready" st'.
Proof.
  assert (live 1%N (Scenario.accepted Scenario.workerJoinFails Scenario.oneWorker))
    as Hlive.
  { eexists. split; [vm_compute; reflexivity|reflexivity]. }
  split; [exact Hlive|].
  destruct (worker_join_failure_is_logged_and_not_fatal
              Scenario.workerJoinFails (provisionerRegistry Scenario.workerJoinFails)
              1%N (Kubeadm Scenario.workerJoinFails (mkKubeadmProvisioner None))
              Scenario.oneWorker
              (setDefaults (specOfRequest Scenario.oneWorker))
              Scenario.cp1 [] Scenario.w1 ""
              "kubeadm join 10.0.0.1:6443 --token abc --discovery-token-ca-cert-hash sha256:xyz"
              "KEY"
              "failed to join worker: scripted failure: Process exited with status 1"
              (Scenario.accepted Scenario.workerJoinFails Scenario.oneWorker))
    as (st' & Hrun & Hready & _).
  - apply provisionerRegistry_kubeadm.
  - exact Hlive.
  - vm_compute. lia.
  - vm_compute. reflexivity.
  - vm_compute. reflexivity.
  - intros e. vm_compute. reflexivity.
  - intros e. vm_compute. reflexivity.
  - intros e. eexists. split; [vm_compute; reflexivity|]. done.
  - intros e. vm_compute. reflexivity.
  - constructor.
  - intros e. vm_compute. reflexivity.
  - exists st'. exact (conj Hrun Hready).
Defined.

(** ** Installing the CNI *)

Lemma emits_refl e : emits [] e e.
Proof. exists []. by rewrite app_nil_r. Qed.

Lemma emits_trans a b e e1 e2 : emits a e e1 -> emits b e1 e2 -> emits (a ++ b) e e2.
Proof.
  intros (n1 & E1 & S1) (n2 & E2 & S2). exists (n1 ++ n2).
  rewrite E2, E1, <- app_assoc, fmap_app, S1, S2. done.
Qed.

Lemma emittedBy_app p a b : emittedBy p a ++ emittedBy p b = emittedBy p (a ++ b).
Proof. unfold emittedBy. destruct (eventCallback p); [done|done]. Qed.

Section KubeadmSteps.
Context (W : World).

Lemma ask_step {A} (f : World -> nat -> A) e :
  wp (ask W f) (fun r e' => r = Done (f W (steps e)) ∧ emits [] e e') e.
Proof. unfold wp. simpl. split; [done|]. exists []. by rewrite app_nil_r. Qed.

Lemma NewSSHClient_step host e :
  wp (NewSSHClient W host)
     (fun r e' => r = fst (NewSSHClient W host e) ∧ emits [] e e') e.
Proof.
  unfold wp. split; [done|]. unfold NewSSHClient, bind, ask, ret.
  repeat (case_match; simpl in * ); simplify_eq/=; try apply emits_refl;
    exists []; by rewrite app_nil_r.
Qed.

Lemma RunCommand_step c cmd e :
  wp (RunCommand W c cmd)
     (fun r e' => r = fst (RunCommand W c cmd e) ∧ (∃ x, r = Done x) ∧ emits [] e e') e.
Proof.
  unfold wp. split; [done|]. unfold RunCommand, bind, ask, ret. simpl.
  destruct (ssh_NewSession W (steps e) (clientHost c)); simpl;
    (split; [by eexists|]); exists []; by rewrite app_nil_r.
Qed.

Lemma emitEvent_step p lvl h s msg e :
  recording p ->
  wp (emitEvent W p lvl h s msg)
     (fun r e' => r = Done tt ∧ emits (emittedBy p [lvl]) e e') e.
Proof.
  unfold wp, emitEvent, emittedBy. intros [-> | ->]; simpl.
  - split; [done|apply emits_refl].
  - split; [done|]. eexists [_]. done.
Qed.
End KubeadmSteps.

Lemma NewSSHClient_client W host e c :
  fst (NewSSHClient W host e) = Done (Ok c) -> c = mkSSHClient host.
Proof.
  unfold NewSSHClient, bind, ask, ret.
  repeat (case_match; simpl in * ); intros; simplify_eq/=; done.
Qed.

Lemma InstallCNI_apply_fails W p kubeconfig cni manifest cp e :
  recording p ->
  cniManifestOf cni = Ok manifest ->
  (forall e, ∃ c, fst (NewSSHClient W cp e) = Done (Ok c)) ->
  (forall e, ∃ out errOut err,
     fst (RunCommand W (mkSSHClient cp) ("kubectl apply -f " +:+ manifest) e)
     = Done (out, errOut, Some err)) ->
  ∃ err, fst (Kubeadm_InstallCNI W p kubeconfig cni cp e) = Done (Some err).
Proof.
  intros Hp Hman Hconn Hfail.
  cut (wp (Kubeadm_InstallCNI W p kubeconfig cni cp)
          (fun r _ => ∃ err, r = Done (Some err)) e); [done|].
  unfold Kubeadm_InstallCNI.
  eapply wp_bind; [by apply emitEvent_step|]. intros r e1 (-> & _).
  rewrite Hman.
  eapply wp_bind; [apply NewSSHClient_step|]. intros r e2 (-> & _).
  destruct (Hconn e1) as [c Hc]. rewrite Hc.
  apply NewSSHClient_client in Hc as ->.
  eapply wp_bind; [apply RunCommand_step|]. intros r e3 (-> & _ & _).
  destruct (Hfail e2) as (out & errOut & err & ->).
  eapply wp_bind; [by apply emitEvent_step|]. intros r e4 (-> & _).
  apply wp_ret. by eexists.
Qed.

Lemma InstallCNI_wait_fails W p kubeconfig cni manifest cp e :
  recording p ->
  cniManifestOf cni = Ok manifest ->
  (forall e, ∃ c, fst (NewSSHClient W cp e) = Done (Ok c)) ->
  (forall e, ∃ out errOut,
     fst (RunCommand W (mkSSHClient cp) ("kubectl apply -f " +:+ manifest) e)
     = Done (out, errOut, None)) ->
  (forall e, ∃ out errOut err,
     fst (RunCommand W (mkSSHClient cp) waitCmd e) = Done (out, errOut, Some err)) ->
  ∃ e', Kubeadm_InstallCNI W p kubeconfig cni cp e = (Done None, e') ∧
        emits (emittedBy p ["info"; "info"; "warn"]) e e'.
Proof.
  intros Hp Hman Hconn Hok Hwait. apply wp_run.
  unfold Kubeadm_InstallCNI.
  eapply wp_bind; [by apply emitEvent_step|]. intros r e1 (-> & E1).
  rewrite Hman.
  eapply wp_bind; [apply NewSSHClient_step|]. intros r e2 (-> & E2).
  destruct (Hconn e1) as [c Hc]. rewrite Hc.
  apply NewSSHClient_client in Hc as ->.
  eapply wp_bind; [apply RunCommand_step|]. intros r e3 (-> & _ & E3).
  destruct (Hok e2) as (out & errOut & ->).
  eapply wp_bind; [by apply emitEvent_step|]. intros r e4 (-> & E4).
  eapply wp_bind; [apply RunCommand_step|]. intros r e5 (-> & _ & E5).
  destruct (Hwait e4) as (out' & errOut' & err & ->).
  eapply wp_bind; [by apply emitEvent_step|]. intros r e6 (-> & E6).
  apply wp_ret. split; [done|].
  replace (emittedBy p ["info"; "info"; "warn"])
    with (emittedBy p ["info"] ++ [] ++ [] ++ emittedBy p ["info"] ++ [] ++
          emittedBy p ["warn"])
    by (cbn [app]; by rewrite !emittedBy_app).
  eauto 10 using emits_trans.
Qed.



(** ** Replay of the history to a new subscriber *)

#[global] Instance newerFirst_trans : Transitive newerFirst.
Proof. unfold newerFirst. intros a b c ??. lia. Qed.

#[global] Instance newerFirst_total : Total newerFirst.
Proof. unfold newerFirst. intros a b. lia. Qed.

#[global] Instance olderFirst_trans : Transitive olderFirst.
Proof. unfold olderFirst. intros a b c ??. lia. Qed.

Lemma orderByTimestampDesc_sorted l : StronglySorted newerFirst (orderByTimestampDesc l).
Proof. apply StronglySorted_merge_sort; apply _. Qed.

Lemma orderByTimestampDesc_perm l : orderByTimestampDesc l ≡ₚ l.
Proof. apply merge_sort_Permutation. Qed.

Lemma recentEventsQuery_split s cid :
  let sorted := orderByTimestampDesc (filter (fun e => Event_ClusterID e = cid) (events s)) in
  recentEventsQuery s cid ++ drop 50 sorted = sorted.
Proof. apply take_drop. Qed.

Lemma replayedEvents_length s cid : (length (replayedEvents s cid) <= 50)%nat.
Proof.
  unfold replayedEvents, recentEventsQuery. rewrite length_reverse, length_take. lia.
Qed.

Lemma replayedEvents_sorted s cid : StronglySorted olderFirst (replayedEvents s cid).
Proof.
  unfold replayedEvents. apply Sorted_StronglySorted; [apply _|].
  apply (Sorted_reverse newerFirst), StronglySorted_Sorted.
  pose proof (orderByTimestampDesc_sorted
                (filter (fun e => Event_ClusterID e = cid) (events s))) as H.
  rewrite <- (recentEventsQuery_split s cid) in H.
  by apply StronglySorted_app_1_l in H.
Qed.

Lemma replayedEvents_recent s cid :
  ∃ older,
    filter (fun e => Event_ClusterID e = cid) (events s) ≡ₚ older ++ replayedEvents s cid ∧
    Forall (fun o => Forall (olderFirst o) (replayedEvents s cid)) older.
Proof.
  pose proof (orderByTimestampDesc_sorted
                (filter (fun e => Event_ClusterID e = cid) (events s))) as Hsorted.
  pose proof (orderByTimestampDesc_perm
                (filter (fun e => Event_ClusterID e = cid) (events s))) as Hperm.
  unfold replayedEvents, recentEventsQuery.
  generalize dependent (orderByTimestampDesc
                          (filter (fun e => Event_ClusterID e = cid) (events s))).
  intros sorted Hsorted Hperm.
  rewrite <- (take_drop 50 sorted) in Hsorted, Hperm.
  exists (drop 50 sorted). split.
  - rewrite reverse_Permutation, <- Hperm. apply Permutation_app_comm.
  - apply Forall_forall. intros o Ho. apply Forall_forall. intros r Hr.
    rewrite elem_of_reverse in Hr.
    exact (StronglySorted_app_1_elem_of _ _ _ _ _ Hsorted Hr Ho).
Qed.

Lemma replayedEvents_of_cluster s cid :
  Forall (fun e => Event_ClusterID e = cid ∧ e ∈ events s) (replayedEvents s cid).
Proof.
  apply Forall_forall. intros e He.
  destruct (replayedEvents_recent s cid) as (older & Hperm & _).
  assert (e ∈ filter (fun e => Event_ClusterID e = cid) (events s)) as Hin.
  { rewrite Hperm. apply elem_of_app. by right. }
  by apply list_elem_of_filter in Hin.
Qed.

(** C9.  A run of [HandleWebSocket] with the loop of the hub and a
    provisioning task.  Cluster 1 has two persisted events when a client
    connects; a third event is logged after the registration with the hub
    and before the replay task has run.  The loop of the hub writes the third
    event to the connection first; the replay task then writes the three
    events that its query finds.  So the subscriber gets a live event before
    the history, and gets that event twice: the code registers the client
    before it starts the replay. *)
Theorem live_event_precedes_the_replay :
  let final := runTasks Scenario.hubRuns (fun _ => false) Scenario.lateReplay
                        Scenario.serving in
  origin <$> receivedBy 7 final
  = [ ("live", "cni"); ("replayed", "prepare"); ("replayed", "bootstrap");
      ("replayed", "cni") ]
  ∧ Event_Step <$> events (store (sysState final)) = ["prepare"; "bootstrap"; "cni"]
  ∧ sysAnswers final = [].
Proof. vm_compute. done. Qed.

(** * Further properties of the embedded program *)

(** ** The output of [kubeadm init] without the markers *)

Lemma prefix_cons_inv sub c r :
  String.prefix sub (String c r) = true ->
  sub = "" ∨ ∃ sub', sub = String c sub' ∧ String.prefix sub' r = true.
Proof.
  destruct sub as [|a sub']; [by left|]. simpl.
  destruct (ascii_dec a c) as [->|]; [|done]. intros H. right. by eexists.
Qed.

Lemma prefix_trans a b c :
  String.prefix a b = true -> String.prefix b c = true -> String.prefix a c = true.
Proof.
  revert b c. induction a as [|x a IH]; intros b c Hab Hbc; [by destruct c|].
  destruct b as [|y b]; [done|]. destruct c as [|z c]; [done|].
  simpl in *. destruct (ascii_dec x y) as [->|]; [|done].
  destruct (ascii_dec y z) as [->|]; [|done]. eauto.
Qed.

Lemma prefix_cons c a b :
  String.prefix a b = true -> String.prefix (String c a) (String c b) = true.
Proof. intros H. simpl. by destruct (ascii_dec c c). Qed.

Lemma Contains_nonempty s sub : Contains s sub = false -> sub ≠ "".
Proof. intros H ->. by destruct s. Qed.

Lemma Contains_cons c r sub :
  Contains (String c r) sub = false ->
  String.prefix sub (String c r) = false ∧ Contains r sub = false.
Proof. cbn [Contains]. by intros [??]%orb_false_elim. Qed.

(** The first piece of a split is a prefix of the string. *)
Lemma splitFrom_first_prefix sep s : String.prefix (splitFrom sep 0 s).1 s = true.
Proof.
  induction s as [|c r IH]; [done|]. cbn [splitFrom].
  destruct (String.prefix sep (String c r)).
  - by destruct (splitFrom sep (String.length sep - 1) r).
  - destruct (splitFrom sep 0 r) as [f fs]. by apply prefix_cons.
Qed.

(** No piece of a string contains what the string does not contain. *)
Lemma splitFrom_Contains sep sub s skip :
  Contains s sub = false ->
  Contains (splitFrom sep skip s).1 sub = false ∧
  Forall (fun l => Contains l sub = false) (splitFrom sep skip s).2.
Proof.
  intros Hs. pose proof (Contains_nonempty _ _ Hs) as Hne.
  assert (Contains "" sub = false) as Hnil by (by destruct sub).
  revert skip Hs. induction s as [|c r IH]; intros skip Hs; [done|].
  apply Contains_cons in Hs as Hcr. destruct Hcr as [Hp Hr].
  cbn [splitFrom]. destruct skip as [|k]; [|by apply IH].
  destruct (String.prefix sep (String c r)).
  - specialize (IH (String.length sep - 1)%nat Hr).
    destruct (splitFrom sep (String.length sep - 1) r) as [f fs].
    cbn [fst snd] in *. destruct IH. split; [done|by constructor].
  - pose proof (splitFrom_first_prefix sep r) as Hpre.
    specialize (IH 0%nat Hr). destruct (splitFrom sep 0 r) as [f fs].
    cbn [fst snd] in *. destruct IH as [Hf Hfs]. split; [|done].
    cbn [Contains]. rewrite Hf, orb_false_r.
    apply not_true_is_false. intros Hsub.
    apply prefix_cons_inv in Hsub as [->|(sub' & -> & Hsub)]; [done|].
    rewrite (prefix_cons c sub' r) in Hp; [done|]. by eapply prefix_trans.
Qed.

Lemma Split_Contains s sep sub :
  Contains s sub = false -> Forall (fun l => Contains l sub = false) (Split s sep).
Proof.
  intros Hs. unfold Split. pose proof (splitFrom_Contains sep sub s 0 Hs) as H.
  destruct (splitFrom sep 0 s) as [f fs]. destruct H. by constructor.
Qed.

Lemma Split_without_separator s sep :
  Contains s sep = false -> Split s sep = [s].
Proof.
  intros H. unfold Split.
  assert (splitFrom sep 0 s = (s, [])) as ->; [|done].
  induction s as [|c r IH]; [done|].
  cbn [Contains] in H. apply orb_false_elim in H as [Hp Hr].
  cbn [splitFrom]. rewrite Hp, (IH Hr). done.
Qed.

Lemma joinCommandOf_without_marker lines :
  Forall (fun l => Contains l "kubeadm join" = false) lines -> joinCommandOf lines = "".
Proof. induction 1 as [|l lines Hl _ IH]; [done|]. cbn [joinCommandOf]. by rewrite Hl. Qed.

Lemma certificateKeyOf_without_flag lines :
  Forall (fun l => Contains l "--certificate-key" = false) lines ->
  certificateKeyOf lines = Done "".
Proof. induction 1 as [|l lines Hl _ IH]; [done|]. cbn [certificateKeyOf]. by rewrite Hl. Qed.

(** X1.  When the output of [kubeadm init] nowhere contains the text
    [kubeadm join], [extractJoinCommand] returns the empty string. *)
Theorem extractJoinCommand_without_marker (output : string) :
  Contains output "kubeadm join" = false -> extractJoinCommand output = "".
Proof. intros H. apply joinCommandOf_without_marker. by apply Split_Contains. Qed.

Lemma extractJoinCommand_without_marker_witness :
  extractJoinCommand ("error execution phase preflight" +:+ nl +:+ "[ERROR Swap]") = "".
Proof. apply extractJoinCommand_without_marker. reflexivity. Defined.

(** X2.  When the output nowhere contains the flag [--certificate-key],
    [extractCertificateKey] returns the empty string: it does not panic. *)
Theorem extractCertificateKey_without_flag (output : string) :
  Contains output "--certificate-key" = false -> extractCertificateKey output = Done "".
Proof. intros H. apply certificateKeyOf_without_flag. by apply Split_Contains. Qed.

Lemma extractCertificateKey_without_flag_witness :
  extractCertificateKey ("kubeadm join 10.0.0.1:6443 --token abc" +:+ nl) = Done "".
Proof. apply extractCertificateKey_without_flag. reflexivity. Defined.

Lemma allBytes_rev_app P a b :
  allBytes P (String.rev_app a b) = allBytes P a && allBytes P b.
Proof.
  revert b. induction a as [|c a IH]; intros b; [done|]. cbn. rewrite IH. cbn.
  destruct (P c), (allBytes P a), (allBytes P b); done.
Qed.

Lemma allBytes_rev P s : allBytes P (String.rev s) = allBytes P s.
Proof. unfold String.rev. rewrite allBytes_rev_app. cbn. by rewrite andb_true_r. Qed.

Lemma rev_app_nonempty a b : b ≠ "" -> String.rev_app a b ≠ "".
Proof. revert b. induction a as [|c a IH]; intros b Hb; [done|]. cbn. by apply IH. Qed.

(** A string that starts with a blank starts with a rune of white space. *)
Lemma blank_has_width c r : isBlank c = true -> runeWidth whiteSpace (String c r) ≠ 0%nat.
Proof.
  destruct c as [[] [] [] [] [] [] [] []]; intros H; try discriminate H;
    destruct r; vm_compute; discriminate.
Qed.

(** The fields of a string are not empty and hold no blank. *)
Lemma fieldsFrom_no_blank skip cur s :
  (forall f, cur = Some f -> f ≠ "" ∧ allBytes (fun c => negb (isBlank c)) f = true) ->
  Forall (fun f => f ≠ "" ∧ allBytes (fun c => negb (isBlank c)) f = true)
         (fieldsFrom skip cur s).
Proof.
  assert (forall cur,
    (forall f, cur = Some f -> f ≠ "" ∧ allBytes (fun c => negb (isBlank c)) f = true) ->
    Forall (fun f => f ≠ "" ∧ allBytes (fun c => negb (isBlank c)) f = true)
           (closeField cur)) as Hclose.
  { intros [f|] H; [|constructor]. destruct (H f eq_refl) as [Hne Hall].
    constructor; [|constructor]. split; [|by rewrite allBytes_rev].
    destruct f as [|c f]; [done|]. unfold String.rev. cbn [String.rev_app].
    by apply rev_app_nonempty. }
  revert skip cur. induction s as [|c r IH]; intros skip cur Hcur; [by apply Hclose|].
  cbn [fieldsFrom]. destruct skip as [|k]; [|by apply IH].
  destruct (runeWidth whiteSpace (String c r)) as [|k] eqn:Hw.
  - apply IH. intros f [= <-]. split; [done|]. cbn.
    destruct (isBlank c) eqn:Hb; [by apply (blank_has_width _ r) in Hb|]. cbn.
    destruct cur as [f|]; [|done]. by destruct (Hcur f eq_refl).
  - apply Forall_app. split; [by apply Hclose|]. by apply IH.
Qed.

Lemma certificateKeyOf_no_blank lines k :
  certificateKeyOf lines = Done k -> allBytes (fun c => negb (isBlank c)) k = true.
Proof.
  induction lines as [|l lines IH]; [by intros [= <-]|]. cbn [certificateKeyOf].
  destruct (Contains l "--certificate-key"); [|done].
  destruct (Split l "--certificate-key") as [|p0 [|p1 ps]]; [done|done|].
  pose proof (fieldsFrom_no_blank 0 None (TrimSpace p1)) as HF.
  unfold Fields. destruct (fieldsFrom 0 None (TrimSpace p1)) as [|f fs]; [done|].
  intros [= <-]. apply Forall_cons in HF as [[_ H] _]; done.
Qed.

(** X3.  A certificate key that [extractCertificateKey] returns holds no
    tab, line feed, vertical tab, form feed, carriage return or space. *)
Theorem extractCertificateKey_has_no_blank (output key : string) :
  extractCertificateKey output = Done key ->
  allBytes (fun c => negb (isBlank c)) key = true.
Proof. apply certificateKeyOf_no_blank. Qed.

Lemma extractCertificateKey_has_no_blank_witness :
  allBytes (fun c => negb (isBlank c)) "KEY" = true.
Proof.
  apply (extractCertificateKey_has_no_blank
           ("  kubeadm join --control-plane --certificate-key  KEY  extra" +:+ nl)).
  reflexivity.
Defined.

(** ** Which specifications are accepted *)

Lemma HostSpec_Validate_accepts hs :
  (HostSpec_Validate hs).2 = None <-> connectable hs.
Proof.
  unfold HostSpec_Validate, connectable.
  destruct hs as [hn ad us k kp po ro la ta]. unfold orDefault. cbn.
  destruct (String.eqb_spec ad ""); cbn; [by intuition|].
  destruct (String.eqb us ""); cbn; destruct (Z.eqb po 0); cbn;
    destruct (String.eqb_spec k ""); cbn; destruct (String.eqb_spec kp ""); cbn;
    intuition congruence.
Qed.

Lemma validateHosts_accepts hosts :
  validateHosts hosts = None <-> Forall connectable hosts.
Proof.
  induction hosts as [|h rest IH]; [by split; [constructor|]|].
  cbn [validateHosts]. rewrite Forall_cons, <- IH, <- HostSpec_Validate_accepts.
  destruct (HostSpec_Validate h).2; intuition congruence.
Qed.

(** X4.  [ClusterSpec.Validate] returns no error exactly when the name is
    not empty, there is a control plane, and every control plane and every
    worker has an address and a key or the path of a key.  Nothing else is
    checked: not the version, the networks, the CNI or the runtime. *)
Theorem ClusterSpec_Validate_accepts (cs : ClusterSpec) :
  (ClusterSpec_Validate cs).2 = None
  <-> Name cs ≠ "" ∧ ControlPlanes cs ≠ [] ∧
      Forall connectable (ControlPlanes cs ++ Workers cs).
Proof.
  unfold ClusterSpec_Validate.
  destruct (String.eqb_spec (Name cs) ""); [by intuition|].
  destruct (ControlPlanes cs) as [|cp0 cps] eqn:Hcps; [by intuition|].
  cbn [length Nat.eqb snd]. destruct (setDefaults_hosts cs) as (_ & -> & ->).
  rewrite Hcps, validateHosts_accepts. intuition congruence.
Qed.

Lemma validateHosts_first_failure good bad rest err :
  Forall connectable good -> (HostSpec_Validate bad).2 = Some err ->
  validateHosts (good ++ bad :: rest) = Some err.
Proof.
  intros Hgood Hbad. induction Hgood as [|h good Hh _ IH].
  - cbn. by rewrite Hbad.
  - cbn [app validateHosts]. apply HostSpec_Validate_accepts in Hh. by rewrite Hh.
Qed.

(** X5.  Past the checks of the name and of the control planes,
    [ClusterSpec.Validate] returns the error of the first host that
    [HostSpec.Validate] rejects, the control planes coming before the
    workers; the specification is left with the defaults. *)
Theorem ClusterSpec_Validate_first_failure
        (cs : ClusterSpec) (good : list HostSpec) (bad : HostSpec)
        (rest : list HostSpec) (err : error) :
  Name cs ≠ "" -> ControlPlanes cs ≠ [] ->
  ControlPlanes cs ++ Workers cs = good ++ bad :: rest ->
  Forall connectable good ->
  (HostSpec_Validate bad).2 = Some err ->
  ClusterSpec_Validate cs = (setDefaults cs, Some err).
Proof.
  intros Hn Hc Hsplit Hgood Hbad. unfold ClusterSpec_Validate.
  rewrite eqb_empty_false by done.
  destruct (ControlPlanes cs) as [|cp0 cps] eqn:Hcps; [done|]. cbn [length Nat.eqb].
  cbv zeta. destruct (setDefaults_hosts cs) as (_ & -> & ->).
  rewrite Hcps, Hsplit. by erewrite validateHosts_first_failure.
Qed.

Lemma ClusterSpec_Validate_first_failure_witness :
  (ClusterSpec_Validate Scenario.twoBadWorkers).2
  = Some (ErrInvalidSpec "SSH key or key path is required for host 10.0.0.3").
Proof.
  rewrite (ClusterSpec_Validate_first_failure Scenario.twoBadWorkers
             [Scenario.cp1] Scenario.keylessWorker [Scenario.addresslessWorker]
             (ErrInvalidSpec "SSH key or key path is required for host 10.0.0.3")).
  - reflexivity.
  - done.
  - done.
  - reflexivity.
  - repeat constructor; done.
  - reflexivity.
Defined.

(** X6.  [HostSpec.Validate] on the host it has left gives the same host
    and the same answer, also when that answer is an error. *)
Theorem HostSpec_Validate_idempotent (hs : HostSpec) :
  HostSpec_Validate (HostSpec_Validate hs).1 = HostSpec_Validate hs.
Proof.
  destruct hs as [[|? ?] [|? ?] [|? ?] [|? ?] [|? ?] [|?|?] ro la ta]; reflexivity.
Qed.

(** ** The registry of provisioners *)

(** X7.  [GetProvisioner] after [RegisterProvisioner] calls the factory
    that was registered under the name, and answers for any other name as
    before; the name is then among those of [ListProvisioners]; and a name
    that [ListProvisioners] does not give is answered with the error
    [provisioner not found]. *)
Theorem registry_round_trip (registry : gmap string ProvisionerFactory)
        (name other : string) (factory : ProvisionerFactory) (config : gmap string string) :
  GetProvisioner (RegisterProvisioner registry name factory) name config = factory config
  ∧ (other ≠ name ->
     GetProvisioner (RegisterProvisioner registry name factory) other config
     = GetProvisioner registry other config)
  ∧ name ∈ ListProvisioners (RegisterProvisioner registry name factory)
  ∧ (other ∉ ListProvisioners registry ->
     GetProvisioner registry other config = Err ("provisioner not found: " +:+ other)).
Proof.
  unfold GetProvisioner, RegisterProvisioner, ListProvisioners.
  split; [by rewrite lookup_insert_eq|]. split; [intros; by rewrite lookup_insert_ne|].
  split.
  - apply list_elem_of_fmap. exists (name, factory). split; [done|].
    apply elem_of_map_to_list. by rewrite lookup_insert_eq.
  - intros Hnot. destruct (registry !! other) as [f|] eqn:Hf; [|done].
    exfalso. apply Hnot. apply list_elem_of_fmap. exists (other, f). split; [done|].
    by apply elem_of_map_to_list.
Qed.

(** ** Calls of the kubeadm provisioner: returning, failing *)

Lemma returns_ret {A : Type} (a : A) : returns (ret a).
Proof. intros e. by exists a. Qed.

Lemma returns_bind {A B : Type} (m : M Env A) (k : A -> M Env B) :
  returns m -> (forall a, returns (k a)) -> returns (bind m k).
Proof.
  intros Hm Hk e. unfold bind. destruct (Hm e) as [a Ha].
  destruct (m e) as [r e1]. cbn in Ha. subst r. apply Hk.
Qed.

Lemma returns_ask W {A : Type} (f : World -> nat -> A) : returns (ask W f).
Proof. intros e. by eexists. Qed.

Lemma returns_emitEvent W p lvl h s msg : recording p -> returns (emitEvent W p lvl h s msg).
Proof. intros [Hp|Hp] e; unfold emitEvent; rewrite Hp; by eexists. Qed.

Create HintDb returns.

#[global] Hint Resolve returns_ret returns_ask returns_emitEvent : returns.

Ltac returns_step :=
  first
    [ progress auto with returns
    | apply returns_bind; [|intros ?]
    | match goal with
      | |- returns (match ?x with _ => _ end) => destruct x
      | |- returns (let '(_, _) := ?x in _) => destruct x
      end ].

Lemma returns_NewSSHClient W host : returns (NewSSHClient W host).
Proof. unfold NewSSHClient. repeat returns_step. Qed.

Lemma returns_RunCommand W c cmd : returns (RunCommand W c cmd).
Proof. unfold RunCommand. repeat returns_step. Qed.

#[global] Hint Resolve returns_NewSSHClient returns_RunCommand : returns.

Lemma returns_TestConnection W c : returns (TestConnection W c).
Proof. unfold TestConnection. repeat returns_step. Qed.

Lemma returns_GetHostInfo W c : returns (GetHostInfo W c).
Proof. unfold GetHostInfo. repeat returns_step. Qed.

#[global] Hint Resolve returns_TestConnection returns_GetHostInfo : returns.

Lemma returns_orReturn m wrap k : returns m -> returns k -> returns (orReturn m wrap k).
Proof. intros Hm Hk. unfold orReturn. repeat returns_step. Qed.

Lemma returns_installContainerRuntime W p c h rt :
  recording p -> returns (installContainerRuntime W p c h rt).
Proof.
  intros Hp. unfold installContainerRuntime, installContainerd, installCRIO.
  repeat returns_step.
Qed.

Lemma returns_resetNode W p h : recording p -> returns (resetNode W p h).
Proof. intros Hp. unfold resetNode. repeat returns_step. Qed.

Lemma returns_resetNodes W p hosts : recording p -> returns (resetNodes W p hosts).
Proof.
  intros Hp. induction hosts as [|h rest IH]; cbn [resetNodes]; [apply returns_ret|].
  apply returns_bind; [by apply returns_resetNode|]. intros err.
  apply returns_bind; [|done]. destruct err; auto with returns.
Qed.

Lemma fails_ret err : fails (ret (Some err)).
Proof. intros e. by exists err. Qed.

Lemma fails_bind {A : Type} (m : M Env A) (k : A -> M Env (option error)) :
  returns m -> (forall a, fails (k a)) -> fails (bind m k).
Proof.
  intros Hm Hk e. unfold bind. destruct (Hm e) as [a Ha].
  destruct (m e) as [r e1]. cbn in Ha. subst r. apply Hk.
Qed.

Lemma fails_orReturn_left m wrap k : fails m -> fails (orReturn m wrap k).
Proof.
  intros Hm e. unfold orReturn, bind. destruct (Hm e) as [err Herr].
  destruct (m e) as [r e1]. cbn in Herr. subst r. by eexists.
Qed.

Lemma fails_orReturn_right m wrap k : returns m -> fails k -> fails (orReturn m wrap k).
Proof.
  intros Hm Hk. unfold orReturn. apply fails_bind; [done|].
  intros [err|]; [apply fails_ret|done].
Qed.

(** The steps of [prepareHost] up to the installation of the runtime return. *)
Lemma prepareHost_reaches W p host k :
  recording p ->
  (forall client, fails (k client)) ->
  fails (let* c := NewSSHClient W host in
         match c with
         | Err err => ret (Some ("failed to connect: " +:+ err))
         | Ok client =>
             emitEvent W p "info" (Address host) "prepare" "Connected to host" ;;
             orReturn (TestConnection W client)
                      (fun err => "connection test failed: " +:+ err) (
             let* info := GetHostInfo W client in
             orReturn
               (if String.eqb (default "" (info !! "swap_enabled")) "true" then
                  emitEvent W p "info" (Address host) "prepare" "Disabling swap" ;;
                  let* (_, _, err) :=
                    RunCommand W client
                      "swapoff -a && sed -i '/ swap / s/^/#/' /etc/fstab" in
                  ret err
                else ret None)
               (fun err => "failed to disable swap: " +:+ err) (
             emitEvent W p "info" (Address host) "prepare" "Loading kernel modules" ;;
             orReturn
               (let* (_, _, err) := RunCommand W client loadModulesScript in ret err)
               (fun err => "failed to load kernel modules: " +:+ err) (
             emitEvent W p "info" (Address host) "prepare"
                       "Configuring sysctl parameters" ;;
             orReturn
               (let* (_, _, err) := RunCommand W client sysctlScript in ret err)
               (fun err => "failed to configure sysctl: " +:+ err) (k client))))
         end).
Proof.
  intros Hp Hk.
  apply fails_bind; [auto with returns|]. intros [client|err]; [|apply fails_ret].
  apply fails_bind; [auto with returns|]. intros _.
  apply fails_orReturn_right; [auto with returns|].
  apply fails_bind; [auto with returns|]. intros info.
  apply fails_orReturn_right.
  { destruct (String.eqb _ "true"); repeat returns_step. }
  apply fails_bind; [auto with returns|]. intros _.
  apply fails_orReturn_right; [repeat returns_step|].
  apply fails_bind; [auto with returns|]. intros _.
  apply fails_orReturn_right; [repeat returns_step|]. apply Hk.
Qed.

Lemma installContainerRuntime_fails W p client host runtime :
  recording p -> runtime ≠ "containerd" ->
  fails (installContainerRuntime W p client host runtime).
Proof.
  intros Hp Hrt. unfold installContainerRuntime, installCRIO.
  apply fails_bind; [auto with returns|]. intros _.
  destruct (String.eqb_spec runtime "containerd"); [done|].
  destruct (String.eqb runtime "cri-o"); apply fails_ret.
Qed.

Lemma installKubernetesTools_fails W p client host k8sVersion :
  recording p -> Contains k8sVersion "." = false ->
  fails (installKubernetesTools W p client host k8sVersion).
Proof.
  intros Hp Hv. unfold installKubernetesTools.
  apply fails_bind; [auto with returns|]. intros _.
  rewrite Split_without_separator by done. apply fails_ret.
Qed.

Lemma prepareHost_fails W p host runtime k8sVersion :
  recording p ->
  runtime ≠ "containerd" ∨ Contains k8sVersion "." = false ->
  fails (prepareHost W p host runtime k8sVersion).
Proof.
  intros Hp Hbad. unfold prepareHost. apply prepareHost_reaches; [done|].
  intros client. destruct (String.eqb_spec runtime "containerd") as [->|Hrt].
  - destruct Hbad as [?|Hv]; [done|].
    apply fails_orReturn_right; [by apply returns_installContainerRuntime|].
    apply fails_orReturn_left. by apply installKubernetesTools_fails.
  - apply fails_orReturn_left. by apply installContainerRuntime_fails.
Qed.

Lemma PrepareHosts_fails W p host hosts runtime k8sVersion :
  recording p ->
  runtime ≠ "containerd" ∨ Contains k8sVersion "." = false ->
  fails (Kubeadm_PrepareHosts W p (host :: hosts) runtime k8sVersion).
Proof.
  intros Hp Hbad. cbn [Kubeadm_PrepareHosts].
  apply fails_orReturn_left. by apply prepareHost_fails.
Qed.

(** X8.  [PrepareHosts] on a list of hosts prepares the first hosts; when
    that returns an error, or panics, this is the result and no later host
    is contacted; otherwise the result is that of the later hosts, from where
    the first ones left the world. *)
Theorem PrepareHosts_stops_at_first_failure
        (W : World) (p : KubeadmProvisioner) (before after : list HostSpec)
        (runtime k8sVersion : string) (e : Env) :
  Kubeadm_PrepareHosts W p (before ++ after) runtime k8sVersion e
  = match Kubeadm_PrepareHosts W p before runtime k8sVersion e with
    | (Done None, e') => Kubeadm_PrepareHosts W p after runtime k8sVersion e'
    | stopped => stopped
    end.
Proof.
  revert e. induction before as [|h before IH]; intros e; [done|].
  cbn [app Kubeadm_PrepareHosts]. unfold orReturn, bind.
  destruct (prepareHost W p h runtime k8sVersion e) as [[[err|]|msg|] e1]; [done| |done|done].
  apply IH.
Qed.

(** X9.  [InstallCNI] of the kubeadm provisioner returns no error only for
    the plugins calico, flannel and weave. *)
Theorem InstallCNI_supported_plugins
        (W : World) (p : KubeadmProvisioner) (kubeconfig cni : string)
        (controlPlane : HostSpec) (e : Env) :
  fst (Kubeadm_InstallCNI W p kubeconfig cni controlPlane e) = Done None ->
  cni = "calico" ∨ cni = "flannel" ∨ cni = "weave".
Proof.
  unfold Kubeadm_InstallCNI, cniManifestOf, bind.
  destruct (emitEvent W p "info" (Address controlPlane) "install-cni"
              ("Installing " +:+ cni +:+ " CNI") e) as [[[]|msg|] e1]; [|done|done].
  destruct (String.eqb_spec cni "calico"); [by left|].
  destruct (String.eqb_spec cni "flannel"); [by right; left|].
  destruct (String.eqb_spec cni "weave"); [by right; right|].
  by destruct (String.eqb cni "cilium").
Qed.

Lemma InstallCNI_supported_plugins_witness :
  "flannel" = "calico" ∨ "flannel" = "flannel" ∨ "flannel" = "weave".
Proof.
  apply (InstallCNI_supported_plugins Scenario.allSucceed (mkKubeadmProvisioner None)
           "" "flannel" Scenario.cp1 (mkEnv 0 [])).
  reflexivity.
Defined.



(** The run of the witness: each host that is not reached gives one warning. *)
Example DestroyCluster_unreachable_hosts :
  (fun ev => (evLevel ev, evHost ev, evStep ev))
    <$> sink (snd (Kubeadm_DestroyCluster Scenario.unreachable
                     (mkKubeadmProvisioner (Some recordEvent))
                     (specOfRequest Scenario.oneWorker) (mkEnv 0 [])))
  = [("warn", "10.0.0.1", "destroy"); ("warn", "10.0.0.2", "destroy")].
Proof. reflexivity. Qed.

(** X30.  [RemoveNode] of the kubeadm provisioner, which is [resetNode],
    with no callback or one that records: when the host is reached and
    [kubeadm reset -f] succeeds it returns no error, whatever the clean-up
    command that follows answers. *)
Theorem RemoveNode_ignores_the_cleanup
        (W : World) (p : KubeadmProvisioner) (host : HostSpec) (kubeconfig : string)
        (e : Env) :
  recording p ->
  (forall e, ∃ c, fst (NewSSHClient W host e) = Done (Ok c)) ->
  (forall e, ∃ out errOut,
     fst (RunCommand W (mkSSHClient host) "kubeadm reset -f" e) = Done (out, errOut, None)) ->
  fst (Kubeadm_RemoveNode W p host kubeconfig e) = Done None.
Proof.
  intros Hp Hconn Hreset.
  cut (wp (resetNode W p host) (fun r _ => r = Done None) e); [done|].
  unfold resetNode.
  eapply wp_bind; [apply NewSSHClient_step|]. intros r e1 (-> & _).
  destruct (Hconn e) as [c Hc]. rewrite Hc. apply NewSSHClient_client in Hc as ->.
  eapply wp_bind; [by apply emitEvent_step|]. intros r e2 (-> & _).
  eapply wp_bind; [apply RunCommand_step|]. intros r e3 (-> & _ & _).
  destruct (Hreset e2) as (out & errOut & ->).
  eapply wp_bind; [apply RunCommand_step|]. intros r e4 (-> & [x ->] & _).
  by apply wp_ret.
Qed.

Lemma RemoveNode_ignores_the_cleanup_witness :
  fst (RunCommand Scenario.cleanupFails (mkSSHClient Scenario.w1)
         "rm -rf /etc/cni/net.d && rm -rf $HOME/.kube/config" (mkEnv 0 []))
  = Done ("", "scripted failure", Some "Process exited with status 1")
  ∧ fst (Kubeadm_RemoveNode Scenario.cleanupFails (mkKubeadmProvisioner (Some recordEvent))
           Scenario.w1 "" (mkEnv 0 [])) = Done None.
Proof.
  split; [reflexivity|].
  apply RemoveNode_ignores_the_cleanup.
  - by right.
  - intros e. eexists. reflexivity.
  - intros e. do 2 eexists. reflexivity.
Defined.

(** ** Traces of the provisioning task *)

Lemma wp_and {S A : Type} (m : M S A) (Q1 Q2 : outcome A -> S -> Prop) s :
  wp m Q1 s -> wp m Q2 s -> wp m (fun r s' => Q1 r s' ∧ Q2 r s') s.
Proof. unfold wp. done. Qed.

Lemma trace_refl cid st : trace cid [] [] st st.
Proof. split; [apply evolves_refl|]. split; [by rewrite app_nil_r|done]. Qed.

Lemma trace_trans cid a b wa wb st st1 st2 :
  trace cid a wa st st1 -> trace cid b wb st1 st2 -> trace cid (a ++ b) (wa ++ wb) st st2.
Proof.
  intros (E1 & W1 & S1) (E2 & W2 & S2). split; [by eapply evolves_trans|].
  split; [by rewrite W2, W1, app_assoc|]. intros id. by rewrite S2, S1.
Qed.

Lemma secretsOf_alter (f : Cluster -> Cluster) (m : gmap N Cluster) cid id :
  (forall c, secretsOf (f c) = secretsOf c) ->
  secretsOf <$> alter f cid m !! id = secretsOf <$> m !! id.
Proof.
  intros Hf. destruct (decide (id = cid)) as [->|Hne].
  - rewrite lookup_alter_eq. destruct (m !! cid); cbn; [by rewrite Hf|done].
  - by rewrite lookup_alter_ne.
Qed.

Lemma trace_room W cid added ws n st st' :
  trace cid added ws st st' -> room W (length added + n) st -> room W n st'.
Proof. intros (E & _). exact (evolves_room W cid added n st st' E). Qed.

Section Traces.

Context (W : World) (registry : gmap string ProvisionerFactory) (cid : N).

Lemma liftEnv_trace {A : Type} (m : M Env A) st :
  wp (liftEnv m) (fun r st' => r = fst (m (env st)) ∧ trace cid [] [] st st') st.
Proof.
  unfold wp, liftEnv. destruct (m (env st)) as [r e]. cbn.
  split; [done|]. split; [|by rewrite app_nil_r].
  split; [exists []; by rewrite app_nil_r|]. split; [cbn; lia|done].
Qed.

Lemma logEvent_trace lvl h s msg st :
  room W 1 st ->
  wp (logEvent W cid lvl h s msg)
     (fun r st' => r = Done tt ∧ trace cid [(lvl, h, s, msg)] [] st st') st.
Proof.
  intros Hroom.
  pose proof (logEvent_step W cid lvl h s msg st Hroom) as (Hr & Hev & Hc).
  unfold wp in *. split; [done|]. split; [done|]. split.
  - cbn. by rewrite app_nil_r.
  - intros id. by rewrite Hc.
Qed.

Lemma logEvent_blocked lvl h s msg st :
  ¬ room W 1 st ->
  wp (logEvent W cid lvl h s msg)
     (fun r st' => r = Blocked ∧ trace cid [(lvl, h, s, msg)] [] st st' ∧
                   clusters (store st') = clusters (store st)) st.
Proof.
  intros Hroom.
  pose proof (logEvent_blocks W cid lvl h s msg st Hroom) as (Hr & Hev & Hc & Hw).
  unfold wp in *. split; [done|]. split; [|done]. split; [done|]. split.
  - by rewrite Hw, app_nil_r.
  - intros id. by rewrite Hc.
Qed.

Lemma UpdateStatus_trace status st :
  wp (UpdateStatus W cid status)
     (fun r st' => r = Done tt ∧ trace cid [] [(cid, status)] st st' ∧
                   (live cid st -> statusIs cid status st')) st.
Proof.
  pose proof (UpdateStatus_step W cid status st) as H. unfold wp in *.
  destruct H as (Hr & Hev & Hst). split; [done|]. split; [|done].
  split; [done|]. split; [done|]. intros id. cbn.
  apply secretsOf_alter. intros c. by destruct (Cluster_DeletedAt c).
Qed.

Lemma logError_trace msg err st :
  room W 1 st ->
  wp (logError W cid msg err)
     (fun r st' => r = Done tt ∧
        trace cid [("error", "localhost", "error", msg +:+ ": " +:+ err)]
              [(cid, "failed")] st st' ∧
        (live cid st -> statusIs cid "failed" st')) st.
Proof.
  intros Hroom. unfold logError. eapply wp_bind; [by apply logEvent_trace|].
  intros r s1 (-> & T1). eapply wp_mono; [apply UpdateStatus_trace|].
  intros r s2 (-> & T2 & Hst). split; [done|]. split.
  - apply (trace_trans _ [_] [] [] [_] _ _ _ T1 T2).
  - intros Hl. apply Hst. by apply T1.
Qed.

(** [logError] when the channel is full: the error is persisted, and the
    status is not written. *)
Lemma logError_blocked msg err st :
  ¬ room W 1 st ->
  wp (logError W cid msg err)
     (fun r st' => r = Blocked ∧
        trace cid [("error", "localhost", "error", msg +:+ ": " +:+ err)] [] st st' ∧
        clusters (store st') = clusters (store st)) st.
Proof.
  intros Hroom. unfold logError. eapply wp_bind; [by apply logEvent_blocked|].
  intros r s1 (-> & T1 & Hc). done.
Qed.

(** The run up to the call of [PrepareHosts], when validation succeeds. *)
Lemma run_reaches_prepare P req spec n st
      (Q : outcome unit -> State -> Prop) :
  GetProvisioner registry "kubeadm" ∅ = Ok P ->
  (forall e, fst (ValidateSpec P (specOfRequest req) e) = Done (spec, None)) ->
  room W (S n) st ->
  (forall s3, trace cid [("info", "localhost", "prepare", "Preparing hosts")]
                    [(cid, "provisioning")] st s3 ->
     room W n s3 ->
     wp (let* err := liftEnv (PrepareHosts P (ControlPlanes spec ++ Workers spec)
                                (ContainerRuntime spec) (K8sVersion spec)) in
         match err with
         | Some err => logError W cid "Failed to prepare hosts" err
         | None =>
             match ControlPlanes spec with
             | [] => panic "runtime error: index out of range [0] with length 0"
             | cp0 :: otherControlPlanes =>
                 logEvent W cid "info" (Address cp0) "bootstrap"
                          "Bootstrapping control plane" ;;
                 let* (result, err) :=
                   liftEnv (BootstrapControlPlane P cp0 spec) in
                 match err with
                 | Some err => logError W cid "Failed to bootstrap control plane" err
                 | None =>
                     match result with
                     | None =>
                         panic "runtime error: invalid memory address or nil pointer dereference"
                     | Some result =>
                         UpdateSecrets W cid (resKubeconfig result)
                                       (resJoinCommand result) (resCertificateKey result) ;;
                         logEvent W cid "info" (Address cp0) "cni" "Installing CNI" ;;
                         let* err := liftEnv (InstallCNI P (resKubeconfig result)
                                                         (CNI spec) cp0) in
                         (if err is Some err
                          then logError W cid "Failed to install CNI" err
                          else ret tt) ;;
                         joinControlPlanes W P cid otherControlPlanes result ;;
                         joinWorkers W P cid (Workers spec) result ;;
                         UpdateStatus W cid "ready" ;;
                         logEvent W cid "info" "localhost" "complete"
                                  "Cluster provisioned successfully"
                     end
                 end
             end
         end) Q s3) ->
  wp (provisionCluster W registry cid req) Q st.
Proof.
  intros Hreg Hval Hroom Hrest. unfold provisionCluster.
  eapply wp_bind; [apply UpdateStatus_trace|]. intros r s1 (-> & T1 & _).
  rewrite Hreg.
  eapply wp_bind; [apply liftEnv_trace|]. intros r s2 (Hr & T2).
  rewrite Hval in Hr. subst r. cbv beta iota.
  pose proof (trace_trans _ [] [] [_] [] _ _ _ T1 T2) as T12.
  eapply wp_bind;
    [eapply logEvent_trace, (room_le _ 1 (S n)), (trace_room _ _ [] _ _ _ _ T12), Hroom; lia|].
  intros r s3 (-> & T3).
  pose proof (trace_trans _ [] [_] [_] [] _ _ _ T12 T3) as T.
  apply Hrest; [exact T|]. exact (trace_room _ _ [_] _ n _ _ T Hroom).
Qed.

End Traces.

(** The run stops at a validation error. *)
Lemma run_stops_at_validation W registry cid P req spec err st :
  GetProvisioner registry "kubeadm" ∅ = Ok P ->
  live cid st ->
  room W 1 st ->
  (forall e, fst (ValidateSpec P (specOfRequest req) e) = Done (spec, Some err)) ->
  ∃ st', provisionCluster W registry cid req st = (Done tt, st') ∧
    statusIs cid "failed" st' ∧
    trace cid [("error", "localhost", "error", "Invalid cluster spec: " +:+ err)]
          [(cid, "provisioning"); (cid, "failed")] st st'.
Proof.
  intros Hreg Hlive Hroom Hval. apply wp_run. unfold provisionCluster.
  eapply wp_bind; [apply UpdateStatus_trace|]. intros r s1 (-> & T1 & _).
  rewrite Hreg.
  eapply wp_bind; [apply liftEnv_trace|]. intros r s2 (Hr & T2).
  rewrite Hval in Hr. subst r. cbv beta iota.
  pose proof (trace_trans _ [] [] [_] [] _ _ _ T1 T2) as T12.
  eapply wp_mono; [eapply logError_trace, (trace_room _ _ [] _ _ _ _ T12), Hroom|].
  intros r s3 (-> & T3 & Hst).
  split; [done|]. split.
  - apply Hst. apply T2, T1, Hlive.
  - apply (trace_trans _ [] [_] [_] [_] _ _ _ T12 T3).
Qed.

(** With a full channel the run stays blocked at the event of the validation
    error: the error is persisted, [failed] is not written. *)
Lemma run_blocks_at_validation W registry cid P req spec err st :
  GetProvisioner registry "kubeadm" ∅ = Ok P ->
  live cid st ->
  ¬ room W 1 st ->
  (forall e, fst (ValidateSpec P (specOfRequest req) e) = Done (spec, Some err)) ->
  ∃ st', provisionCluster W registry cid req st = (Blocked, st') ∧
    statusIs cid "provisioning" st' ∧
    trace cid [("error", "localhost", "error", "Invalid cluster spec: " +:+ err)]
          [(cid, "provisioning")] st st'.
Proof.
  intros Hreg Hlive Hroom Hval.
  cut (wp (provisionCluster W registry cid req)
          (fun r st' => r = Blocked ∧ statusIs cid "provisioning" st' ∧
             trace cid [("error", "localhost", "error", "Invalid cluster spec: " +:+ err)]
                   [(cid, "provisioning")] st st') st).
  { unfold wp. destruct (provisionCluster W registry cid req st) as [r st'].
    cbn. intros (-> & H). by exists st'. }
  unfold provisionCluster.
  eapply wp_bind; [apply UpdateStatus_trace|]. intros r s1 (-> & T1 & Hst).
  rewrite Hreg.
  eapply wp_bind; [apply wp_and; [apply liftEnv_trace|apply (liftEnv_step cid)]|].
  intros r s2 ((Hr & T2) & (_ & _ & Hs12)).
  rewrite Hval in Hr. subst r. cbv beta iota.
  pose proof (trace_trans _ [] [] [_] [] _ _ _ T1 T2) as T12.
  assert (¬ room W 1 s2) as Hfull.
  { intros H. apply Hroom. destruct T12 as ((_ & Hh & _) & _).
    unfold room in *. destruct (Hub_receives W); [|done]. rewrite Hh in H. cbn in H. lia. }
  eapply wp_mono; [by apply logError_blocked|].
  intros r s3 (-> & T3 & Hc).
  split; [done|]. split.
  - eapply statusIs_same_clusters; [exact Hc|].
    destruct (Hst Hlive) as (c & Hc1 & Hd & Hs).
    exists c. by rewrite Hs12.
  - apply (trace_trans _ [] [_] [_] [] _ _ _ T12 T3).
Qed.

(** The run stops at a failure of [PrepareHosts]. *)
Lemma run_stops_at_prepare W registry cid P req spec st :
  GetProvisioner registry "kubeadm" ∅ = Ok P ->
  live cid st ->
  room W 2 st ->
  (forall e, fst (ValidateSpec P (specOfRequest req) e) = Done (spec, None)) ->
  (forall e, ∃ err,
     fst (PrepareHosts P (ControlPlanes spec ++ Workers spec)
            (ContainerRuntime spec) (K8sVersion spec) e) = Done (Some err)) ->
  ∃ st' e err, provisionCluster W registry cid req st = (Done tt, st') ∧
    fst (PrepareHosts P (ControlPlanes spec ++ Workers spec)
           (ContainerRuntime spec) (K8sVersion spec) e) = Done (Some err) ∧
    statusIs cid "failed" st' ∧
    trace cid [ ("info", "localhost", "prepare", "Preparing hosts");
                ("error", "localhost", "error", "Failed to prepare hosts: " +:+ err) ]
          [(cid, "provisioning"); (cid, "failed")] st st'.
Proof.
  intros Hreg Hlive Hroom Hval Hprep.
  cut (wp (provisionCluster W registry cid req)
          (fun r st' => r = Done tt ∧ ∃ e err,
             fst (PrepareHosts P (ControlPlanes spec ++ Workers spec)
                    (ContainerRuntime spec) (K8sVersion spec) e) = Done (Some err) ∧
             statusIs cid "failed" st' ∧
             trace cid [ ("info", "localhost", "prepare", "Preparing hosts");
                         ("error", "localhost", "error",
                          "Failed to prepare hosts: " +:+ err) ]
                   [(cid, "provisioning"); (cid, "failed")] st st') st).
  { unfold wp. destruct (provisionCluster W registry cid req st) as [r st'].
    cbn. intros (-> & e & err & H). by exists st', e, err. }
  eapply run_reaches_prepare; [done|done|exact Hroom|]. intros s3 T3 R3.
  eapply wp_bind; [apply (liftEnv_trace cid)|]. intros r s4 (Hr & T4).
  destruct (Hprep (env s3)) as [err Herr]. rewrite Herr in Hr. subst r.
  eapply wp_mono; [eapply logError_trace, (trace_room _ _ [] _ _ _ _ T4), R3|].
  intros r s5 (-> & T5 & Hst).
  split; [done|]. exists (env s3), err. split; [done|]. split.
  - apply Hst. apply T4, T3, Hlive.
  - apply (trace_trans _ [_] [_] [_] [_] _ _ _ T3).
    apply (trace_trans _ [] [_] [] [_] _ _ _ T4 T5).
Qed.

(** The run stops at a failure of [BootstrapControlPlane]. *)
Lemma run_stops_at_bootstrap W registry cid P req spec cp0 cps err st :
  GetProvisioner registry "kubeadm" ∅ = Ok P ->
  live cid st ->
  room W 3 st ->
  ControlPlanes spec = cp0 :: cps ->
  (forall e, fst (ValidateSpec P (specOfRequest req) e) = Done (spec, None)) ->
  (forall e, fst (PrepareHosts P (ControlPlanes spec ++ Workers spec)
                    (ContainerRuntime spec) (K8sVersion spec) e) = Done None) ->
  (forall e, ∃ partial, fst (BootstrapControlPlane P cp0 spec e) = Done (partial, Some err)) ->
  ∃ st', provisionCluster W registry cid req st = (Done tt, st') ∧
    statusIs cid "failed" st' ∧
    trace cid [ ("info", "localhost", "prepare", "Preparing hosts");
                ("info", Address cp0, "bootstrap", "Bootstrapping control plane");
                ("error", "localhost", "error",
                 "Failed to bootstrap control plane: " +:+ err) ]
          [(cid, "provisioning"); (cid, "failed")] st st'.
Proof.
  intros Hreg Hlive Hroom Hcps Hval Hprep Hboot. apply wp_run.
  eapply run_reaches_prepare; [done|done|exact Hroom|]. intros s3 T3 R3.
  eapply wp_bind; [apply (liftEnv_trace cid)|]. intros r s4 (Hr & T4).
  rewrite Hprep in Hr. subst r. rewrite Hcps.
  apply (trace_room _ _ [] _ _ _ _ T4) in R3.
  eapply wp_bind; [eapply logEvent_trace, room_le, R3; lia|]. intros r s5 (-> & T5).
  apply (trace_room _ _ [_] _ 1 _ _ T5) in R3.
  eapply wp_bind; [apply (liftEnv_trace cid)|]. intros r s6 (Hr & T6).
  apply (trace_room _ _ [] _ _ _ _ T6) in R3.
  destruct (Hboot (env s5)) as [partial Hres]. rewrite Hres in Hr. subst r.
  cbv beta iota.
  eapply wp_mono; [by eapply logError_trace|]. intros r s7 (-> & T7 & Hst).
  split; [done|]. split.
  - apply Hst. apply T6, T5, T4, T3, Hlive.
  - apply (trace_trans _ [_] [_; _] [_] [_] _ _ _ T3).
    apply (trace_trans _ [] [_; _] [] [_] _ _ _ T4).
    apply (trace_trans _ [_] [_] [] [_] _ _ _ T5).
    apply (trace_trans _ [] [_] [] [_] _ _ _ T6 T7).
Qed.

(** ** What holds of every run of the provisioning task *)

Section Always.

Context (W : World) (registry : gmap string ProvisionerFactory) (cid : N).
Context (R : State -> State -> Prop) (OK : forall A : Type, M Env A -> Prop).
Context (R_refl : forall st, R st st).
Context (R_trans : forall a b c, R a b -> R b c -> R a c).
Context (R_lift : forall A (m : M Env A), OK A m -> always R (liftEnv m)).
Context (R_logEvent : forall lvl h s msg, always R (logEvent W cid lvl h s msg)).
Context (values : list string) (failed_written : "failed" ∈ values).
Context (R_status : forall status, status ∈ values ->
                                   always R (UpdateStatus W cid status)).
Context (R_secrets : forall kc jc ck, always R (UpdateSecrets W cid kc jc ck)).

Lemma always_ret {A : Type} (a : A) : always R (ret a).
Proof. intros st. apply R_refl. Qed.

Lemma always_panic {A : Type} msg : always R (@panic State A msg).
Proof. intros st. apply R_refl. Qed.

Lemma always_bind {A B : Type} (m : M State A) (k : A -> M State B) :
  always R m -> (forall a, always R (k a)) -> always R (bind m k).
Proof.
  intros Hm Hk st. unfold bind. specialize (Hm st).
  destruct (m st) as [[a|msg|] st1]; cbn in *; [|done|done].
  eapply R_trans; [exact Hm|apply Hk].
Qed.

Lemma always_logError msg err : always R (logError W cid msg err).
Proof.
  unfold logError. apply always_bind; [apply R_logEvent|]. intros _.
  by apply R_status.
Qed.

Lemma always_joinControlPlanes P cps result :
  provisionerCalls OK P -> always R (joinControlPlanes W P cid cps result).
Proof.
  intros (_ & _ & _ & _ & Hj & _).
  induction cps as [|cp rest IH]; cbn [joinControlPlanes]; [apply always_ret|].
  apply always_bind; [apply R_logEvent|]. intros _.
  apply always_bind; [by apply R_lift|]. intros err.
  apply always_bind; [|done].
  destruct err; [apply always_logError|apply always_ret].
Qed.

Lemma always_joinWorkers P ws result :
  provisionerCalls OK P -> always R (joinWorkers W P cid ws result).
Proof.
  intros (_ & _ & _ & _ & _ & Hj).
  induction ws as [|w rest IH]; cbn [joinWorkers]; [apply always_ret|].
  apply always_bind; [apply R_logEvent|]. intros _.
  apply always_bind; [by apply R_lift|]. intros err.
  apply always_bind; [|done].
  destruct err; [apply always_logError|apply always_ret].
Qed.

Lemma always_provisionCluster req :
  "provisioning" ∈ values -> "ready" ∈ values ->
  (forall P, GetProvisioner registry "kubeadm" ∅ = Ok P -> provisionerCalls OK P) ->
  always R (provisionCluster W registry cid req).
Proof.
  intros Hprov Hready HP. unfold provisionCluster.
  apply always_bind; [by apply R_status|]. intros _.
  destruct (GetProvisioner registry "kubeadm" ∅) as [P|err]; [|apply always_logError].
  specialize (HP P eq_refl). pose proof HP as (Hv & Hp & Hb & Hc & _ & _).
  apply always_bind; [by apply R_lift|]. intros [spec [err|]]; [apply always_logError|].
  apply always_bind; [apply R_logEvent|]. intros _.
  apply always_bind; [by apply R_lift|]. intros [err|]; [apply always_logError|].
  destruct (ControlPlanes spec) as [|cp0 cps]; [apply always_panic|].
  apply always_bind; [apply R_logEvent|]. intros _.
  apply always_bind; [by apply R_lift|].
  intros [result [err|]]; [apply always_logError|].
  destruct result as [result|]; [|apply always_panic].
  apply always_bind; [apply R_secrets|]. intros _.
  apply always_bind; [apply R_logEvent|]. intros _.
  apply always_bind; [by apply R_lift|]. intros err.
  apply always_bind; [destruct err; [apply always_logError|apply always_ret]|]. intros _.
  apply always_bind; [by apply always_joinControlPlanes|]. intros _.
  apply always_bind; [by apply always_joinWorkers|]. intros _.
  apply always_bind; [by apply R_status|]. intros _.
  apply R_logEvent.
Qed.

End Always.

Lemma anyCall_provisioner P : provisionerCalls anyCall P.
Proof. repeat split. Qed.


Lemma frame_refl cid st : frame cid st st.
Proof. repeat split; done. Qed.

Lemma frame_trans cid a b c : frame cid a b -> frame cid b c -> frame cid a c.
Proof.
  intros (N1 & O1 & D1 & A1) (N2 & O2 & D2 & A2). repeat split.
  - by rewrite N2.
  - intros id Hid. rewrite O2 by done. by apply O1.
  - intros x Hx Hd. apply (D2 x); [by apply (D1 x)|done].
  - intros Hx. by apply A2, A1.
Qed.

Lemma frame_alter cid (f : Cluster -> Cluster) st st' :
  nodes (store st') = nodes (store st) ->
  clusters (store st')
  = alter (fun c => if Cluster_DeletedAt c is None then f c else c) cid
          (clusters (store st)) ->
  frame cid st st'.
Proof.
  intros Hn Hc. split; [done|]. rewrite Hc. repeat split.
  - intros id Hid. by rewrite lookup_alter_ne.
  - intros c Hl Hd. rewrite lookup_alter_eq, Hl. cbn.
    by destruct (Cluster_DeletedAt c).
  - intros Hl. by rewrite lookup_alter_eq, Hl.
Qed.

Lemma provisionCluster_frame W registry cid req st :
  frame cid st (snd (provisionCluster W registry cid req st)).
Proof.
  apply (always_provisionCluster W registry cid (frame cid) anyCall)
    with (values := ["provisioning"; "failed"; "ready"]).
  - apply frame_refl.
  - apply frame_trans.
  - intros A m _ s. unfold liftEnv. destruct (m (env s)). repeat split; done.
  - intros lvl h s msg s0. repeat split; done.
  - set_solver.
  - intros status _ s0. by eapply frame_alter.
  - intros kc jc ck s0. by eapply frame_alter.
  - set_solver.
  - set_solver.
  - intros P _. apply anyCall_provisioner.
Qed.

(** X11.  Whatever the provisioner and the hosts do, and also when the task
    panics, a run of [provisionCluster] for a cluster changes no other
    cluster row; it leaves the row of its cluster as it is when that row is
    marked deleted, and creates none when there is none. *)
Theorem provisioning_touches_one_cluster_row
        (W : World) (registry : gmap string ProvisionerFactory) (cid : N)
        (req : CreateClusterRequest) (st : State) :
  let st' := snd (provisionCluster W registry cid req st) in
  (forall id, id ≠ cid -> clusters (store st') !! id = clusters (store st) !! id) ∧
  (forall c, clusters (store st) !! cid = Some c -> Cluster_DeletedAt c ≠ None ->
             clusters (store st') !! cid = Some c) ∧
  (clusters (store st) !! cid = None -> clusters (store st') !! cid = None).
Proof. apply provisionCluster_frame. Qed.

Lemma like_refl cid s : like cid s s.
Proof. split; [done|]. intros c Hc. exists c. split; [done|]. split; [done|]. by left. Qed.

Lemma like_trans cid a b c : like cid a b -> like cid b c -> like cid a c.
Proof.
  intros (N1 & C1) (N2 & C2). split; [by rewrite N2|].
  intros x Hx. destruct (C1 x Hx) as (y & Hy & Fy & Sy).
  destruct (C2 y Hy) as (z & Hz & Fz & Sz).
  exists z. split; [done|]. split; [by rewrite Fz|].
  apply elem_of_cons in Sz as [->|Sz]; [done|]. by right.
Qed.

Lemma steady_refl cid st : steady cid st st.
Proof.
  split; [apply like_refl|]. exists []. by rewrite app_nil_r.
Qed.

Lemma steady_trans cid a b c : steady cid a b -> steady cid b c -> steady cid a c.
Proof.
  intros (L1 & n1 & H1 & F1) (L2 & n2 & H2 & F2).
  split; [by eapply like_trans|].
  exists (n1 ++ n2). split; [by rewrite H2, H1, app_assoc|].
  apply Forall_app. split; [done|].
  eapply Forall_impl; [exact F2|]. intros s Hs. by eapply like_trans.
Qed.

Lemma steady_same cid st st' :
  store st' = store st -> history st' = history st -> steady cid st st'.
Proof.
  intros Hs Hh. split; [rewrite Hs; apply like_refl|].
  exists []. by rewrite app_nil_r.
Qed.

Lemma steady_write cid st st' :
  like cid (store st) (store st') -> history st' = history st ++ [store st'] ->
  steady cid st st'.
Proof.
  intros L Hh. split; [done|]. exists [store st']. split; [done|].
  by apply Forall_singleton.
Qed.

Lemma like_alter cid (f : Cluster -> Cluster) s s' :
  (forall c, fixedPart (f c) = fixedPart c ∧
             Cluster_Status (f c) ∈ [Cluster_Status c; "provisioning"; "failed"; "ready"]) ->
  nodes s' = nodes s -> clusters s' = alter f cid (clusters s) ->
  like cid s s'.
Proof.
  intros Hf Hn Hc. split; [done|]. intros c Hl.
  exists (f c). rewrite Hc, lookup_alter_eq, Hl. split; [done|]. apply Hf.
Qed.

Lemma provisionCluster_steady W registry cid req st :
  steady cid st (snd (provisionCluster W registry cid req st)).
Proof.
  apply (always_provisionCluster W registry cid (steady cid) anyCall)
    with (values := ["provisioning"; "failed"; "ready"]).
  - apply steady_refl.
  - apply steady_trans.
  - intros A m _ s. unfold liftEnv. destruct (m (env s)). by apply steady_same.
  - intros lvl h s msg s0. apply steady_write; [|done].
    split; [done|]. intros c Hc. exists c. split; [done|]. split; [done|]. by left.
  - set_solver.
  - intros status Hst s0. apply steady_write; [|done].
    eapply like_alter; [|done|done].
    intros c. cbv beta. destruct (Cluster_DeletedAt c) eqn:E; (split; [done|]); [by left|].
    cbn. right. set_solver.
  - intros kc jc ck s0. apply steady_write; [|done].
    eapply like_alter; [|done|done].
    intros c. cbv beta. destruct (Cluster_DeletedAt c) eqn:E; (split; [done|]); by left.
  - set_solver.
  - set_solver.
  - intros P _. apply anyCall_provisioner.
Qed.

Lemma moments_like W registry cid req st s :
  s ∈ moments (provisionCluster W registry cid req) st -> like cid (store st) s.
Proof.
  unfold moments.
  destruct (provisionCluster_steady W registry cid req st) as (_ & added & -> & F).
  rewrite drop_app_length. intros [->|Hs]%elem_of_cons; [apply like_refl|].
  by eapply Forall_forall in F.
Qed.

Lemma after_moment k s later : after k s later ∈ s :: later.
Proof.
  revert s later. induction k as [|k IH]; intros s later; [by left|].
  destruct later as [|s' later]; [by left|]. right. apply IH.
Qed.

Lemma behind_step {A : Type} W (task : M State A) st :
  wp (behind W task)
     (fun r st' => st' = st ∧
        ∃ seen, r = Done seen ∧ seen ∈ moments task st ∧
                (task_ahead W (steps (env st)) = 0%nat -> seen = store st)) st.
Proof.
  unfold wp, behind. cbn [fst snd]. split; [done|]. eexists. split; [done|]. split.
  - apply after_moment.
  - by intros ->.
Qed.

Lemma fixedPart_view (c c' : Cluster) ns evs :
  fixedPart c' = fixedPart c ->
  fixedPart (withEvents evs (withNodes ns c')) = fixedPart (withNodes ns c).
Proof.
  destruct c, c'. unfold fixedPart, withEvents, withSecrets, withStatus, withNodes.
  cbn. intros [=]. by subst.
Qed.

Lemma firstWithNodes_like cid s s' c :
  like cid s s' -> clusters s !! cid = Some c -> Cluster_DeletedAt c = None ->
  ∃ c', clusters s' !! cid = Some c' ∧ Cluster_DeletedAt c' = None ∧
        firstWithNodes cid s' = Some (withNodes (nodesOf cid s) c') ∧
        fixedPart c' = fixedPart c ∧
        Cluster_Status c' ∈ [Cluster_Status c; "provisioning"; "failed"; "ready"].
Proof.
  intros (Hn & Hc) Hl Hd. destruct (Hc c Hl) as (c' & Hl' & Hf & Hs).
  assert (Cluster_DeletedAt c' = None) as Hd'.
  { apply (f_equal Cluster_DeletedAt) in Hf. cbn in Hf. by rewrite Hf. }
  exists c'. split; [done|]. split; [done|]. split; [|done].
  unfold firstWithNodes, nodesOf. by rewrite Hl', Hd', Hn.
Qed.

Lemma mirrored_refl cid st : mirrored cid st st.
Proof. exists []. by rewrite !app_nil_r. Qed.

Lemma mirrored_trans cid a b c : mirrored cid a b -> mirrored cid b c -> mirrored cid a c.
Proof.
  intros (n1 & E1 & H1 & F1) (n2 & E2 & H2 & F2). exists (n1 ++ n2).
  rewrite E2, E1, H2, H1, fmap_app, !app_assoc. by rewrite Forall_app.
Qed.

(** X12.  In every run of [provisionCluster] each event that is persisted
    is of the cluster of the run and is handed to [Hub.BroadcastEvent] as it
    was persisted, primary key included, in the order of persistence; and
    nothing else is handed to the hub. *)
Theorem every_persisted_event_is_broadcast
        (W : World) (registry : gmap string ProvisionerFactory) (cid : N)
        (req : CreateClusterRequest) (st : State) :
  mirrored cid st (snd (provisionCluster W registry cid req st)).
Proof.
  apply (always_provisionCluster W registry cid (mirrored cid) anyCall)
    with (values := ["provisioning"; "failed"; "ready"]).
  - apply mirrored_refl.
  - apply mirrored_trans.
  - intros A m _ s. unfold liftEnv. destruct (m (env s)).
    exists []. cbn. by rewrite !app_nil_r.
  - intros lvl h s msg s0. eexists [_]. cbn. repeat split. by repeat constructor.
  - set_solver.
  - intros status _ s0. exists []. cbn. by rewrite !app_nil_r.
  - intros kc jc ck s0. exists []. cbn. by rewrite !app_nil_r.
  - set_solver.
  - set_solver.
  - intros P _. apply anyCall_provisioner.
Qed.


Lemma wroteFailed_refl cid st : wroteFailed cid st st.
Proof. exists 0%nat. by rewrite app_nil_r. Qed.

Lemma wroteFailed_trans cid a b c :
  wroteFailed cid a b -> wroteFailed cid b c -> wroteFailed cid a c.
Proof.
  intros (k1 & E1) (k2 & E2). exists (k1 + k2)%nat.
  by rewrite E2, E1, replicate_add, app_assoc.
Qed.

Lemma wroteFailed_same cid st st' :
  statusWrites st' = statusWrites st -> wroteFailed cid st st'.
Proof. intros H. exists 0%nat. by rewrite app_nil_r. Qed.

Section Shape.

Context (W : World) (cid : N).

Lemma shape_failed {A : Type} (m : M State A) :
  always (wroteFailed cid) m -> always (wroteFailedThenReady cid) m.
Proof. intros Hm st. destruct (Hm st) as [k E]. exists k, false. by rewrite app_nil_r. Qed.

Lemma shape_bind {A B : Type} (m : M State A) (k : A -> M State B) :
  always (wroteFailed cid) m -> (forall a, always (wroteFailedThenReady cid) (k a)) ->
  always (wroteFailedThenReady cid) (bind m k).
Proof.
  intros Hm Hk st. unfold bind. specialize (Hm st).
  destruct (m st) as [[a|msg|] st1]; cbn in *.
  - destruct Hm as (k1 & E1). destruct (Hk a st1) as (k2 & b & E2).
    exists (k1 + k2)%nat, b. by rewrite E2, E1, replicate_add, !app_assoc.
  - destruct Hm as (k1 & E1). exists k1, false. by rewrite app_nil_r.
  - destruct Hm as (k1 & E1). exists k1, false. by rewrite app_nil_r.
Qed.

Lemma wroteFailed_liftEnv {A : Type} (m : M Env A) : always (wroteFailed cid) (liftEnv m).
Proof. intros st. unfold liftEnv. destruct (m (env st)). by apply wroteFailed_same. Qed.

Lemma wroteFailed_logEvent lvl h s msg : always (wroteFailed cid) (logEvent W cid lvl h s msg).
Proof. intros st. by apply wroteFailed_same. Qed.

Lemma wroteFailed_logError msg err : always (wroteFailed cid) (logError W cid msg err).
Proof.
  intros st. unfold logError, bind, logEvent, BroadcastEvent, bind. cbn.
  destruct (broadcastHasRoom W (length (hub st))); cbn;
    [by exists 1%nat|exists 0%nat; by rewrite app_nil_r].
Qed.

Lemma wroteFailed_UpdateSecrets kc jc ck :
  always (wroteFailed cid) (UpdateSecrets W cid kc jc ck).
Proof. intros st. by apply wroteFailed_same. Qed.

Lemma wroteFailed_joinControlPlanes P cps result :
  always (wroteFailed cid) (joinControlPlanes W P cid cps result).
Proof.
  apply (always_joinControlPlanes W cid (wroteFailed cid) anyCall)
    with (values := ["failed"]).
  - apply wroteFailed_refl.
  - apply wroteFailed_trans.
  - intros A m _. apply wroteFailed_liftEnv.
  - apply wroteFailed_logEvent.
  - set_solver.
  - intros status ->%list_elem_of_singleton st. by exists 1%nat.
  - apply anyCall_provisioner.
Qed.

Lemma wroteFailed_joinWorkers P ws result :
  always (wroteFailed cid) (joinWorkers W P cid ws result).
Proof.
  apply (always_joinWorkers W cid (wroteFailed cid) anyCall)
    with (values := ["failed"]).
  - apply wroteFailed_refl.
  - apply wroteFailed_trans.
  - intros A m _. apply wroteFailed_liftEnv.
  - apply wroteFailed_logEvent.
  - set_solver.
  - intros status ->%list_elem_of_singleton st. by exists 1%nat.
  - apply anyCall_provisioner.
Qed.

End Shape.

(** X13.  The values a run of [provisionCluster] writes to column [status]
    are, in this order: [provisioning] once, then [failed] any number of
    times, then possibly [ready] once.  All are written to the row of the
    cluster of the run; nothing is written after [ready]. *)
Theorem status_writes_of_a_run
        (W : World) (registry : gmap string ProvisionerFactory) (cid : N)
        (req : CreateClusterRequest) (st : State) :
  ∃ k (ready : bool),
    statusWrites (snd (provisionCluster W registry cid req st))
    = statusWrites st ++ [(cid, "provisioning")] ++ replicate k (cid, "failed")
      ++ (if ready then [(cid, "ready")] else []).
Proof.
  cut (wroteFailedThenReady cid
         (snd (UpdateStatus W cid "provisioning" st))
         (snd (provisionCluster W registry cid req st))).
  { intros (k & b & E). exists k, b. rewrite E. cbn. by rewrite <- !app_assoc. }
  unfold provisionCluster. unfold bind at 1.
  destruct (UpdateStatus W cid "provisioning" st) as [r s1] eqn:E1.
  assert (r = Done tt) as -> by (by injection E1 as <- _). cbn [snd].
  generalize s1. clear E1 s1. change (always (wroteFailedThenReady cid) ?m) with
    (forall s1, wroteFailedThenReady cid s1 (snd (m s1))).
  destruct (GetProvisioner registry "kubeadm" ∅) as [P|err];
    [|apply shape_failed, wroteFailed_logError].
  apply shape_bind; [apply wroteFailed_liftEnv|].
  intros [spec [err|]]; [apply shape_failed, wroteFailed_logError|].
  apply shape_bind; [apply wroteFailed_logEvent|]. intros _.
  apply shape_bind; [apply wroteFailed_liftEnv|].
  intros [err|]; [apply shape_failed, wroteFailed_logError|].
  destruct (ControlPlanes spec) as [|cp0 cps].
  { intros s. exists 0%nat, false. by rewrite app_nil_r. }
  apply shape_bind; [apply wroteFailed_logEvent|]. intros _.
  apply shape_bind; [apply wroteFailed_liftEnv|].
  intros [result [err|]]; [apply shape_failed, wroteFailed_logError|].
  destruct result as [result|].
  2: { intros s. exists 0%nat, false. by rewrite app_nil_r. }
  apply shape_bind; [apply wroteFailed_UpdateSecrets|]. intros _.
  apply shape_bind; [apply wroteFailed_logEvent|]. intros _.
  apply shape_bind; [apply wroteFailed_liftEnv|]. intros err.
  apply shape_bind.
  { destruct err; [apply wroteFailed_logError|]. intros s. apply wroteFailed_refl. }
  intros _.
  apply shape_bind; [apply wroteFailed_joinControlPlanes|]. intros _.
  apply shape_bind; [apply wroteFailed_joinWorkers|]. intros _.
  intros s. by exists 0%nat, true.
Qed.


Lemma silent_ret {A : Type} (a : A) : silent (ret a).
Proof. done. Qed.

Lemma silent_panic {A : Type} msg : silent (@panic Env A msg).
Proof. done. Qed.

Lemma silent_block {A : Type} : silent (@block Env A).
Proof. done. Qed.

Lemma silent_bind {A B : Type} (m : M Env A) (k : A -> M Env B) :
  silent m -> (forall a, silent (k a)) -> silent (bind m k).
Proof.
  intros Hm Hk e. unfold bind. specialize (Hm e).
  destruct (m e) as [[a|msg|] e1]; cbn in *; [|done|done]. by rewrite Hk.
Qed.

Lemma silent_ask W {A : Type} (f : World -> nat -> A) : silent (ask W f).
Proof. done. Qed.

Lemma silent_emitEvent W p lvl h s msg :
  eventCallback p = None -> silent (emitEvent W p lvl h s msg).
Proof. intros Hp. unfold emitEvent. by rewrite Hp. Qed.

Create HintDb silent.

#[global] Hint Resolve silent_ret silent_panic silent_block silent_ask silent_emitEvent
  : silent.

Ltac silent_step :=
  first
    [ progress auto with silent
    | apply silent_bind; [|intros ?]
    | match goal with
      | |- silent (match ?x with _ => _ end) => destruct x
      | |- silent (let '(_, _) := ?x in _) => destruct x
      | |- silent (if ?x then _ else _) => destruct x
      end ].

Section Silent.

Context (W : World) (p : KubeadmProvisioner) (Hp : eventCallback p = None).

Lemma silent_NewSSHClient host : silent (NewSSHClient W host).
Proof. unfold NewSSHClient. repeat silent_step. Qed.

Lemma silent_RunCommand c cmd : silent (RunCommand W c cmd).
Proof. unfold RunCommand. repeat silent_step. Qed.

Hint Resolve silent_NewSSHClient silent_RunCommand : silent.

Lemma silent_prepareHost host rt v : silent (prepareHost W p host rt v).
Proof.
  unfold prepareHost, orReturn, TestConnection, GetHostInfo, installContainerRuntime,
    installContainerd, installCRIO, installKubernetesTools.
  repeat silent_step.
Qed.

Lemma silent_PrepareHosts hosts rt v : silent (Kubeadm_PrepareHosts W p hosts rt v).
Proof.
  induction hosts as [|h rest IH]; cbn [Kubeadm_PrepareHosts]; [apply silent_ret|].
  unfold orReturn. apply silent_bind; [apply silent_prepareHost|].
  intros [err|]; [apply silent_ret|done].
Qed.

Lemma silent_Bootstrap host spec : silent (Kubeadm_BootstrapControlPlane W p host spec).
Proof.
  unfold Kubeadm_BootstrapControlPlane, AddEvent, NewProvisionEvent, Now, liftOutcome.
  repeat silent_step.
Qed.

Lemma silent_InstallCNI kc cni cp : silent (Kubeadm_InstallCNI W p kc cni cp).
Proof. unfold Kubeadm_InstallCNI. repeat silent_step. Qed.

Lemma silent_JoinControlPlane host cmd key :
  silent (Kubeadm_JoinControlPlane W p host cmd key).
Proof. unfold Kubeadm_JoinControlPlane. repeat silent_step. Qed.

Lemma silent_JoinWorker host cmd : silent (Kubeadm_JoinWorker W p host cmd).
Proof. unfold Kubeadm_JoinWorker. repeat silent_step. Qed.

Lemma silent_Kubeadm : provisionerCalls (@silent) (Kubeadm W p).
Proof.
  split; [intros spec; apply silent_ret|].
  split; [intros hosts rt v; apply silent_PrepareHosts|].
  split; [intros h spec; apply silent_Bootstrap|].
  split; [intros kc cni h; apply silent_InstallCNI|].
  split; [intros h cmd key; apply silent_JoinControlPlane|].
  intros h cmd. apply silent_JoinWorker.
Qed.

End Silent.

(** X14.  The provisioner that the registry builds for the name [kubeadm]
    has no event callback, so a run of [provisionCluster] with it hands no
    event of the provisioner (connection, swap, installation, join) to any
    callback: the events of a run are those that the task itself logs. *)
Theorem registered_provisioner_reports_no_event
        (W : World) (cid : N) (req : CreateClusterRequest) (st : State) :
  quiet st (snd (provisionCluster W (provisionerRegistry W) cid req st)).
Proof.
  apply (always_provisionCluster W (provisionerRegistry W) cid quiet (@silent))
    with (values := ["provisioning"; "failed"; "ready"]).
  - done.
  - unfold quiet. intros a b c H1 H2. by rewrite H2.
  - intros A m Hm s. unfold quiet, liftEnv. specialize (Hm (env s)).
    by destruct (m (env s)).
  - done.
  - set_solver.
  - done.
  - done.
  - set_solver.
  - set_solver.
  - intros P HP. rewrite provisionerRegistry_kubeadm in HP. injection HP as <-.
    by apply silent_Kubeadm.
Qed.

(** ** Failures that end the provisioning task *)

(** X15.  When [ClusterSpec.Validate] rejects the specification of the
    request, a run with the registered kubeadm provisioner asks nothing of
    the hosts: run in two worlds that agree on the clock and on the hub it
    gives the same outcome and the same state.  When the channel of the hub
    takes one more message the task returns and the cluster ends [failed],
    with one event, which carries the text of the validation error.  When
    the channel is full the task stays blocked in [logEvent]: the event is
    persisted, [failed] is never written and the cluster stays
    [provisioning]. *)
Theorem invalid_spec_contacts_no_host
        (W1 W2 : World) (cid : N) (req : CreateClusterRequest) (err : error) (st : State) :
  (forall n, time_Now W1 n = time_Now W2 n) ->
  Hub_receives W1 = Hub_receives W2 ->
  (ClusterSpec_Validate (specOfRequest req)).2 = Some err ->
  provisionCluster W1 (provisionerRegistry W1) cid req st
  = provisionCluster W2 (provisionerRegistry W2) cid req st
  ∧ (live cid st -> room W1 1 st ->
     ∃ st', provisionCluster W1 (provisionerRegistry W1) cid req st = (Done tt, st') ∧
       statusIs cid "failed" st' ∧
       trace cid [("error", "localhost", "error", "Invalid cluster spec: " +:+ err)]
             [(cid, "provisioning"); (cid, "failed")] st st')
  ∧ (live cid st -> ¬ room W1 1 st ->
     ∃ st', provisionCluster W1 (provisionerRegistry W1) cid req st = (Blocked, st') ∧
       statusIs cid "provisioning" st' ∧
       trace cid [("error", "localhost", "error", "Invalid cluster spec: " +:+ err)]
             [(cid, "provisioning")] st st').
Proof.
  intros Hclock Hhub Hv. split; [|split].
  - unfold provisionCluster. rewrite !provisionerRegistry_kubeadm.
    unfold bind at 1 3. cbn [UpdateStatus]. unfold UpdateStatus, updateCluster, now.
    cbn -[ClusterSpec_Validate specOfRequest].
    destruct (ClusterSpec_Validate (specOfRequest req)) as [spec' [err'|]]; [|done].
    cbn. unfold broadcastHasRoom. by rewrite !Hclock, Hhub.
  - intros Hlive Hroom.
    destruct (ClusterSpec_Validate (specOfRequest req)) as [spec' o] eqn:Hval.
    cbn in Hv. subst o.
    apply (run_stops_at_validation W1 _ cid _ req spec' err st
             (provisionerRegistry_kubeadm W1) Hlive Hroom).
    intros e. cbn. by rewrite Hval.
  - intros Hlive Hroom.
    destruct (ClusterSpec_Validate (specOfRequest req)) as [spec' o] eqn:Hval.
    cbn in Hv. subst o.
    apply (run_blocks_at_validation W1 _ cid _ req spec' err st
             (provisionerRegistry_kubeadm W1) Hlive Hroom).
    intros e. cbn. by rewrite Hval.
Qed.

Lemma invalid_spec_contacts_no_host_witness :
  provisionCluster Scenario.allSucceed (provisionerRegistry Scenario.allSucceed) 1%N
                   Scenario.keyless
                   (Scenario.accepted Scenario.allSucceed Scenario.keyless)
  = provisionCluster Scenario.unreachable (provisionerRegistry Scenario.unreachable) 1%N
                     Scenario.keyless
                     (Scenario.accepted Scenario.allSucceed Scenario.keyless).
Proof.
  apply (invalid_spec_contacts_no_host Scenario.allSucceed Scenario.unreachable 1%N
           Scenario.keyless
           (ErrInvalidSpec "SSH key or key path is required for host 10.0.0.1")).
  - reflexivity.
  - reflexivity.
  - reflexivity.
Defined.

(** X16.  For any provisioner: when validation succeeds, [PrepareHosts]
    returns an error and the channel of the hub takes two more messages, the
    task returns, the cluster is [failed], the status writes are
    [provisioning] and [failed], and the events of the run are the one of
    step [prepare] and the error with the text of that error; no bootstrap
    is attempted and no secret column changes. *)
Theorem prepare_failure_is_fatal
        (W : World) (registry : gmap string ProvisionerFactory) (cid : N)
        (P : IProvisioner) (req : CreateClusterRequest) (spec : ClusterSpec)
        (err : error) (st : State) :
  GetProvisioner registry "kubeadm" ∅ = Ok P ->
  live cid st ->
  room W 2 st ->
  (forall e, fst (ValidateSpec P (specOfRequest req) e) = Done (spec, None)) ->
  (forall e, fst (PrepareHosts P (ControlPlanes spec ++ Workers spec)
                    (ContainerRuntime spec) (K8sVersion spec) e) = Done (Some err)) ->
  ∃ st', provisionCluster W registry cid req st = (Done tt, st') ∧
    statusIs cid "failed" st' ∧
    trace cid [ ("info", "localhost", "prepare", "Preparing hosts");
                ("error", "localhost", "error", "Failed to prepare hosts: " +:+ err) ]
          [(cid, "provisioning"); (cid, "failed")] st st'.
Proof.
  intros Hreg Hlive Hroom Hval Hprep.
  destruct (run_stops_at_prepare W registry cid P req spec st Hreg Hlive Hroom Hval)
    as (st' & e & err' & Hrun & He & Hst & Htr).
  { intros e. by exists err. }
  rewrite Hprep in He. injection He as <-. by exists st'.
Qed.

(** The registered kubeadm provisioner in a world where no host answers the
    dial. *)
Lemma prepare_failure_is_fatal_witness :
  ∃ st', provisionCluster Scenario.unreachable (provisionerRegistry Scenario.unreachable)
           1%N Scenario.oneWorker
           (Scenario.accepted Scenario.unreachable Scenario.oneWorker) = (Done tt, st')
    ∧ statusIs 1%N "failed" st'.
Proof.
  destruct (prepare_failure_is_fatal
              Scenario.unreachable (provisionerRegistry Scenario.unreachable) 1%N
              (Kubeadm Scenario.unreachable (mkKubeadmProvisioner None))
              Scenario.oneWorker
              (setDefaults (specOfRequest Scenario.oneWorker))
              ("failed to prepare host 10.0.0.1: failed to connect: "
               +:+ "failed to connect to 10.0.0.1:22: dial tcp: i/o timeout")
              (Scenario.accepted Scenario.unreachable Scenario.oneWorker))
    as (st' & Hrun & Hfailed & _).
  - apply provisionerRegistry_kubeadm.
  - eexists. split; [vm_compute; reflexivity|reflexivity].
  - vm_compute. lia.
  - intros e. vm_compute. reflexivity.
  - intros e. vm_compute. reflexivity.
  - exists st'. exact (conj Hrun Hfailed).
Defined.

(** X17.  For any provisioner: when validation and the preparation of the
    hosts of the specification succeed, [BootstrapControlPlane] returns an
    error, whether or not with a partial result, and the channel of the hub
    takes three more messages, the task returns, the cluster is [failed],
    the events of the run are those of steps [prepare] and [bootstrap] and
    the error; no CNI is installed, no node is joined, and no secret column
    changes. *)
Theorem bootstrap_failure_is_fatal
        (W : World) (registry : gmap string ProvisionerFactory) (cid : N)
        (P : IProvisioner) (req : CreateClusterRequest) (spec : ClusterSpec)
        (cp0 : HostSpec) (cps : list HostSpec) (err : error) (st : State) :
  GetProvisioner registry "kubeadm" ∅ = Ok P ->
  live cid st ->
  room W 3 st ->
  ControlPlanes spec = cp0 :: cps ->
  (forall e, fst (ValidateSpec P (specOfRequest req) e) = Done (spec, None)) ->
  (forall e, fst (PrepareHosts P (ControlPlanes spec ++ Workers spec)
                    (ContainerRuntime spec) (K8sVersion spec) e) = Done None) ->
  (forall e, ∃ partial,
     fst (BootstrapControlPlane P cp0 spec e) = Done (partial, Some err)) ->
  ∃ st', provisionCluster W registry cid req st = (Done tt, st') ∧
    statusIs cid "failed" st' ∧
    trace cid [ ("info", "localhost", "prepare", "Preparing hosts");
                ("info", Address cp0, "bootstrap", "Bootstrapping control plane");
                ("error", "localhost", "error",
                 "Failed to bootstrap control plane: " +:+ err) ]
          [(cid, "provisioning"); (cid, "failed")] st st'.
Proof. intros. by eapply run_stops_at_bootstrap. Qed.

(** The registered kubeadm provisioner in a world where [kubeadm init]
    fails. *)
Lemma bootstrap_failure_is_fatal_witness :
  ∃ st', provisionCluster Scenario.initFails (provisionerRegistry Scenario.initFails)
           1%N Scenario.oneWorker
           (Scenario.accepted Scenario.initFails Scenario.oneWorker) = (Done tt, st')
    ∧ statusIs 1%N "failed" st'.
Proof.
  destruct (bootstrap_failure_is_fatal
              Scenario.initFails (provisionerRegistry Scenario.initFails) 1%N
              (Kubeadm Scenario.initFails (mkKubeadmProvisioner None))
              Scenario.oneWorker
              (setDefaults (specOfRequest Scenario.oneWorker))
              Scenario.cp1 [] "kubeadm init failed: Process exited with status 1"
              (Scenario.accepted Scenario.initFails Scenario.oneWorker))
    as (st' & Hrun & Hfailed & _).
  - apply provisionerRegistry_kubeadm.
  - eexists. split; [vm_compute; reflexivity|reflexivity].
  - vm_compute. lia.
  - vm_compute. reflexivity.
  - intros e. vm_compute. reflexivity.
  - intros e. vm_compute. reflexivity.
  - intros e. eexists. vm_compute. reflexivity.
  - exists st'. exact (conj Hrun Hfailed).
Defined.

Lemma Validate_accepted_inv cs cs' :
  ClusterSpec_Validate cs = (cs', None) ->
  cs' = setDefaults cs ∧ ControlPlanes cs ≠ [].
Proof.
  unfold ClusterSpec_Validate. destruct (String.eqb (Name cs) ""); [done|].
  destruct (ControlPlanes cs); [done|]. cbn [length Nat.eqb].
  intros [= <- _]. done.
Qed.

(** X18.  With the registered kubeadm provisioner, a request whose
    container runtime is neither empty nor [containerd], or whose version is
    not empty and has no dot, ends [failed], whatever the hosts answer, when
    the channel of the hub takes two more messages: the events of the run
    are of steps [prepare] and [error] only. *)
Theorem unpreparable_request_ends_failed
        (W : World) (cid : N) (req : CreateClusterRequest) (st : State) :
  live cid st ->
  room W 2 st ->
  (Req_ContainerRuntime req ≠ "" ∧ Req_ContainerRuntime req ≠ "containerd")
  ∨ (Req_K8sVersion req ≠ "" ∧ Contains (Req_K8sVersion req) "." = false) ->
  ∃ st' added, provisionCluster W (provisionerRegistry W) cid req st = (Done tt, st') ∧
    statusIs cid "failed" st' ∧
    trace cid added [(cid, "provisioning"); (cid, "failed")] st st' ∧
    Forall (fun x => x.1.2 = "prepare" ∨ x.1.2 = "error") added.
Proof.
  intros Hlive Hroom Hbad.
  destruct (ClusterSpec_Validate (specOfRequest req)) as [spec [err|]] eqn:Hval.
  - destruct (run_stops_at_validation W _ cid _ req spec err st
                (provisionerRegistry_kubeadm W) Hlive) as (st' & Hrun & Hst & Htr).
    { eapply room_le; [|exact Hroom]. lia. }
    { intros e. cbn. by rewrite Hval. }
    exists st'. eexists. split; [done|]. split; [done|]. split; [done|].
    apply Forall_cons. split; [by right|constructor].
  - apply Validate_accepted_inv in Hval as Hinv. destruct Hinv as [-> Hcps].
    destruct (setDefaults_hosts (specOfRequest req)) as (_ & Ec & Ew).
    destruct (setDefaults_fields (specOfRequest req)) as ([_ Hk] & _ & _ & _ & [_ Hr]).
    destruct (run_stops_at_prepare W _ cid _ req (setDefaults (specOfRequest req)) st
                (provisionerRegistry_kubeadm W) Hlive Hroom)
      as (st' & e & err & Hrun & _ & Hst & Htr).
    { intros e. cbn. by rewrite Hval. }
    { cbn [PrepareHosts Kubeadm]. rewrite Ec.
      destruct (ControlPlanes (specOfRequest req)) as [|cp0 cps]; [done|].
      cbn [app]. apply PrepareHosts_fails; [by left|].
      destruct Hbad as [[Hne Hrt]|[Hne Hv]].
      - left. by rewrite (Hr Hne).
      - right. by rewrite (Hk Hne). }
    exists st'. eexists. split; [done|]. split; [done|]. split; [done|].
    apply Forall_cons. split; [by left|].
    apply Forall_cons. split; [by right|constructor].
Qed.

Lemma unpreparable_request_ends_failed_witness :
  ∃ st', provisionCluster Scenario.allSucceed (provisionerRegistry Scenario.allSucceed)
           1%N Scenario.crio (Scenario.accepted Scenario.allSucceed Scenario.crio)
         = (Done tt, st')
    ∧ statusIs 1%N "failed" st'.
Proof.
  destruct (unpreparable_request_ends_failed Scenario.allSucceed 1%N Scenario.crio
              (Scenario.accepted Scenario.allSucceed Scenario.crio))
    as (st' & added & Hrun & Hfailed & _).
  - eexists. split; [vm_compute; reflexivity|reflexivity].
  - vm_compute. lia.
  - left. done.
  - exists st'. exact (conj Hrun Hfailed).
Defined.

(** ** The handlers of the cluster routes *)

Lemma ParseUint32_idText id : (id < 2 ^ 32)%N -> ParseUint32 (idText id) = Some id.
Proof.
  intros Hid. unfold ParseUint32, idText, decimal.
  assert (Z.to_int (Z.of_N id) = Decimal.Pos (N.to_uint id)) as -> by (by destruct id).
  cbn [NilZero.string_of_int]. rewrite NilZero.usu.
  - cbv zeta. rewrite DecimalN.Unsigned.of_to.
    destruct (N.leb_spec id 4294967295); [done|]. change (2 ^ 32)%N with 4294967296%N in Hid. lia.
  - destruct id as [|p]; [done|]. cbn. apply DecimalPos.Unsigned.to_uint_nonnil.
Qed.

Lemma ParseUint32_digits s id :
  ParseUint32 s = Some id -> s ≠ "" ∧ (id < 2 ^ 32)%N.
Proof.
  unfold ParseUint32. destruct s as [|c s]; [done|].
  destruct (NilZero.uint_of_string (String c s)); [|done]. cbv zeta.
  destruct (N.leb_spec (N.of_uint u) 4294967295); [|done].
  intros [= <-]. split; [done|]. change (2 ^ 32)%N with 4294967296%N. lia.
Qed.

Lemma now_step W st :
  wp (now W) (fun r st' => r = Done (time_Now W (steps (env st))) ∧ store st' = store st ∧
                           hub st' = hub st ∧ statusWrites st' = statusWrites st) st.
Proof. done. Qed.

Lemma createNodes_rows W cid role hosts st :
  wp (createNodes W cid role hosts)
     (fun r st' => r = Done tt ∧
        (∃ new, nodes (store st') = nodes (store st) ++ new ∧
                nodeSummary <$> new = nodeRowOf cid role <$> hosts) ∧
        clusters (store st') = clusters (store st) ∧
        events (store st') = events (store st) ∧
        jobs (store st') = jobs (store st) ∧
        hub st' = hub st ∧ statusWrites st' = statusWrites st) st.
Proof.
  revert st. induction hosts as [|h rest IH]; intros st.
  { apply wp_ret. split; [done|]. split; [|done]. exists []. by rewrite app_nil_r. }
  cbn [createNodes].
  eapply wp_bind; [apply now_step|]. intros r s1 (-> & E1 & H1 & S1).
  eapply wp_bind; [apply now_step|]. intros r s2 (-> & E2 & H2 & S2).
  eapply wp_bind with
    (R := fun r st' => r = Done tt ∧
            (∃ n, nodes (store st') = nodes (store st) ++ [n] ∧
                  nodeSummary n = nodeRowOf cid role h) ∧
            clusters (store st') = clusters (store st) ∧
            events (store st') = events (store st) ∧
            jobs (store st') = jobs (store st) ∧
            hub st' = hub st ∧ statusWrites st' = statusWrites st).
  { unfold wp. cbn. rewrite E2, E1, H2, H1, S2, S1. split; [done|].
    split; [by eexists|done]. }
  intros r s3 (-> & (n & N3 & Hn) & C3 & V3 & J3 & H3 & S3).
  eapply wp_mono; [apply IH|].
  intros r s4 (-> & (new & N4 & Hnew) & C4 & V4 & J4 & H4 & S4).
  split; [done|]. split.
  - exists (n :: new). rewrite N4, N3, <- app_assoc. split; [done|].
    by rewrite !fmap_cons, Hn, Hnew.
  - by rewrite C4, C3, V4, V3, J4, J3, H4, H3, S4, S3.
Qed.

Lemma setDefaults_orElse cs :
  K8sVersion (setDefaults cs) = orElse "1.28.0" (K8sVersion cs) ∧
  PodNetworkCIDR (setDefaults cs) = orElse "10.244.0.0/16" (PodNetworkCIDR cs) ∧
  ServiceCIDR (setDefaults cs) = orElse "10.96.0.0/12" (ServiceCIDR cs) ∧
  CNI (setDefaults cs) = orElse "calico" (CNI cs) ∧
  ContainerRuntime (setDefaults cs) = orElse "containerd" (ContainerRuntime cs).
Proof.
  unfold orElse. split; [|split; [|split; [|split]]].
  - by through_defaults K8sVersion.
  - by through_defaults PodNetworkCIDR.
  - by through_defaults ServiceCIDR.
  - by through_defaults CNI.
  - by through_defaults ContainerRuntime.
Qed.

Lemma name_is_taken (m : gmap N Cluster) name id c :
  m !! id = Some c -> Cluster_Name c = name ->
  existsb (fun kv => String.eqb (Cluster_Name (snd kv)) name) (map_to_list m) = true.
Proof.
  intros Hc Hn. apply existsb_exists. exists (id, c). split.
  - apply list_elem_of_In, elem_of_map_to_list. done.
  - cbn. by apply String.eqb_eq.
Qed.

Lemma CreateJobRow_step j st :
  wp (CreateJobRow j)
     (fun r st' => r = Done tt ∧
        clusters (store st') = clusters (store st) ∧
        nodes (store st') = nodes (store st) ∧
        events (store st') = events (store st) ∧
        hub st' = hub st ∧ statusWrites st' = statusWrites st) st.
Proof. done. Qed.

(** What [CreateCluster] does with a well-formed request. *)
Lemma CreateCluster_wellformed W registry req st :
  Req_Name req ≠ "" -> Req_ControlPlanes req ≠ [] ->
  let id := nextID (size (clusters (store st))) in
  let taken := existsb (fun kv => String.eqb (Cluster_Name (snd kv)) (Req_Name req))
                       (map_to_list (clusters (store st))) in
  wp (CreateCluster W registry (Some req))
     (fun r st' =>
        hub st' = hub st ∧ statusWrites st' = statusWrites st ∧
        events (store st') = events (store st) ∧
        if taken then
          r = Done (WriteInternalError "Failed to create cluster", None) ∧
          store st' = store st
        else
          ∃ t1 t2 new seen,
            let c := requestedRow req id t1 t2 in
            r = Done (WriteCreated (marshalCluster (default c (firstWithNodes id seen))),
                      Some (id, req)) ∧
            seen ∈ moments (provisionCluster W registry id req) st' ∧
            (task_ahead W (steps (env st')) = 0%nat -> seen = store st') ∧
            clusters (store st') = <[id := c]> (clusters (store st)) ∧
            nodes (store st') = nodes (store st) ++ new ∧
            nodeSummary <$> new
            = (nodeRowOf id "control-plane" <$> Req_ControlPlanes req)
              ++ (nodeRowOf id "worker" <$> Req_Workers req)) st.
Proof.
  intros Hname Hcps id taken. unfold CreateCluster.
  rewrite eqb_empty_false by done.
  destruct (Req_ControlPlanes req) as [|cp0 cps] eqn:Ecps; [done|]. cbn [length Nat.eqb].
  rewrite <- Ecps. clear Hcps.
  eapply wp_bind; [apply now_step|]. intros r s1 (-> & E1 & H1 & S1).
  eapply wp_bind; [apply now_step|]. intros r s2 (-> & E2 & H2 & S2).
  set (t1 := time_Now W (steps (env st))). set (t2 := time_Now W (steps (env s1))).
  eapply wp_bind with
    (R := fun r st' =>
            hub st' = hub s2 ∧ statusWrites st' = statusWrites s2 ∧
            if taken then
              r = Done (Err "UNIQUE constraint failed: clusters.name") ∧
              store st' = store s2
            else
              r = Done (Ok (requestedRow req id t1 t2)) ∧
              store st' = mkStore (<[id := requestedRow req id t1 t2]>
                                     (clusters (store st)))
                                  (nodes (store st)) (events (store st))
                                  (jobs (store st))).
  { unfold wp, CreateClusterRow, bind, getStore. cbn [fst snd].
    rewrite E2, E1. cbn [Cluster_Name]. fold taken. fold id.
    destruct taken; cbn; repeat split; try done; congruence. }
  intros r s3 (H3 & S3 & R3). destruct taken eqn:Htaken.
  { destruct R3 as [-> E3]. unfold wp. cbn.
    rewrite E3, E2, E1, H3, S3, H2, H1, S2, S1. done. }
  destruct R3 as [-> E3]. cbn [Cluster_ID requestedRow].
  eapply wp_bind; [apply createNodes_rows|].
  intros r s4 (-> & (new1 & N4 & Hnew1) & C4 & V4 & J4 & H4 & S4).
  eapply wp_bind; [apply createNodes_rows|].
  intros r s5 (-> & (new2 & N5 & Hnew2) & C5 & V5 & J5 & H5 & S5).
  eapply wp_bind; [apply now_step|]. intros r s6 (-> & E6 & H6 & S6).
  eapply wp_bind; [apply now_step|]. intros r s7 (-> & E7 & H7 & S7).
  eapply wp_bind; [apply CreateJobRow_step|].
  intros r s8 (-> & C8 & N8 & V8 & H8 & S8).
  eapply wp_bind; [apply behind_step|]. intros r s9 (-> & seen & -> & Hin & H0).
  apply wp_ret.
  split; [by rewrite H8, H7, H6, H5, H4, H3, H2, H1|].
  split; [by rewrite S8, S7, S6, S5, S4, S3, S2, S1|].
  split; [by rewrite V8, E7, E6, V5, V4, E3|].
  exists t1, t2, (new1 ++ new2), seen. split; [done|]. split; [done|]. split; [done|].
  split; [by rewrite C8, E7, E6, C5, C4, E3|].
  split; [by rewrite N8, E7, E6, N5, N4, E3, <- app_assoc|].
  by rewrite fmap_app, Hnew1, Hnew2.
Qed.

Lemma CreateCluster_malformed W registry decoded st :
  malformed decoded ->
  ∃ message,
    CreateCluster W registry decoded st = (Done (WriteBadRequest message, None), st).
Proof.
  destruct decoded as [req|]; [|by eexists]. cbn. unfold CreateCluster.
  destruct (String.eqb_spec (Req_Name req) ""); [by eexists|].
  intros [?|Hc]; [done|]. rewrite Hc. by eexists.
Qed.

(** X19.  [CreateCluster] always answers.  The status is 400 exactly when
    the body cannot be decoded, the name is empty or there is no control
    plane; the provisioning task is started exactly when the status is 201;
    with 400 or 500 the database is left as it was; and in no case is an
    event persisted, a message handed to the hub or a status written. *)
Theorem CreateCluster_answers
        (W : World) (registry : gmap string ProvisionerFactory)
        (decoded : option CreateClusterRequest) (st : State) :
  ∃ response task st',
    CreateCluster W registry decoded st = (Done (response, task), st') ∧
    (statusCode response = 400%Z <-> malformed decoded) ∧
    (is_Some task <-> statusCode response = 201%Z) ∧
    (statusCode response = 400%Z ∨ statusCode response = 500%Z -> store st' = store st) ∧
    hub st' = hub st ∧ statusWrites st' = statusWrites st ∧
    events (store st') = events (store st).
Proof.
  assert (malformed decoded ∨
          ∃ req, decoded = Some req ∧ Req_Name req ≠ "" ∧ Req_ControlPlanes req ≠ [])
    as [Hbad|(req & -> & Hname & Hcps)].
  { destruct decoded as [req|]; [|by left]. cbn.
    destruct (String.eqb_spec (Req_Name req) ""); [by left; left|].
    destruct (Req_ControlPlanes req) eqn:E; [by left; right|].
    right. exists req. by rewrite E. }
  - destruct (CreateCluster_malformed W registry decoded st Hbad) as [message ->].
    do 3 eexists. split; [done|]. cbn. repeat split; try done.
  - assert (¬ malformed (Some req)) as Hok by (cbn; tauto).
    pose proof (CreateCluster_wellformed W registry req st Hname Hcps) as H.
    cbv zeta in H. unfold wp in H.
    destruct (CreateCluster W registry (Some req) st) as [r st']. cbn [fst snd] in H.
    destruct H as (Hh & Hs & He & H).
    destruct (existsb _ _).
    + destruct H as [-> Hst]. cbn. do 3 eexists. split; [done|]. cbn.
      repeat split; try done; try (by intros [? [=]]); intuition congruence.
    + destruct H as (t1 & t2 & new & seen & -> & _). cbn.
      do 3 eexists. split; [done|]. cbn.
      repeat split; try done; try (by eexists); intuition congruence.
Qed.

(** X20.  When a row of table [clusters] has the name of the request,
    also a row that is marked deleted, [CreateCluster] answers 500 with
    [Failed to create cluster], starts no task and leaves the database as it
    was: the name of a deleted cluster cannot be taken again. *)
Theorem CreateCluster_name_taken
        (W : World) (registry : gmap string ProvisionerFactory)
        (req : CreateClusterRequest) (st : State) (id : N) (c : Cluster) :
  Req_Name req ≠ "" -> Req_ControlPlanes req ≠ [] ->
  clusters (store st) !! id = Some c -> Cluster_Name c = Req_Name req ->
  ∃ st', CreateCluster W registry (Some req) st
         = (Done (WriteInternalError "Failed to create cluster", None), st') ∧
         store st' = store st.
Proof.
  intros Hname Hcps Hc Hn.
  pose proof (CreateCluster_wellformed W registry req st Hname Hcps) as H.
  cbv zeta in H. unfold wp in H. rewrite (name_is_taken _ _ id c Hc Hn) in H.
  destruct (CreateCluster W registry (Some req) st) as [r st']. cbn [fst snd] in H.
  destruct H as (_ & _ & _ & -> & Hst). by exists st'.
Qed.

Lemma CreateCluster_name_taken_witness :
  (Cluster_DeletedAt <$> clusters (store Scenario.createdThenDeleted) !! 1%N) = Some (Some 8%Z)
  ∧ ∃ st', CreateCluster Scenario.allSucceed (provisionerRegistry Scenario.allSucceed)
                         (Some Scenario.sameName) Scenario.createdThenDeleted
           = (Done (WriteInternalError "Failed to create cluster", None), st')
           ∧ store st' = store Scenario.createdThenDeleted.
Proof.
  split; [vm_compute; reflexivity|].
  eapply (CreateCluster_name_taken Scenario.allSucceed
            (provisionerRegistry Scenario.allSucceed) Scenario.sameName
            Scenario.createdThenDeleted 1%N).
  - done.
  - done.
  - vm_compute. reflexivity.
  - reflexivity.
Defined.

Lemma fixedPart_withNodes (c c' : Cluster) ns :
  fixedPart c' = fixedPart c -> fixedPart (withNodes ns c') = fixedPart (withNodes ns c).
Proof.
  destruct c, c'. unfold fixedPart, withEvents, withSecrets, withStatus, withNodes.
  cbn. intros [=]. by subst.
Qed.

Lemma fixedPart_withEvents (c : Cluster) evs : fixedPart (withEvents evs c) = fixedPart c.
Proof. done. Qed.

(** The row that the handler reads back after it has started the task. *)
Lemma CreateCluster_reads_back W registry req id c st' seen :
  clusters (store st') !! id = Some c -> Cluster_DeletedAt c = None ->
  seen ∈ moments (provisionCluster W registry id req) st' ->
  ∃ c', clusters seen !! id = Some c' ∧ Cluster_DeletedAt c' = None ∧
        nodesOf id seen = nodesOf id (store st') ∧
        default c (firstWithNodes id seen) = withNodes (nodesOf id (store st')) c' ∧
        fixedPart c' = fixedPart c ∧
        Cluster_Status c' ∈ [Cluster_Status c; "provisioning"; "failed"; "ready"].
Proof.
  intros Hc Hd Hin. apply moments_like in Hin.
  destruct (firstWithNodes_like id _ _ c Hin Hc Hd) as (c' & Hc' & Hd' & Hf & Hfix & Hst).
  exists c'. split; [done|]. split; [done|]. split.
  { unfold nodesOf. by rewrite (proj1 Hin). }
  by rewrite Hf.
Qed.

(** The answer 201 on four schedules: the handler reads the cluster back
    before the task has written to the database, after its first statement,
    and after its last, on hosts that do all they are asked and on hosts
    where [kubeadm init] fails. *)
Lemma answer_201_shows_the_task :
  let shown W := statusShown (fst (CreateCluster W (provisionerRegistry W)
                                     (Some Scenario.oneWorker) Scenario.start)) in
  shown (Scenario.taskAhead 0) = Some (JString "pending") ∧
  shown (Scenario.taskAhead 1) = Some (JString "provisioning") ∧
  shown (Scenario.taskAhead 1000) = Some (JString "ready") ∧
  shown (Scenario.initFailsAhead 1000) = Some (JString "failed").
Proof. vm_compute. done. Qed.

(** X21.  The row that [CreateCluster] stores for an accepted request has
    the name and the API server endpoint of the request and, for version,
    pod network, service network, CNI and runtime, the values that
    [ClusterSpec.Validate] leaves in the specification of the provisioning
    task; it is [pending], of provider [kubeadm], not deleted and without
    secrets.  The answer carries, with the nodes of the cluster, the row as
    the handler reads it back beside the task it has started: the stored row
    but for status, time of the last update and secrets, with a status among
    [pending], [provisioning], [failed] and [ready]; it is the stored row
    itself when the task has not yet written to the database. *)
Theorem CreateCluster_stores_the_defaults_of_Validate
        (W : World) (registry : gmap string ProvisionerFactory)
        (req : CreateClusterRequest) (st : State) :
  Req_Name req ≠ "" -> Req_ControlPlanes req ≠ [] ->
  (forall id c, clusters (store st) !! id = Some c -> Cluster_Name c ≠ Req_Name req) ->
  let id := nextID (size (clusters (store st))) in
  let spec := setDefaults (specOfRequest req) in
  ∃ c seen st',
    CreateCluster W registry (Some req) st
    = (Done (WriteCreated (marshalCluster (withNodes (nodesOf id (store st')) seen)),
             Some (id, req)), st') ∧
    clusters (store st') = <[id := c]> (clusters (store st)) ∧
    fixedPart seen = fixedPart c ∧
    Cluster_Status seen ∈ ["pending"; "provisioning"; "failed"; "ready"] ∧
    (task_ahead W (steps (env st')) = 0%nat -> seen = c) ∧
    Cluster_ID c = id ∧ Cluster_Name c = Name spec ∧
    Cluster_K8sVersion c = K8sVersion spec ∧
    Cluster_PodNetworkCIDR c = PodNetworkCIDR spec ∧
    Cluster_ServiceCIDR c = ServiceCIDR spec ∧
    Cluster_CNI c = CNI spec ∧
    Cluster_ContainerRuntime c = ContainerRuntime spec ∧
    Cluster_APIServerEndpoint c = APIServerEndpoint spec ∧
    Cluster_Provider c = "kubeadm" ∧ Cluster_Status c = "pending" ∧
    Cluster_DeletedAt c = None ∧ secretsOf c = (None, "", "").
Proof.
  intros Hname Hcps Hfree id spec.
  pose proof (CreateCluster_wellformed W registry req st Hname Hcps) as H.
  cbv zeta in H. unfold wp in H. rewrite (name_is_free _ _ Hfree) in H.
  destruct (CreateCluster W registry (Some req) st) as [r st']. cbn [fst snd] in H.
  fold id in H.
  destruct H as (_ & _ & _ & t1 & t2 & new & seen & -> & Hin & H0 & Hc & _).
  assert (clusters (store st') !! id = Some (requestedRow req id t1 t2)) as Hl
    by (by rewrite Hc, lookup_insert_eq).
  destruct (CreateCluster_reads_back W registry req id _ st' seen Hl eq_refl Hin)
    as (c' & Hl' & _ & _ & Hview & Hfix & Hst).
  exists (requestedRow req id t1 t2), c', st'.
  split; [by rewrite Hview|]. split; [done|]. split; [done|]. split; [done|].
  split.
  { intros Hz. specialize (H0 Hz). subst seen. rewrite Hl in Hl'. by injection Hl'. }
  destruct (setDefaults_orElse (specOfRequest req)) as (Ek & Ep & Es & Ec & Er).
  destruct (setDefaults_hosts (specOfRequest req)) as (En & _ & _).
  subst spec. rewrite En, Ek, Ep, Es, Ec, Er.
  assert (APIServerEndpoint (setDefaults (specOfRequest req)) = Req_APIServerEndpoint req)
    as -> by (by through_defaults APIServerEndpoint).
  repeat split.
Qed.

Lemma CreateCluster_stores_the_defaults_of_Validate_witness :
  ∃ c seen st',
    clusters (store st') = <[1%N := c]> (clusters (store Scenario.start)) ∧
    fixedPart seen = fixedPart c ∧
    Cluster_K8sVersion c = "1.28.0" ∧ Cluster_CNI c = "calico".
Proof.
  destruct (CreateCluster_stores_the_defaults_of_Validate
              (Scenario.taskAhead 1) (provisionerRegistry (Scenario.taskAhead 1))
              Scenario.oneWorker Scenario.start)
    as (c & seen & st' & _ & Hc & Hfix & _ & _ & _ & _ & Hk & _ & _ & Hcni & _);
    [done|done|by intros id c ?|].
  exists c, seen, st'. split; [exact Hc|]. split; [exact Hfix|].
  split; [exact Hk|exact Hcni].
Defined.

(** X22.  The provisioning task never writes to table [nodes]; so a
    create request that is accepted ends, however the provisioning goes,
    with one new node row per control plane and then per worker, each of its
    role, with the port of the host (22 for port 0), and still of status
    [provisioning]. *)
Theorem node_rows_are_created_and_never_updated
        (W : World) (registry : gmap string ProvisionerFactory)
        (req : CreateClusterRequest) (st : State) :
  Req_Name req ≠ "" -> Req_ControlPlanes req ≠ [] ->
  (forall id c, clusters (store st) !! id = Some c -> Cluster_Name c ≠ Req_Name req) ->
  let id := nextID (size (clusters (store st))) in
  (forall cid req0 st0,
     nodes (store (provisionCluster W registry cid req0 st0).2) = nodes (store st0))
  ∧ ∃ new, nodes (store (serveCreateCluster W registry (Some req) st).2)
           = nodes (store st) ++ new ∧
           nodeSummary <$> new
           = (nodeRowOf id "control-plane" <$> Req_ControlPlanes req)
             ++ (nodeRowOf id "worker" <$> Req_Workers req).
Proof.
  intros Hname Hcps Hfree id.
  split; [intros; apply provisionCluster_frame|].
  pose proof (CreateCluster_wellformed W registry req st Hname Hcps) as H.
  cbv zeta in H. unfold wp in H. rewrite (name_is_free _ _ Hfree) in H.
  unfold serveCreateCluster, bind.
  destruct (CreateCluster W registry (Some req) st) as [r s1]. cbn [fst snd] in H.
  destruct H as (_ & _ & _ & t1 & t2 & new & seen & -> & _ & _ & _ & Hn & Hnew).
  exists new. split; [|exact Hnew]. rewrite <- Hn.
  pose proof (provisionCluster_frame W registry id req s1) as [Hk _]. fold id.
  destruct (provisionCluster W registry id req s1) as [[[]|msg|] s2]; exact Hk.
Qed.

Lemma node_rows_are_created_and_never_updated_witness :
  nodeSummary <$> nodes (store (serveCreateCluster Scenario.allSucceed
                                  (provisionerRegistry Scenario.allSucceed)
                                  (Some Scenario.oneWorker) Scenario.start).2)
  = [ (1%N, "control-plane", "10.0.0.1", 22%Z, "provisioning");
      (1%N, "worker", "10.0.0.2", 22%Z, "provisioning") ].
Proof.
  destruct (node_rows_are_created_and_never_updated Scenario.allSucceed
              (provisionerRegistry Scenario.allSucceed) Scenario.oneWorker Scenario.start)
    as (_ & new & -> & Hnew); [done|done|by intros id c ?|].
  cbn [Scenario.start store nodes emptyStore app]. rewrite Hnew. reflexivity.
Defined.

Lemma First_found id c st :
  clusters (store st) !! id = Some c -> Cluster_DeletedAt c = None ->
  First id st = (Done (Some c), st).
Proof. intros Hc Hd. unfold First, bind, getStore. cbn. by rewrite Hc, Hd. Qed.

Lemma First_missing id st :
  (forall c, clusters (store st) !! id = Some c -> Cluster_DeletedAt c ≠ None) ->
  First id st = (Done None, st).
Proof.
  intros H. unfold First, bind, getStore. cbn.
  destruct (clusters (store st) !! id) as [c|] eqn:Hc; [|done].
  specialize (H c eq_refl). by destruct (Cluster_DeletedAt c).
Qed.

Lemma GetCluster_found id c st :
  (id < 2 ^ 32)%N -> clusters (store st) !! id = Some c -> Cluster_DeletedAt c = None ->
  GetCluster (idText id) st
  = (Done (WriteSuccess
             (marshalCluster (withEvents (eventsOf id (store st))
                                         (withNodes (nodesOf id (store st)) c)))), st).
Proof.
  intros Hid Hc Hd. unfold GetCluster. rewrite ParseUint32_idText by done.
  unfold FirstWithNodesAndEvents, bind. by rewrite (First_found id c).
Qed.

(** X23.  While the task that [CreateCluster] has started runs, and when
    it has come to its end, [GetCluster] reads the created cluster back under
    the decimal text of its id.  At every moment the answer is 200 and
    carries the view of the answer 201 but for status, time of the last
    update and secrets, with a status among [pending], [provisioning],
    [failed] and [ready] and with the events of the cluster persisted so far;
    at one of these moments it is the view of the answer 201 with these
    events. *)
Theorem created_cluster_is_read_back
        (W : World) (registry : gmap string ProvisionerFactory)
        (req : CreateClusterRequest) (st : State) :
  Req_Name req ≠ "" -> Req_ControlPlanes req ≠ [] ->
  (forall id c, clusters (store st) !! id = Some c -> Cluster_Name c ≠ Req_Name req) ->
  let id := nextID (size (clusters (store st))) in
  (id < 2 ^ 32)%N ->
  ∃ view st',
    CreateCluster W registry (Some req) st
    = (Done (WriteCreated (marshalCluster view), Some (id, req)), st') ∧
    (∃ s, s ∈ moments (provisionCluster W registry id req) st' ∧
          forall st'', store st'' = s ->
            GetCluster (idText id) st''
            = (Done (WriteSuccess (marshalCluster (withEvents (eventsOf id s) view))),
               st'')) ∧
    forall s st'',
      s ∈ moments (provisionCluster W registry id req) st' -> store st'' = s ->
      ∃ view',
        GetCluster (idText id) st'' = (Done (WriteSuccess (marshalCluster view')), st'') ∧
        fixedPart view' = fixedPart view ∧
        Cluster_Status view' ∈ ["pending"; "provisioning"; "failed"; "ready"] ∧
        Cluster_Events view' = eventsOf id s.
Proof.
  intros Hname Hcps Hfree id Hid.
  pose proof (CreateCluster_wellformed W registry req st Hname Hcps) as H.
  cbv zeta in H. unfold wp in H. rewrite (name_is_free _ _ Hfree) in H.
  destruct (CreateCluster W registry (Some req) st) as [r st']. cbn [fst snd] in H.
  fold id in H.
  destruct H as (_ & _ & _ & t1 & t2 & new & seen & -> & Hin & _ & Hc & _).
  set (c := requestedRow req id t1 t2) in *.
  assert (clusters (store st') !! id = Some c) as Hl by (by rewrite Hc, lookup_insert_eq).
  destruct (CreateCluster_reads_back W registry req id c st' seen Hl eq_refl Hin)
    as (c0 & Hl0 & Hd0 & Hn0 & Hview & Hfix0 & _).
  do 2 eexists. split; [done|]. rewrite Hview. split.
  { exists seen. split; [done|]. intros st'' <-.
    rewrite (GetCluster_found id c0) by done. by rewrite Hn0. }
  intros s st'' Hs <-.
  destruct (CreateCluster_reads_back W registry req id c st' _ Hl eq_refl Hs)
    as (c' & Hl' & Hd' & Hn' & _ & Hfix & Hst).
  eexists. split; [by apply (GetCluster_found id c')|].
  split; [|split; [exact Hst|done]].
  rewrite fixedPart_withEvents, Hn'. apply fixedPart_withNodes. by rewrite Hfix.
Qed.

Lemma created_cluster_is_read_back_witness :
  ∃ view st',
    CreateCluster (Scenario.taskAhead 1) (provisionerRegistry (Scenario.taskAhead 1))
                  (Some Scenario.oneWorker) Scenario.start
    = (Done (WriteCreated (marshalCluster view), Some (1%N, Scenario.oneWorker)), st') ∧
    forall s st'',
      s ∈ moments (provisionCluster (Scenario.taskAhead 1)
                     (provisionerRegistry (Scenario.taskAhead 1))
                     1%N Scenario.oneWorker) st' ->
      store st'' = s ->
      ∃ view',
        GetCluster "1" st'' = (Done (WriteSuccess (marshalCluster view')), st'') ∧
        fixedPart view' = fixedPart view.
Proof.
  destruct (created_cluster_is_read_back
              (Scenario.taskAhead 1) (provisionerRegistry (Scenario.taskAhead 1))
              Scenario.oneWorker Scenario.start)
    as (view & st' & Hc & _ & Hall); [done|done|by intros id c ?|reflexivity|].
  exists view, st'. split; [exact Hc|]. intros s st'' Hs Hst.
  destruct (Hall s st'' Hs Hst) as (view' & Hg & Hf & _).
  exists view'. split; [exact Hg|exact Hf].
Defined.

Lemma lookup_liveRows id c s :
  (id, c) ∈ liveRows s <-> clusters s !! id = Some c ∧ Cluster_DeletedAt c = None.
Proof.
  unfold liveRows. rewrite list_elem_of_filter, elem_of_map_to_list. cbn. tauto.
Qed.

(** X24.  [DeleteCluster] on the decimal text of an id answers 200 with
    [Cluster deleted], whether or not there is such a cluster.  After it
    [GetCluster] and [GetKubeconfig] answer 404 for the id and
    [ListClusters] does not list it; the other rows are listed as before.
    The row stays in the table with its name; no node, event or job row is
    touched. *)
Theorem DeleteCluster_marks_the_row (W : World) (id : N) (st : State) :
  (id < 2 ^ 32)%N ->
  ∃ st',
    DeleteCluster W (idText id) st
    = (Done (WriteSuccess (marshalMessage "Cluster deleted")), st') ∧
    GetCluster (idText id) st' = (Done (WriteNotFound "Cluster not found"), st') ∧
    GetKubeconfig (idText id) st'
    = (Done (WroteJSON (WriteNotFound "Cluster not found")), st') ∧
    (∃ rows,
       ListClusters st'
       = (Done (WriteSuccess
                  (JArray (marshalCluster
                             <$> ((fun kv => withNodes (nodesOf kv.1 (store st')) kv.2)
                                    <$> rows)))), st') ∧
       (id ∉ fst <$> rows) ∧
       (forall id' c, id' ≠ id -> ((id', c) ∈ rows <-> (id', c) ∈ liveRows (store st)))) ∧
    (forall c, clusters (store st) !! id = Some c ->
       ∃ c', clusters (store st') !! id = Some c' ∧ Cluster_Name c' = Cluster_Name c) ∧
    nodes (store st') = nodes (store st) ∧ events (store st') = events (store st) ∧
    jobs (store st') = jobs (store st).
Proof.
  intros Hid. eexists. split.
  { unfold DeleteCluster. rewrite ParseUint32_idText by done. reflexivity. }
  set (st' := mkState _ _ _ _ _).
  assert (forall c, clusters (store st') !! id = Some c -> Cluster_DeletedAt c ≠ None)
    as Hdel.
  { intros c. cbn. rewrite lookup_alter_eq.
    destruct (clusters (store st) !! id) as [c0|]; [|done]. cbn. intros [= <-].
    by destruct (Cluster_DeletedAt c0) eqn:E; [rewrite E|]. }
  split.
  { unfold GetCluster. rewrite ParseUint32_idText by done.
    unfold FirstWithNodesAndEvents, bind. by rewrite First_missing. }
  split.
  { unfold GetKubeconfig. rewrite ParseUint32_idText by done.
    unfold bind. by rewrite First_missing. }
  split.
  { exists (liveRows (store st')). split; [done|]. split.
    - intros ([id0 c] & -> & Hin)%list_elem_of_fmap. cbn in Hin.
      apply lookup_liveRows in Hin as [Hc Hd]. by apply (Hdel c).
    - intros id' c Hne. rewrite !lookup_liveRows. cbn. by rewrite lookup_alter_ne. }
  split; [|done].
  intros c Hc. cbn. rewrite lookup_alter_eq, Hc. cbn. eexists. split; [done|].
  by destruct (Cluster_DeletedAt c).
Qed.

Lemma DeleteCluster_marks_the_row_witness :
  ∃ st',
    DeleteCluster Scenario.allSucceed "7" Scenario.start
    = (Done (WriteSuccess (marshalMessage "Cluster deleted")), st') ∧
    GetCluster "7" st' = (Done (WriteNotFound "Cluster not found"), st').
Proof.
  destruct (DeleteCluster_marks_the_row Scenario.allSucceed 7%N Scenario.start)
    as (st' & Hd & Hg & _); [reflexivity|].
  exists st'. exact (conj Hd Hg).
Defined.


(** ** The kubeconfig of a cluster *)

Lemma keeps_refl cid st : keeps cid st st.
Proof. done. Qed.

Lemma keeps_trans cid a b c : keeps cid a b -> keeps cid b c -> keeps cid a c.
Proof. intros [L1 S1] [L2 S2]. split; [auto|]. intros id. by rewrite S2, S1. Qed.

Lemma keeps_holds cid secrets st st' :
  keeps cid st st' -> holds cid secrets st -> holds cid secrets st'.
Proof.
  intros [Hl Hs] (c & Hc & Hd & Hsec).
  destruct Hl as (c' & Hc' & Hd'); [by exists c|].
  exists c'. split; [done|]. split; [done|].
  specialize (Hs cid). rewrite Hc, Hc' in Hs. cbn in Hs. congruence.
Qed.

Lemma trace_keeps cid a w st st' : trace cid a w st st' -> keeps cid st st'.
Proof. intros ((_ & _ & Hl) & _ & Hs). done. Qed.

Section Keeps.

Context (W : World) (cid : N).

Lemma keeps_liftEnv {A : Type} (m : M Env A) : always (keeps cid) (liftEnv m).
Proof.
  intros st. pose proof (liftEnv_trace cid m st) as H. unfold wp in H.
  destruct H as [_ H]. by eapply trace_keeps.
Qed.

Lemma keeps_logEvent lvl h s msg : always (keeps cid) (logEvent W cid lvl h s msg).
Proof.
  intros st. destruct (room_dec W 1 st) as [Hroom|Hroom].
  - pose proof (logEvent_trace W cid lvl h s msg st Hroom) as H. unfold wp in H.
    destruct H as [_ H]. by eapply trace_keeps.
  - pose proof (logEvent_blocked W cid lvl h s msg st Hroom) as H. unfold wp in H.
    destruct H as (_ & H & _). by eapply trace_keeps.
Qed.

Lemma keeps_UpdateStatus status : always (keeps cid) (UpdateStatus W cid status).
Proof.
  intros st. pose proof (UpdateStatus_trace W cid status st) as H. unfold wp in H.
  destruct H as (_ & H & _). by eapply trace_keeps.
Qed.

Lemma keeps_afterSecrets P spec cp0 cps result :
  always (keeps cid)
         (logEvent W cid "info" (Address cp0) "cni" "Installing CNI" ;;
          let* err := liftEnv (InstallCNI P (resKubeconfig result) (CNI spec) cp0) in
          (if err is Some err
           then logError W cid "Failed to install CNI" err
           else ret tt) ;;
          joinControlPlanes W P cid cps result ;;
          joinWorkers W P cid (Workers spec) result ;;
          UpdateStatus W cid "ready" ;;
          logEvent W cid "info" "localhost" "complete" "Cluster provisioned successfully").
Proof.
  assert (forall A B (m : M State A) (k : A -> M State B),
            always (keeps cid) m -> (forall a, always (keeps cid) (k a)) ->
            always (keeps cid) (bind m k)) as Hbind.
  { intros. apply always_bind; [apply keeps_trans|done|done]. }
  assert (forall msg err, always (keeps cid) (logError W cid msg err)) as Herr.
  { intros. apply Hbind; [apply keeps_logEvent|]. intros _. apply keeps_UpdateStatus. }
  apply Hbind; [apply keeps_logEvent|]. intros _.
  apply Hbind; [apply keeps_liftEnv|]. intros err.
  apply Hbind; [destruct err; [apply Herr|]; intros s; apply keeps_refl|]. intros _.
  apply Hbind.
  { apply (always_joinControlPlanes W cid (keeps cid) anyCall) with (values := ["failed"]).
    - apply keeps_refl.
    - apply keeps_trans.
    - intros A m _. apply keeps_liftEnv.
    - apply keeps_logEvent.
    - set_solver.
    - intros status _. apply keeps_UpdateStatus.
    - apply anyCall_provisioner. }
  intros _. apply Hbind.
  { apply (always_joinWorkers W cid (keeps cid) anyCall) with (values := ["failed"]).
    - apply keeps_refl.
    - apply keeps_trans.
    - intros A m _. apply keeps_liftEnv.
    - apply keeps_logEvent.
    - set_solver.
    - intros status _. apply keeps_UpdateStatus.
    - apply anyCall_provisioner. }
  intros _. apply Hbind; [apply keeps_UpdateStatus|]. intros _. apply keeps_logEvent.
Qed.

Lemma UpdateSecrets_holds kc jc ck st :
  live cid st ->
  wp (UpdateSecrets W cid kc jc ck)
     (fun r st' => r = Done tt ∧ holds cid (readBlob kc, jc, ck) st') st.
Proof.
  intros (c & Hc & Hd). unfold wp. cbn. split; [done|]. unfold holds. cbn.
  rewrite lookup_alter_eq, Hc. cbn. rewrite Hd. eexists. done.
Qed.

End Keeps.

Lemma GetKubeconfig_holds cid kc jc ck st :
  (cid < 2 ^ 32)%N -> holds cid (kc, jc, ck) st ->
  GetKubeconfig (idText cid) st
  = (Done (match kc with
           | Some content =>
               WroteBytes "application/x-yaml" "attachment; filename=kubeconfig.yaml"
                          content
           | None => WroteJSON (WriteError 404 "NOT_FOUND" "Kubeconfig not available")
           end), st).
Proof.
  intros Hid (c & Hc & Hd & Hs). unfold GetKubeconfig.
  rewrite ParseUint32_idText by done. unfold bind.
  rewrite (First_found cid c) by done. injection Hs as Hk _ _. rewrite Hk.
  by destruct kc.
Qed.

(** X25.  Before the bootstrap, [GetKubeconfig] answers 404 with
    [Kubeconfig not available].  For any provisioner: once validation and
    the preparation of the hosts of the specification have succeeded, the
    channel of the hub has taken the two events logged up to there, and
    [BootstrapControlPlane] has returned a result without error, the row
    holds the kubeconfig, the join command and the certificate key of that
    result at the end of the run, however the CNI installation and the
    joins go, and also when the task later stays blocked or panics.
    [GetKubeconfig] then answers with the bytes of the kubeconfig, as
    [application/x-yaml] and as an attachment named [kubeconfig.yaml]; when
    the kubeconfig of the result is empty, the column reads back as nil and
    the answer is still 404. *)
Theorem kubeconfig_of_the_bootstrap_is_served
        (W : World) (registry : gmap string ProvisionerFactory) (cid : N)
        (P : IProvisioner) (req : CreateClusterRequest) (spec : ClusterSpec)
        (cp0 : HostSpec) (cps : list HostSpec)
        (kubeconfig joinCommand certificateKey : string) (st : State) :
  GetProvisioner registry "kubeadm" ∅ = Ok P ->
  (cid < 2 ^ 32)%N ->
  holds cid (None, "", "") st ->
  room W 2 st ->
  ControlPlanes spec = cp0 :: cps ->
  (forall e, fst (ValidateSpec P (specOfRequest req) e) = Done (spec, None)) ->
  (forall e, fst (PrepareHosts P (ControlPlanes spec ++ Workers spec)
                    (ContainerRuntime spec) (K8sVersion spec) e) = Done None) ->
  bootstraps P cp0 spec kubeconfig joinCommand certificateKey ->
  let st' := snd (provisionCluster W registry cid req st) in
  GetKubeconfig (idText cid) st
  = (Done (WroteJSON (WriteError 404 "NOT_FOUND" "Kubeconfig not available")), st)
  ∧ holds cid (readBlob kubeconfig, joinCommand, certificateKey) st'
  ∧ GetKubeconfig (idText cid) st'
    = (Done (if String.eqb kubeconfig ""
             then WroteJSON (WriteError 404 "NOT_FOUND" "Kubeconfig not available")
             else WroteBytes "application/x-yaml" "attachment; filename=kubeconfig.yaml"
                             kubeconfig), st').
Proof.
  intros Hreg Hid Hrow Hroom Hcps Hval Hprep Hboot st'. split.
  { by rewrite (GetKubeconfig_holds _ _ _ _ _ Hid Hrow). }
  assert (live cid st) as Hlive.
  { destruct Hrow as (c & Hc & Hd & _). by exists c. }
  cut (holds cid (readBlob kubeconfig, joinCommand, certificateKey) st').
  { intros H. split; [done|]. rewrite (GetKubeconfig_holds _ _ _ _ _ Hid H).
    unfold readBlob. by destruct (String.eqb kubeconfig ""). }
  subst st'.
  change (wp (provisionCluster W registry cid req)
             (fun _ st' => holds cid (readBlob kubeconfig, joinCommand, certificateKey)
                                 st') st).
  eapply run_reaches_prepare; [done|done|exact Hroom|]. intros s3 T3 R3.
  eapply wp_bind; [apply (liftEnv_trace cid)|]. intros r s4 (Hr & T4).
  rewrite Hprep in Hr. subst r. rewrite Hcps.
  apply (trace_room _ _ [] _ _ _ _ T4) in R3.
  eapply wp_bind; [by eapply logEvent_trace|]. intros r s5 (-> & T5).
  eapply wp_bind; [apply (liftEnv_trace cid)|]. intros r s6 (Hr & T6).
  destruct (Hboot (env s5)) as (result & Hres & <- & <- & <-).
  rewrite Hres in Hr. subst r. cbv beta iota.
  eapply wp_bind.
  { apply UpdateSecrets_holds. apply T6, T5, T4, T3, Hlive. }
  intros r s7 (-> & H7). unfold wp.
  eapply keeps_holds; [|exact H7]. apply keeps_afterSecrets.
Qed.

(** The registered kubeadm provisioner on a control plane whose kubeconfig
    reads [apiVersion: v1]; the join of the worker fails. *)
Lemma kubeconfig_of_the_bootstrap_is_served_witness :
  let st := Scenario.accepted Scenario.printsKubeconfig Scenario.oneWorker in
  let st' := snd (provisionCluster Scenario.printsKubeconfig
                    (provisionerRegistry Scenario.printsKubeconfig)
                    1%N Scenario.oneWorker st) in
  GetKubeconfig "1" st
  = (Done (WroteJSON (WriteError 404 "NOT_FOUND" "Kubeconfig not available")), st)
  ∧ GetKubeconfig "1" st'
    = (Done (WroteBytes "application/x-yaml" "attachment; filename=kubeconfig.yaml"
                        "apiVersion: v1"), st').
Proof.
  destruct (kubeconfig_of_the_bootstrap_is_served
              Scenario.printsKubeconfig (provisionerRegistry Scenario.printsKubeconfig)
              1%N (Kubeadm Scenario.printsKubeconfig (mkKubeadmProvisioner None))
              Scenario.oneWorker (setDefaults (specOfRequest Scenario.oneWorker))
              Scenario.cp1 [] "apiVersion: v1"
              "kubeadm join 10.0.0.1:6443 --token abc --discovery-token-ca-cert-hash sha256:xyz"
              "KEY"
              (Scenario.accepted Scenario.printsKubeconfig Scenario.oneWorker))
    as (H1 & _ & H2).
  - apply provisionerRegistry_kubeadm.
  - reflexivity.
  - eexists. split; [vm_compute; reflexivity|]. split; reflexivity.
  - vm_compute. lia.
  - vm_compute. reflexivity.
  - intros e. vm_compute. reflexivity.
  - intros e. vm_compute. reflexivity.
  - intros e. eexists. split; [vm_compute; reflexivity|]. done.
  - exact (conj H1 H2).
Defined.

(** ** The events of a cluster *)

(** X26.  [GetEvents] on the decimal text of an id answers 200 with at
    most 100 events of the cluster, newest first, and no event of the
    cluster that is left out is newer than one that is given; it changes
    nothing.  The replay of [HandleWebSocket] is the first 50 events of this
    page, reversed. *)
Theorem GetEvents_page (W : World) (id : N) (st : State) :
  (id < 2 ^ 32)%N ->
  let mine := filter (fun e => Event_ClusterID e = id) (events (store st)) in
  ∃ page older,
    GetEvents (idText id) st = (Done (WriteSuccess (JArray (marshalEvent <$> page))), st) ∧
    (length page <= 100)%nat ∧
    StronglySorted newerFirst page ∧
    mine ≡ₚ page ++ older ∧
    Forall (fun o => Forall (fun e => newerFirst e o) page) older ∧
    replayedEvents (store st) id = reverse (take 50 page).
Proof.
  intros Hid mine. exists (eventsPage (store st) id), (drop 100 (orderByTimestampDesc mine)).
  split.
  { unfold GetEvents. rewrite ParseUint32_idText by done. reflexivity. }
  pose proof (orderByTimestampDesc_sorted mine) as Hsorted.
  pose proof (orderByTimestampDesc_perm mine) as Hperm.
  unfold replayedEvents, recentEventsQuery, eventsPage. fold mine.
  generalize dependent (orderByTimestampDesc mine). intros sorted Hsorted Hperm.
  split; [rewrite length_take; lia|].
  rewrite <- (take_drop 100 sorted) in Hsorted, Hperm.
  split; [by apply StronglySorted_app_1_l in Hsorted|].
  split; [done|]. split.
  - apply Forall_forall. intros o Ho. apply Forall_forall. intros e He.
    exact (StronglySorted_app_1_elem_of _ _ _ _ _ Hsorted He Ho).
  - by rewrite take_take.
Qed.

Lemma GetEvents_page_witness :
  ∃ page,
    GetEvents "1" (mkState Scenario.busy [] [] (mkEnv 0 []) [])
    = (Done (WriteSuccess (JArray (marshalEvent <$> page))),
       mkState Scenario.busy [] [] (mkEnv 0 []) [])
    ∧ (length page <= 100)%nat
    ∧ replayedEvents Scenario.busy 1 = reverse (take 50 page).
Proof.
  destruct (GetEvents_page Scenario.allSucceed 1%N (mkState Scenario.busy [] [] (mkEnv 0 []) []))
    as (page & older & Hrun & Hlen & _ & _ & _ & Hreplay); [reflexivity|].
  exists page. exact (conj Hrun (conj Hlen Hreplay)).
Defined.

(** ** The loop of the websocket hub *)

Lemma subscribers_register client h cid0 c :
  c ∈ subscribers cid0 (hubClients (hubRegister client h))
  <-> (cid0 = Client_clusterID client ∧ c = conn client)
      ∨ c ∈ subscribers cid0 (hubClients h).
Proof.
  unfold subscribers, hubRegister. cbn [hubClients].
  destruct (decide (cid0 = Client_clusterID client)) as [->|Hne].
  - rewrite lookup_insert_eq. cbv iota.
    rewrite elem_of_union, elem_of_singleton. tauto.
  - rewrite lookup_insert_ne by done. tauto.
Qed.

Lemma subscribers_unregister client h cid0 c :
  c ∈ subscribers cid0 (hubClients (hubUnregister client h))
  <-> c ∈ subscribers cid0 (hubClients h)
      ∧ ¬ (cid0 = Client_clusterID client ∧ c = conn client).
Proof.
  unfold subscribers, hubUnregister.
  destruct (decide (cid0 = Client_clusterID client)) as [->|Hne].
  - destruct (hubClients h !! Client_clusterID client) as [conns|] eqn:Hc.
    2: { rewrite Hc. cbv iota. rewrite elem_of_empty. tauto. }
    destruct (decide (conn client ∈ conns)) as [Hin|Hnin]; cbn [hubClients].
    2: { rewrite Hc. cbv iota. split; [|tauto].
         intros H. split; [done|]. by intros [_ ->]. }
    destruct (decide (size (conns ∖ {[conn client]}) = 0)%nat) as [He|He].
    + apply size_empty_inv in He. rewrite lookup_delete_eq. cbv iota.
      rewrite elem_of_empty. split; [done|]. intros [Hc' Hne]. apply Hne.
      split; [done|]. destruct (decide (c = conn client)) as [|Hcc]; [done|].
      exfalso. apply (not_elem_of_empty (C := gset N) c). rewrite <- He.
      apply elem_of_difference. by rewrite elem_of_singleton.
    + rewrite lookup_insert_eq. cbv iota.
      rewrite elem_of_difference, elem_of_singleton. tauto.
  - destruct (hubClients h !! Client_clusterID client) as [conns|]; [|tauto].
    destruct (decide (conn client ∈ conns)); [|tauto]. cbn [hubClients].
    destruct (decide (size (conns ∖ {[conn client]}) = 0)%nat).
    + rewrite lookup_delete_ne by done. tauto.
    + rewrite lookup_insert_ne by done. tauto.
Qed.

(** X27.  The nested map of the hub behaves as a set of pairs of a cluster
    and a connection: the [register] case adds the pair of the client and
    no other, the [unregister] case removes it and no other, and closes the
    connection exactly when the pair was there (a second [unregister] of the
    same client closes nothing). *)
Theorem hub_registrations_are_pairs (client : Client) (h : HubState) (cid0 : N) (c : N) :
  (c ∈ subscribers cid0 (hubClients (hubRegister client h))
   <-> (cid0 = Client_clusterID client ∧ c = conn client)
       ∨ c ∈ subscribers cid0 (hubClients h))
  ∧ (c ∈ subscribers cid0 (hubClients (hubUnregister client h))
     <-> c ∈ subscribers cid0 (hubClients h)
         ∧ ¬ (cid0 = Client_clusterID client ∧ c = conn client))
  ∧ (hubClosed (hubUnregister client h)
     = hubClosed h ++
       (if decide (conn client ∈ subscribers (Client_clusterID client) (hubClients h))
        then [conn client] else [])).
Proof.
  split; [apply subscribers_register|]. split; [apply subscribers_unregister|].
  unfold hubUnregister, subscribers.
  destruct (hubClients h !! Client_clusterID client) as [conns|]; cbn.
  - destruct (decide (conn client ∈ conns)); cbn; [done|by rewrite app_nil_r].
  - rewrite decide_False by set_solver. by rewrite app_nil_r.
Qed.

Lemma noEmptySet_step writeFails msg h h' :
  hubStep writeFails msg h = Some h' ->
  noEmptySet (hubClients h) -> noEmptySet (hubClients h').
Proof.
  destruct msg as [client|client|message]; cbn.
  - intros [= <-] Hinv cid conns. cbn [hubRegister hubClients].
    destruct (decide (cid = Client_clusterID client)) as [->|Hne].
    + rewrite lookup_insert_eq. intros [= <-] Hempty.
      apply (not_elem_of_empty (C := gset N) (conn client)). rewrite <- Hempty.
      apply elem_of_union. left. by apply elem_of_singleton.
    + rewrite lookup_insert_ne by done. apply Hinv.
  - intros [= <-] Hinv cid conns. unfold hubUnregister.
    destruct (hubClients h !! Client_clusterID client) as [conns0|] eqn:Hc; [|apply Hinv].
    destruct (decide (conn client ∈ conns0)); [|apply Hinv]. cbn [hubClients].
    destruct (decide (size (conns0 ∖ {[conn client]}) = 0)%nat) as [He|He].
    + destruct (decide (cid = Client_clusterID client)) as [->|Hne].
      * by rewrite lookup_delete_eq.
      * rewrite lookup_delete_ne by done. apply Hinv.
    + destruct (decide (cid = Client_clusterID client)) as [->|Hne].
      * rewrite lookup_insert_eq. intros [= <-] Hempty. apply He.
        rewrite Hempty. apply size_empty.
      * rewrite lookup_insert_ne by done. apply Hinv.
  - unfold hubBroadcast. destruct (decide _); [done|]. by intros [= <-].
Qed.

Lemma noEmptySet_run writeFails msgs h h' :
  hubRun writeFails msgs h = Some h' ->
  noEmptySet (hubClients h) -> noEmptySet (hubClients h').
Proof.
  revert h. induction msgs as [|msg rest IH]; intros h; cbn; [by intros [= <-]|].
  destruct (hubStep writeFails msg h) as [h1|] eqn:Hstep; [|done].
  intros Hrun Hinv. apply (IH h1 Hrun). by eapply noEmptySet_step.
Qed.

(** X28.  Started without clients, the loop of [WebSocketHub.Run] never
    leaves a cluster with an empty set of connections in [clients], whatever
    messages it has handled. *)
Theorem hub_keeps_no_empty_set
        (writeFails : N -> bool) (msgs : list HubMessage) (h : HubState) :
  hubRun writeFails msgs Hub = Some h ->
  forall cid0, hubClients h !! cid0 ≠ Some ∅.
Proof.
  intros Hrun cid Hc.
  apply (noEmptySet_run _ _ _ _ Hrun) in Hc; [done|].
  intros ? ?. unfold Hub. cbn [hubClients]. by rewrite lookup_empty.
Qed.

Lemma hub_keeps_no_empty_set_witness :
  hubClients (hubUnregister Scenario.alice
                (hubRegister Scenario.bob (hubRegister Scenario.alice Hub))) !! 1%N
  ≠ Some ∅.
Proof.
  apply (hub_keeps_no_empty_set
           (fun _ => false)
           [FromRegister Scenario.alice; FromRegister Scenario.bob;
            FromUnregister Scenario.alice]).
  reflexivity.
Defined.

Lemma deliveredTo_step_other writeFails msg h h' c :
  hubStep writeFails msg h = Some h' ->
  deliveredTo c h'
  = deliveredTo c h ++
    match msg with
    | FromBroadcast b => if decide (c ∈ subscribers (clusterID b) (hubClients h))
                     then [data b] else []
    | _ => []
    end.
Proof.
  destruct msg as [client|client|message]; cbn.
  - intros [= <-]. by rewrite app_nil_r.
  - intros [= <-]. unfold hubUnregister.
    destruct (hubClients h !! Client_clusterID client); [|by rewrite app_nil_r].
    destruct (decide _); by rewrite app_nil_r.
  - unfold hubBroadcast. destruct (decide (set_Exists _ _)); [done|]. intros [= <-].
    unfold deliveredTo. cbn. rewrite omap_app. cbn.
    by destruct (decide (c ∈ subscribers (clusterID message) (hubClients h))).
Qed.

(** While no message registers or unregisters [c], its subscriptions stay. *)
Lemma subscribers_step_leaves writeFails msg h h' c cid0 :
  hubStep writeFails msg h = Some h' -> leaves c msg ->
  (c ∈ subscribers cid0 (hubClients h') <-> c ∈ subscribers cid0 (hubClients h)).
Proof.
  destruct msg as [client|client|message]; cbn.
  - intros [= <-] Hne. rewrite subscribers_register.
    split; [intros [[_ ->]|H]; done|by right].
  - intros [= <-] Hne. rewrite subscribers_unregister.
    split; [by intros [H _]|]. intros H. split; [done|]. by intros [_ ->].
  - unfold hubBroadcast. destruct (decide (set_Exists _ _)); [done|]. by intros [= <-].
Qed.

Lemma hubRun_delivers writeFails msgs h h' c cid :
  (forall cid0, c ∈ subscribers cid0 (hubClients h) <-> cid0 = cid) ->
  Forall (leaves c) msgs ->
  hubRun writeFails msgs h = Some h' ->
  deliveredTo c h' = deliveredTo c h ++ broadcastsOf cid msgs.
Proof.
  revert h. induction msgs as [|msg rest IH]; intros h Hsub Hleaves; cbn.
  { intros [= <-]. by rewrite app_nil_r. }
  destruct (hubStep writeFails msg h) as [h1|] eqn:Hstep; [|done].
  apply Forall_cons in Hleaves as [Hmsg Hrest]. intros Hrun.
  rewrite (IH h1); [| |done|done].
  - rewrite (deliveredTo_step_other _ _ _ _ _ Hstep), <- app_assoc. f_equal.
    unfold broadcastsOf. cbn. destruct msg as [client|client|b]; cbn; [done|done|].
    destruct (decide (clusterID b = cid)) as [E|E].
    + rewrite decide_True by (by apply Hsub). done.
    + rewrite decide_False by (by rewrite Hsub). done.
  - intros cid'. rewrite (subscribers_step_leaves _ _ _ _ _ _ Hstep Hmsg). apply Hsub.
Qed.

(** X29.  A connection that registers for a cluster, and is neither
    registered nor unregistered again by the messages that follow, is
    written exactly the events broadcast for its cluster by these messages,
    in their order, and no event of another cluster, as long as the loop
    handles the messages. *)
Theorem subscriber_receives_the_broadcasts_of_its_cluster
        (writeFails : N -> bool) (client : Client) (msgs : list HubMessage)
        (h h' : HubState) :
  (forall cid0, conn client ∉ subscribers cid0 (hubClients h)) ->
  Forall (leaves (conn client)) msgs ->
  hubRun writeFails (FromRegister client :: msgs) h = Some h' ->
  deliveredTo (conn client) h'
  = deliveredTo (conn client) h ++ broadcastsOf (Client_clusterID client) msgs.
Proof.
  intros Hfresh Hleaves Hrun. cbn in Hrun.
  apply (hubRun_delivers writeFails msgs (hubRegister client h)); [|done|done].
  intros cid. rewrite subscribers_register.
  split; [intros [[-> _]|H]; [done|by apply Hfresh in H]|]. intros ->. by left.
Qed.

Lemma subscriber_receives_the_broadcasts_of_its_cluster_witness :
  ∃ h', hubRun (fun _ => false)
          [ FromRegister Scenario.alice; FromRegister Scenario.bob;
            FromBroadcast (mkBroadcastMessage 1 (Scenario.ev 1 10 "prepare"));
            FromBroadcast (mkBroadcastMessage 2 (Scenario.ev 2 20 "prepare"));
            FromUnregister Scenario.bob;
            FromBroadcast (mkBroadcastMessage 1 (Scenario.ev 3 30 "bootstrap")) ] Hub = Some h'
    ∧ deliveredTo 1%N h' = [Scenario.ev 1 10 "prepare"; Scenario.ev 3 30 "bootstrap"].
Proof.
  eexists. split; [reflexivity|].
  rewrite (subscriber_receives_the_broadcasts_of_its_cluster (fun _ => false) Scenario.alice
             [ FromRegister Scenario.bob;
               FromBroadcast (mkBroadcastMessage 1 (Scenario.ev 1 10 "prepare"));
               FromBroadcast (mkBroadcastMessage 2 (Scenario.ev 2 20 "prepare"));
               FromUnregister Scenario.bob;
               FromBroadcast (mkBroadcastMessage 1 (Scenario.ev 3 30 "bootstrap")) ] Hub).
  - reflexivity.
  - intros cid. unfold subscribers, Hub. cbn [hubClients]. rewrite lookup_empty.
    apply not_elem_of_empty.
  - repeat constructor; done.
  - reflexivity.
Defined.
